(** * Storage manager and buffer pool (assign2): model and properties

    A shallow embedding of [storage_mgr.c] and [buffer_mgr.c].

    - C [int]/[long] values are integers in [Z].  The file offset of a page,
      an [int] product, and the page count [pinPage] asks for, an [int] sum,
      are written with the wrap-around of the 32-bit [int] (what the usual
      compilers make of an overflow, which C leaves undefined); the counters
      (fix counts, ticks, I/O counts, page counts of a handle), which go up
      by one per call, are taken not to leave the range.
    - A pointer that the code tests against [NULL] is an [option].
    - The frame array [poolInfo->frames] of [bufferSize] entries is a list;
      [bufferSize] is its length.
    - The C library is modelled by a [World]: the files by name (their bytes
      and whether they may be opened for writing), the list of completed
      [fwrite] calls, and the outcomes of the coming allocations. *)

From Stdlib Require Import ZArith Lia.
From Stdlib.Strings Require Import Byte.
From stdpp Require Import base list strings.

Open Scope Z_scope.

(** ** Shared declarations *)

(** Modelled from the spec: dberror.h is not among the sources.  The page
    size is the value the spec's scenarios assume, the return codes are the
    ones the two C files return. *)
Definition PAGE_SIZE : Z := 4096.

(** The C type [int]: 32 bits, two's complement.  [int_wrap z] is the value
    an [int] computation delivers when its exact result is [z]. *)
Definition INT_MAX : Z := 2147483647.

Definition int_wrap (z : Z) : Z :=
  (z + 2147483648) mod 4294967296 - 2147483648.

(** The file offset [PAGE_SIZE * pageNum] of a page, as [readBlock] and
    [writeBlock] compute it: a product of two [int]s.  From page 524288 on
    the product leaves the range of [int]. *)
Definition page_offset (pageNum : Z) : Z := int_wrap (PAGE_SIZE * pageNum).

Inductive RC : Type :=
  | RC_OK
  | RC_FILE_NOT_FOUND
  | RC_FILE_HANDLE_NOT_INIT
  | RC_WRITE_FAILED
  | RC_READ_NON_EXISTING_PAGE
  | RC_BUFF_POOL_NOT_FOUND
  | RC_PINNED_PAGES_IN_BUFFER
  | RC_ERROR.

#[global] Instance RC_eq_dec : EqDecision RC.
Proof. solve_decision. Defined.

Definition is_ok (rc : RC) : bool :=
  match rc with RC_OK => true | _ => false end.

(** [PAGE_SIZE] as a number of list elements. *)
Definition page_len : nat := Z.to_nat PAGE_SIZE.

(** A memory buffer of [PAGE_SIZE] bytes.  The C buffers always have that
    size; a list that is shorter stands for a buffer whose remaining bytes
    are zero, a longer one is cut. *)
Definition page_bytes (buf : list byte) : list byte :=
  take page_len (buf ++ replicate page_len x00).

(** ** The C library: files and allocation *)

(** What is taken of the environment: opening a file and allocating memory
    can fail, and do so as the world says.  The calls on a stream that is
    open do not fail: [fwrite] writes all its bytes, [fread] reads what the
    file has, [fseek] to the end, [ftell] and [fclose] succeed, and [remove]
    of a file that could be opened succeeds.  The exits the code has for their
    failure ([writeBlock] and [appendEmptyBlock] after a short [fwrite],
    [openPageFile] and [writeBlock] after a failing [ftell], [destroyPageFile]
    after a failing [remove]) are therefore not part of the model; a
    property below about a failing [writeBlock], [appendEmptyBlock] or
    [ensureCapacity] names the exits or the return codes it is about. *)

Module Env.

Record File : Type := mkFile {
  contents : list byte;
  writable : bool            (* may be opened with "r+", "a+", "w+" *)
}.

(** One completed [fwrite]: file, byte offset, bytes written. *)
Inductive Event : Type :=
  | FWrite (name : string) (offset : nat) (bytes : list byte).

Record World : Type := mkWorld {
  files  : string → option File;
  trace  : list Event;        (* completed writes, oldest first *)
  allocs : list bool          (* outcome of the next malloc/calloc calls;
                                 once the list is used up they succeed *)
}.

(** [fopen(name, "r")]: the file must exist. *)
Definition fopen_r (w : World) (name : string) : option File :=
  files w name.

(** [fopen(name, "r+")]: the file must exist and be writable. *)
Definition fopen_rw (w : World) (name : string) : option File :=
  match files w name with
  | Some f => if writable f then Some f else None
  | None => None
  end.

Definition set_file (w : World) (name : string) (f : File) : World :=
  {| files := λ n, if bool_decide (n = name) then Some f else files w n;
     trace := trace w;
     allocs := allocs w |}.

(** [fopen(name, "a+")]: creates the file when it is missing. *)
Definition fopen_a (w : World) (name : string) : option (World * File) :=
  match files w name with
  | Some f => if writable f then Some (w, f) else None
  | None => let f := mkFile [] true in Some (set_file w name f, f)
  end.

(** [fopen(name, "w+")]: creates the file or cuts it to length zero. *)
Definition fopen_w (w : World) (name : string) : option (World * File) :=
  match files w name with
  | Some f =>
      if writable f
      then let f' := mkFile [] true in Some (set_file w name f', f')
      else None
  | None => let f := mkFile [] true in Some (set_file w name f, f)
  end.

(** Bytes of a file after writing [src] at offset [pos]; a gap between the
    old end and [pos] reads as zeros. *)
Definition pwrite (bytes : list byte) (pos : nat) (src : list byte) : list byte :=
  take pos (bytes ++ replicate (pos - length bytes)%nat x00)
    ++ src ++ drop (pos + length src)%nat bytes.

(** What [fread] of [n] bytes at offset [pos] delivers. *)
Definition pread (bytes : list byte) (pos n : nat) : list byte :=
  take n (drop pos bytes).

(** [fseek] to [pos] followed by a [fwrite] of [src] on file [f] of [name]. *)
Definition fwrite (w : World) (name : string) (f : File) (pos : nat)
    (src : list byte) : World :=
  {| files := λ n, if bool_decide (n = name)
                   then Some (mkFile (pwrite (contents f) pos src) (writable f))
                   else files w n;
     trace := trace w ++ [FWrite name pos src];
     allocs := allocs w |}.

(** [fseek(fp, offset, SEEK_SET)] succeeds for the offsets that are not
    negative, also beyond the end of the file; [offset] is the [long] the
    [int] of the caller is converted to. *)
Definition fseek_set (offset : Z) : bool := 0 <=? offset.

(** [malloc]/[calloc]: [true] when memory was obtained. *)
Definition malloc (w : World) : bool * World :=
  match allocs w with
  | [] => (true, w)
  | b :: rest => (b, {| files := files w; trace := trace w; allocs := rest |})
  end.

(** The size of a file in pages, as [openPageFile] and [writeBlock] compute
    it: [fileSize / PAGE_SIZE], plus one when a remainder is left.  Seeking
    to the end of an open file and [ftell] always succeed. *)
Definition pages_of_size (fileSize : Z) : Z :=
  if Z.rem fileSize PAGE_SIZE =? 0
  then Z.quot fileSize PAGE_SIZE
  else Z.quot fileSize PAGE_SIZE + 1.

Definition file_size (f : File) : Z := Z.of_nat (length (contents f)).

End Env.

Import Env.

(** ** storage_mgr.c *)

Module StorageMgr.

(** Modelled from the spec: storage_mgr.h is not among the sources; the
    fields are the ones storage_mgr.c reads and writes. *)
Record SM_FileHandle : Type := mkHandle {
  fileName : string;
  totalNumPages : Z;
  curPagePos : Z
}.

Definition set_curPagePos (fh : SM_FileHandle) (n : Z) : SM_FileHandle :=
  mkHandle (fileName fh) (totalNumPages fh) n.

Definition set_totalNumPages (fh : SM_FileHandle) (n : Z) : SM_FileHandle :=
  mkHandle (fileName fh) n (curPagePos fh).

(** A handle before [openPageFile] has filled it. *)
Definition blank_handle : SM_FileHandle := mkHandle "" 0 0.

Definition createPageFile (w : World) (fileName : string) : RC * World :=
  match fopen_w w fileName with
  | None => (RC_FILE_NOT_FOUND, w)
  | Some (w1, f) =>
      let '(got, w2) := malloc w1 in
      if negb got then (RC_WRITE_FAILED, w2)
      else (RC_OK, fwrite w2 fileName f 0 (replicate page_len x00))
  end.

Definition openPageFile (w : World) (name : string) (fHandle : SM_FileHandle)
    : RC * SM_FileHandle :=
  match fopen_r w name with
  | None => (RC_FILE_NOT_FOUND, fHandle)
  | Some f => (RC_OK, mkHandle name (pages_of_size (file_size f)) 0)
  end.

Definition closePageFile (w : World) (fHandle : option SM_FileHandle) : RC :=
  match fHandle with
  | None => RC_FILE_HANDLE_NOT_INIT
  | Some fh =>
      match fopen_r w (fileName fh) with
      | None => RC_FILE_NOT_FOUND
      | Some _ => RC_OK
      end
  end.

(** [remove] of a file that could be opened succeeds. *)
Definition destroyPageFile (w : World) (name : string) : RC * World :=
  match fopen_r w name with
  | None => (RC_FILE_NOT_FOUND, w)
  | Some _ =>
      (RC_OK, {| files := λ n, if bool_decide (n = name) then None else files w n;
                 trace := trace w; allocs := allocs w |})
  end.

(** [readBlock]: the result code, the handle and the buffer afterwards. *)
Definition readBlock (w : World) (pageNum : Z) (fHandle : option SM_FileHandle)
    (memPage : option (list byte))
    : RC * option SM_FileHandle * option (list byte) :=
  match fHandle with
  | None => (RC_FILE_HANDLE_NOT_INIT, fHandle, memPage)
  | Some fh =>
    match memPage with
    | None => (RC_WRITE_FAILED, fHandle, memPage)
    | Some buf =>
      if (pageNum <? 0) || (pageNum >=? totalNumPages fh)
      then (RC_READ_NON_EXISTING_PAGE, fHandle, memPage)
      else
        match fopen_r w (fileName fh) with
        | None => (RC_FILE_NOT_FOUND, fHandle, memPage)
        | Some f =>
          if negb (fseek_set (page_offset pageNum))
          then (RC_READ_NON_EXISTING_PAGE, fHandle, memPage)
          else
            let got := pread (contents f) (Z.to_nat (page_offset pageNum)) page_len in
            let buf' := got ++ drop (length got) (page_bytes buf) in
            let fh' := set_curPagePos fh pageNum in
            if Z.of_nat (length got) <? PAGE_SIZE
            then (RC_READ_NON_EXISTING_PAGE, Some fh', Some buf')
            else (RC_OK, Some fh', Some buf')
        end
    end
  end.

Definition getBlockPos (fHandle : option SM_FileHandle) : RC + Z :=
  match fHandle with
  | None => inl RC_FILE_HANDLE_NOT_INIT
  | Some fh => inr (curPagePos fh)
  end.

Definition readFirstBlock w fHandle memPage := readBlock w 0 fHandle memPage.

Definition readPreviousBlock w (fHandle : option SM_FileHandle) memPage :=
  match fHandle with
  | None => (RC_FILE_HANDLE_NOT_INIT, fHandle, memPage)
  | Some fh => readBlock w (curPagePos fh - 1) fHandle memPage
  end.

Definition readCurrentBlock w (fHandle : option SM_FileHandle) memPage :=
  match fHandle with
  | None => (RC_FILE_HANDLE_NOT_INIT, fHandle, memPage)
  | Some fh => readBlock w (curPagePos fh) fHandle memPage
  end.

Definition readNextBlock w (fHandle : option SM_FileHandle) memPage :=
  match fHandle with
  | None => (RC_FILE_HANDLE_NOT_INIT, fHandle, memPage)
  | Some fh => readBlock w (curPagePos fh + 1) fHandle memPage
  end.

Definition readLastBlock w (fHandle : option SM_FileHandle) memPage :=
  match fHandle with
  | None => (RC_FILE_HANDLE_NOT_INIT, fHandle, memPage)
  | Some fh => readBlock w (totalNumPages fh - 1) fHandle memPage
  end.

(** [writeBlock]: the result code, the world and the handle afterwards.  The
    write itself and the measuring of the file after it succeed; the exits
    the code has behind them are not taken. *)
Definition writeBlock (w : World) (pageNum : Z) (fHandle : option SM_FileHandle)
    (memPage : option (list byte))
    : RC * World * option SM_FileHandle :=
  match fHandle with
  | None => (RC_FILE_HANDLE_NOT_INIT, w, fHandle)
  | Some fh =>
    match memPage with
    | None => (RC_WRITE_FAILED, w, fHandle)
    | Some buf =>
      if (pageNum <? 0) || (pageNum >? totalNumPages fh)
      then (RC_WRITE_FAILED, w, fHandle)
      else
        match fopen_rw w (fileName fh) with
        | None => (RC_FILE_NOT_FOUND, w, fHandle)
        | Some f =>
          if negb (fseek_set (page_offset pageNum))
          then (RC_WRITE_FAILED, w, fHandle)
          else
            let pos := Z.to_nat (page_offset pageNum) in
            let w' := fwrite w (fileName fh) f pos (page_bytes buf) in
            let fileSize := Z.of_nat (length (pwrite (contents f) pos (page_bytes buf))) in
            (RC_OK, w',
             Some (set_totalNumPages (set_curPagePos fh pageNum)
                     (pages_of_size fileSize)))
        end
    end
  end.

Definition writeCurrentBlock w (fHandle : option SM_FileHandle) memPage :=
  match fHandle with
  | None => (RC_FILE_HANDLE_NOT_INIT, w, fHandle)
  | Some fh => writeBlock w (curPagePos fh) fHandle memPage
  end.

(** [appendEmptyBlock]: opening the file and allocating the block can fail;
    the seek to the end and the write succeed. *)
Definition appendEmptyBlock (w : World) (fHandle : option SM_FileHandle)
    : RC * World * option SM_FileHandle :=
  match fHandle with
  | None => (RC_FILE_HANDLE_NOT_INIT, w, fHandle)
  | Some fh =>
    match fopen_a w (fileName fh) with
    | None => (RC_FILE_NOT_FOUND, w, fHandle)
    | Some (w1, f) =>
      let '(got, w2) := malloc w1 in
      if negb got then (RC_WRITE_FAILED, w2, fHandle)
      else
        let w3 := fwrite w2 (fileName fh) f (length (contents f))
                    (replicate page_len x00) in
        (RC_OK, w3, Some (set_totalNumPages fh (totalNumPages fh + 1)))
    end
  end.

(** The [while] loop of [ensureCapacity]; [fuel] bounds the number of
    rounds, [numberOfPages - totalNumPages] of them are enough. *)
Fixpoint ensureCapacity_loop (fuel : nat) (w : World) (numberOfPages : Z)
    (fh : SM_FileHandle) : RC * World * option SM_FileHandle :=
  match fuel with
  | O => (RC_OK, w, Some fh)
  | S fuel' =>
    if totalNumPages fh <? numberOfPages then
      match appendEmptyBlock w (Some fh) with
      | (RC_OK, w', Some fh') => ensureCapacity_loop fuel' w' numberOfPages fh'
      | (result, w', fh') => (result, w', fh')
      end
    else (RC_OK, w, Some fh)
  end.

Definition ensureCapacity (w : World) (numberOfPages : Z)
    (fHandle : option SM_FileHandle) : RC * World * option SM_FileHandle :=
  match fHandle with
  | None => (RC_FILE_HANDLE_NOT_INIT, w, fHandle)
  | Some fh =>
    match fopen_r w (fileName fh) with
    | None => (RC_FILE_NOT_FOUND, w, fHandle)
    | Some _ =>
      if totalNumPages fh >=? numberOfPages then (RC_OK, w, fHandle)
      else ensureCapacity_loop (Z.to_nat (numberOfPages - totalNumPages fh))
             w numberOfPages fh
    end
  end.

End StorageMgr.

Import StorageMgr.

(** ** buffer_mgr.c *)

Module BufferMgr.

(** Conventions of this part:
    - a function takes the world and what its pointer arguments point to, and
      gives back its result code together with the world and those objects
      as they are afterwards;
    - [closePageFile] only probes the file and its result is never looked
      at, so its calls leave no mark;
    - a buffer fresh from [malloc] is filled with zeros (its contents are
      never read before [readBlock] has filled it);
    - the strategies get [poolInfo] from [pinPage], which has checked that it
      is there;
    - the arrays of the statistics functions are lists, their allocation is
      left out. *)

(** Modelled from the spec: buffer_mgr.h and dt.h are not among the sources.
    The records have the fields buffer_mgr.c uses; the dirty flag and the
    reference bit, which the code only sets to 0 or 1, are booleans as in the
    spec's data model; [RS_OTHER] stands for every value of the strategy enum
    that [pinPage] sends to its [default] branch. *)
Definition PageNumber : Type := Z.

Definition NO_PAGE : PageNumber := -1.

Inductive ReplacementStrategy : Type :=
  | RS_FIFO
  | RS_LRU
  | RS_CLOCK
  | RS_OTHER.

Record FrameInfo : Type := mkFrame {
  pageNumber : PageNumber;
  dirtybit : bool;
  accessCount : Z;
  secondChance : bool;
  recentHit : Z;
  index : Z;
  data : option (list byte)      (* [None] is the NULL pointer *)
}.

Record BufferPoolInfo : Type := mkPool {
  frames : list FrameInfo;
  readCount : Z;
  writeCount : Z;
  recentHitCount : Z;
  frameIndex : Z;
  clockPointer : Z
}.

Definition bufferSize (poolInfo : BufferPoolInfo) : Z :=
  Z.of_nat (length (frames poolInfo)).

Record BM_BufferPool : Type := mkBM {
  pageFile : string;
  numPages : Z;
  strategy : ReplacementStrategy;
  mgmtData : option BufferPoolInfo
}.

(** The handle given to the client.  [pageData] is the C field [data] (the
    name is taken by [FrameInfo] here): the buffer that can be reached
    through the pointer, which is the frame's buffer as it is when the page is
    pinned.  [None]: no buffer can be reached, the pointer is [NULL] or is
    left dangling, referring to a buffer that has been freed; the module
    itself never reads the field.  What the client writes through the
    pointer later is a [client_write] on the frame. *)
Record BM_PageHandle : Type := mkPage {
  pageNum : PageNumber;
  pageData : option (list byte)
}.

(** *** Field updates *)

Definition set_dirtybit (f : FrameInfo) (b : bool) : FrameInfo :=
  mkFrame (pageNumber f) b (accessCount f) (secondChance f) (recentHit f)
          (index f) (data f).

Definition set_accessCount (f : FrameInfo) (n : Z) : FrameInfo :=
  mkFrame (pageNumber f) (dirtybit f) n (secondChance f) (recentHit f)
          (index f) (data f).

Definition set_secondChance (f : FrameInfo) (b : bool) : FrameInfo :=
  mkFrame (pageNumber f) (dirtybit f) (accessCount f) b (recentHit f)
          (index f) (data f).

Definition set_recentHit (f : FrameInfo) (n : Z) : FrameInfo :=
  mkFrame (pageNumber f) (dirtybit f) (accessCount f) (secondChance f) n
          (index f) (data f).

Definition set_data (f : FrameInfo) (d : option (list byte)) : FrameInfo :=
  mkFrame (pageNumber f) (dirtybit f) (accessCount f) (secondChance f)
          (recentHit f) (index f) d.

Definition set_frames (p : BufferPoolInfo) (fs : list FrameInfo) : BufferPoolInfo :=
  mkPool fs (readCount p) (writeCount p) (recentHitCount p) (frameIndex p)
         (clockPointer p).

Definition set_readCount (p : BufferPoolInfo) (n : Z) : BufferPoolInfo :=
  mkPool (frames p) n (writeCount p) (recentHitCount p) (frameIndex p)
         (clockPointer p).

Definition set_writeCount (p : BufferPoolInfo) (n : Z) : BufferPoolInfo :=
  mkPool (frames p) (readCount p) n (recentHitCount p) (frameIndex p)
         (clockPointer p).

Definition set_recentHitCount (p : BufferPoolInfo) (n : Z) : BufferPoolInfo :=
  mkPool (frames p) (readCount p) (writeCount p) n (frameIndex p)
         (clockPointer p).

Definition set_frameIndex (p : BufferPoolInfo) (n : Z) : BufferPoolInfo :=
  mkPool (frames p) (readCount p) (writeCount p) (recentHitCount p) n
         (clockPointer p).

Definition set_clockPointer (p : BufferPoolInfo) (n : Z) : BufferPoolInfo :=
  mkPool (frames p) (readCount p) (writeCount p) (recentHitCount p)
         (frameIndex p) n.

Definition set_mgmtData (bm : BM_BufferPool) (p : option BufferPoolInfo)
    : BM_BufferPool :=
  mkBM (pageFile bm) (numPages bm) (strategy bm) p.

(** [frames[idx]]; [None] outside the array, where the C access is
    undefined. *)
Definition frame_at (fs : list FrameInfo) (idx : Z) : option FrameInfo :=
  if idx <? 0 then None else fs !! Z.to_nat idx.

(** *** initBufferPool, shutdownBufferPool *)

Definition empty_frame : FrameInfo :=
  mkFrame NO_PAGE false 0 false 0 0 None.

Definition initBufferPool (w : World) (bm : option BM_BufferPool)
    (pageFileName : option string) (numPages : Z)
    (strategy : ReplacementStrategy) : RC * World * option BM_BufferPool :=
  match bm with
  | None => (RC_BUFF_POOL_NOT_FOUND, w, bm)
  | Some _ =>
    match pageFileName with
    | None => (RC_FILE_NOT_FOUND, w, bm)
    | Some name =>
      if numPages <=? 0 then (RC_ERROR, w, bm)
      else
        let '(got1, w1) := malloc w in
        if negb got1 then (RC_ERROR, w1, bm)
        else
          let '(got2, w2) := malloc w1 in
          if negb got2 then (RC_ERROR, w2, bm)
          else
            let poolInfo :=
              mkPool (replicate (Z.to_nat numPages) empty_frame) 0 0 0 0 0 in
            let '(got3, w3) := malloc w2 in
            if negb got3 then (RC_ERROR, w3, bm)
            else (RC_OK, w3, Some (mkBM name numPages strategy (Some poolInfo)))
    end
  end.

(** The loop of [forceFlushPool] over the frames from the current one on:
    result code, world, file handle state is threaded through [writeBlock]. *)
Fixpoint flush_frames (w : World) (fh : option SM_FileHandle)
    (fs : list FrameInfo) (writes : Z) : RC * World * list FrameInfo * Z :=
  match fs with
  | [] => (RC_OK, w, [], writes)
  | f :: rest =>
    if dirtybit f && (accessCount f =? 0) then
      match writeBlock w (pageNumber f) fh (data f) with
      | (RC_OK, w', fh') =>
          let '(rc, w'', rest', writes') := flush_frames w' fh' rest (writes + 1) in
          (rc, w'', set_dirtybit f false :: rest', writes')
      | (_, w', _) => (RC_WRITE_FAILED, w', f :: rest, writes)
      end
    else
      let '(rc, w'', rest', writes') := flush_frames w fh rest writes in
      (rc, w'', f :: rest', writes')
  end.

Definition forceFlushPool (w : World) (bm : option BM_BufferPool)
    : RC * World * option BM_BufferPool :=
  match bm with
  | None => (RC_BUFF_POOL_NOT_FOUND, w, bm)
  | Some b =>
    match mgmtData b with
    | None => (RC_ERROR, w, bm)
    | Some poolInfo =>
      match openPageFile w (pageFile b) blank_handle with
      | (RC_OK, fh) =>
          let '(rc, w', fs', writes') :=
            flush_frames w (Some fh) (frames poolInfo) (writeCount poolInfo) in
          (rc, w',
           Some (set_mgmtData b
                   (Some (set_writeCount (set_frames poolInfo fs') writes'))))
      | _ => (RC_FILE_NOT_FOUND, w, bm)
      end
    end
  end.

Definition shutdownBufferPool (w : World) (bm : option BM_BufferPool)
    : RC * World * option BM_BufferPool :=
  match bm with
  | None => (RC_BUFF_POOL_NOT_FOUND, w, bm)
  | Some b =>
    match mgmtData b with
    | None => (RC_ERROR, w, bm)
    | Some _ =>
      match forceFlushPool w bm with
      | (RC_OK, w', Some b') =>
          match mgmtData b' with
          | Some poolInfo' =>
              match list_find (λ f, accessCount f ≠ 0) (frames poolInfo') with
              | Some _ => (RC_PINNED_PAGES_IN_BUFFER, w', Some b')
              | None => (RC_OK, w', Some (set_mgmtData b' None))
              end
          | None => (RC_ERROR, w', Some b')
          end
      | (result, w', bm') => (result, w', bm')
      end
    end
  end.

(** *** markDirty, unpinPage, forcePage *)

Definition markDirty (w : World) (bm : option BM_BufferPool)
    (page : option BM_PageHandle) : RC * World * option BM_BufferPool :=
  match bm with
  | None => (RC_BUFF_POOL_NOT_FOUND, w, bm)
  | Some b =>
    match page with
    | None => (RC_ERROR, w, bm)
    | Some pg =>
      match mgmtData b with
      | None => (RC_ERROR, w, bm)
      | Some poolInfo =>
        match list_find (λ f, pageNumber f = pageNum pg) (frames poolInfo) with
        | Some (i, f) =>
            (RC_OK, w,
             Some (set_mgmtData b
               (Some (set_frames poolInfo
                        (<[i := set_dirtybit f true]> (frames poolInfo))))))
        | None => (RC_ERROR, w, bm)
        end
      end
    end
  end.

Definition unpinPage (w : World) (bm : option BM_BufferPool)
    (page : option BM_PageHandle) : RC * World * option BM_BufferPool :=
  match bm with
  | None => (RC_BUFF_POOL_NOT_FOUND, w, bm)
  | Some b =>
    match page with
    | None => (RC_ERROR, w, bm)
    | Some pg =>
      match mgmtData b with
      | None => (RC_ERROR, w, bm)
      | Some poolInfo =>
        match list_find (λ f, pageNumber f = pageNum pg) (frames poolInfo) with
        | Some (i, f) =>
            if accessCount f >? 0 then
              (RC_OK, w,
               Some (set_mgmtData b
                 (Some (set_frames poolInfo
                          (<[i := set_accessCount f (accessCount f - 1)]>
                             (frames poolInfo))))))
            else (RC_OK, w, bm)
        | None => (RC_OK, w, bm)
        end
      end
    end
  end.

Definition forcePage (w : World) (bm : option BM_BufferPool)
    (page : option BM_PageHandle) : RC * World * option BM_BufferPool :=
  match bm with
  | None => (RC_BUFF_POOL_NOT_FOUND, w, bm)
  | Some b =>
    match page with
    | None => (RC_ERROR, w, bm)
    | Some pg =>
      match mgmtData b with
      | None => (RC_ERROR, w, bm)
      | Some poolInfo =>
        match openPageFile w (pageFile b) blank_handle with
        | (RC_OK, fh) =>
          match list_find (λ f, pageNumber f = pageNum pg) (frames poolInfo) with
          | Some (i, f) =>
            match writeBlock w (pageNumber f) (Some fh) (data f) with
            | (RC_OK, w', _) =>
                (RC_OK, w',
                 Some (set_mgmtData b
                   (Some (set_writeCount
                            (set_frames poolInfo
                               (<[i := set_dirtybit f false]> (frames poolInfo)))
                            (writeCount poolInfo + 1)))))
            | (_, w', _) => (RC_WRITE_FAILED, w', bm)
            end
          | None => (RC_OK, w, bm)
          end
        | _ => (RC_FILE_NOT_FOUND, w, bm)
        end
      end
    end
  end.

(** *** Replacement strategies *)

(** The block the three strategies share: a dirty victim is written out when
    the page file opens; the result of [writeBlock] is not looked at. *)
Definition write_victim (w : World) (name : string) (poolInfo : BufferPoolInfo)
    (victim : FrameInfo) : World * BufferPoolInfo :=
  if dirtybit victim then
    match openPageFile w name blank_handle with
    | (RC_OK, fh) =>
        let '(_, w', _) := writeBlock w (pageNumber victim) (Some fh) (data victim) in
        (w', set_writeCount poolInfo (writeCount poolInfo + 1))
    | _ => (w, poolInfo)
    end
  else (w, poolInfo).

(** [frames[idx]] after FIFO has put [page] there. *)
Definition replace_FIFO (old page : FrameInfo) : FrameInfo :=
  mkFrame (pageNumber page) (dirtybit page) (accessCount page)
          (secondChance old) (recentHit old) (index old) (data page).

Definition replace_LRU (old page : FrameInfo) : FrameInfo :=
  mkFrame (pageNumber page) (dirtybit page) (accessCount page)
          (secondChance old) (recentHit page) (index old) (data page).

Definition replace_CLOCK (old page : FrameInfo) : FrameInfo :=
  mkFrame (pageNumber page) (dirtybit page) (accessCount page)
          false (recentHit old) (index old) (data page).

Definition next_index (poolInfo : BufferPoolInfo) (i : Z) : Z :=
  Z.rem (i + 1) (bufferSize poolInfo).

(** The [for] loop of [FIFO] with [attempts] rounds to go. *)
Fixpoint FIFO_loop (attempts : nat) (w : World) (name : string)
    (poolInfo : BufferPoolInfo) (page : FrameInfo) : World * BufferPoolInfo :=
  match attempts with
  | O => (w, poolInfo)
  | S attempts' =>
    let idx := frameIndex poolInfo in
    match frame_at (frames poolInfo) idx with
    | None => (w, poolInfo)
    | Some f =>
      if accessCount f =? 0 then
        let '(w', p1) := write_victim w name poolInfo f in
        let p2 := set_frames p1 (<[Z.to_nat idx := replace_FIFO f page]> (frames p1)) in
        (w', set_frameIndex p2 (next_index p2 (frameIndex p2)))
      else
        FIFO_loop attempts' w name
          (set_frameIndex poolInfo (next_index poolInfo (frameIndex poolInfo)))
          page
    end
  end.

Definition FIFO (w : World) (bm : BM_BufferPool) (poolInfo : BufferPoolInfo)
    (page : FrameInfo) : World * BufferPoolInfo :=
  FIFO_loop (Z.to_nat (bufferSize poolInfo)) w (pageFile bm) poolInfo page.

(** The search loop of [LRU] from frame [i] on: the pair
    [(replaceIdx, leastRecentHit)] after the remaining frames. *)
Fixpoint LRU_scan (fs : list FrameInfo) (i : Z) (replaceIdx leastRecentHit : Z)
    : Z * Z :=
  match fs with
  | [] => (replaceIdx, leastRecentHit)
  | f :: rest =>
    if (accessCount f =? 0) && (recentHit f <? leastRecentHit)
    then LRU_scan rest (i + 1) i (recentHit f)
    else LRU_scan rest (i + 1) replaceIdx leastRecentHit
  end.

Definition LRU (w : World) (bm : BM_BufferPool) (poolInfo : BufferPoolInfo)
    (page : FrameInfo) : World * BufferPoolInfo :=
  let replaceIdx :=
    fst (LRU_scan (frames poolInfo) 0 (-1) (recentHitCount poolInfo + 1)) in
  if replaceIdx =? -1 then (w, poolInfo)
  else
    match frame_at (frames poolInfo) replaceIdx with
    | None => (w, poolInfo)
    | Some f =>
      let '(w', p1) := write_victim w (pageFile bm) poolInfo f in
      (w', set_frames p1 (<[Z.to_nat replaceIdx := replace_LRU f page]> (frames p1)))
    end.

(** The [while] loop of [CLOCK] with [maxAttempts - attempts] rounds to go. *)
Fixpoint CLOCK_loop (rounds : nat) (w : World) (name : string)
    (poolInfo : BufferPoolInfo) (page : FrameInfo) : World * BufferPoolInfo :=
  match rounds with
  | O => (w, poolInfo)
  | S rounds' =>
    let idx := clockPointer poolInfo in
    match frame_at (frames poolInfo) idx with
    | None => (w, poolInfo)
    | Some f =>
      if accessCount f =? 0 then
        if negb (secondChance f) then
          let '(w', p1) := write_victim w name poolInfo f in
          let p2 := set_frames p1 (<[Z.to_nat idx := replace_CLOCK f page]> (frames p1)) in
          (w', set_clockPointer p2 (next_index p2 (clockPointer p2)))
        else
          let p1 := set_frames poolInfo
                      (<[Z.to_nat idx := set_secondChance f false]> (frames poolInfo)) in
          CLOCK_loop rounds' w name
            (set_clockPointer p1 (next_index p1 (clockPointer p1))) page
      else
        CLOCK_loop rounds' w name
          (set_clockPointer poolInfo (next_index poolInfo (clockPointer poolInfo)))
          page
    end
  end.

Definition CLOCK (w : World) (bm : BM_BufferPool) (poolInfo : BufferPoolInfo)
    (page : FrameInfo) : World * BufferPoolInfo :=
  CLOCK_loop (Z.to_nat (bufferSize poolInfo * 2)) w (pageFile bm) poolInfo page.

(** *** pinPage *)

(** The page is in frame [i]. *)
Definition pinPage_hit (bm : BM_BufferPool) (poolInfo : BufferPoolInfo)
    (i : nat) (f : FrameInfo) (pageNum : PageNumber)
    : BufferPoolInfo * BM_PageHandle :=
  let f1 := set_accessCount f (accessCount f + 1) in
  let hits := recentHitCount poolInfo + 1 in
  let f2 :=
    match strategy bm with
    | RS_CLOCK => set_secondChance f1 true
    | RS_LRU => set_recentHit f1 hits
    | _ => f1
    end in
  (set_recentHitCount (set_frames poolInfo (<[i := f2]> (frames poolInfo))) hits,
   mkPage pageNum (data f2)).

(** The page is loaded into the empty frame [i]. *)
Definition pinPage_empty (w : World) (fh : SM_FileHandle) (bm : BM_BufferPool)
    (poolInfo : BufferPoolInfo) (i : nat) (f : FrameInfo) (page : BM_PageHandle)
    (pageNum : PageNumber) : RC * World * BufferPoolInfo * BM_PageHandle :=
  let '(got, w1) := malloc w in
  if negb got then
    (RC_ERROR, w1,
     set_frames poolInfo (<[i := set_data f None]> (frames poolInfo)), page)
  else
    let '(_, w2, fh2) := ensureCapacity w1 (int_wrap (pageNum + 1)) (Some fh) in
    match readBlock w2 pageNum fh2 (Some (replicate page_len x00)) with
    | (RC_OK, _, buf) =>
        let hits := recentHitCount poolInfo + 1 in
        let f1 := mkFrame pageNum false 1 (secondChance f) (recentHit f) 0 buf in
        let f2 :=
          match strategy bm with
          | RS_CLOCK => set_secondChance f1 false
          | RS_LRU => set_recentHit f1 hits
          | _ => f1
          end in
        (RC_OK, w2,
         set_recentHitCount
           (set_readCount (set_frames poolInfo (<[i := f2]> (frames poolInfo)))
              (readCount poolInfo + 1))
           hits,
         mkPage pageNum (data f2))
    | _ =>
        (RC_READ_NON_EXISTING_PAGE, w2,
         set_frames poolInfo (<[i := set_data f None]> (frames poolInfo)), page)
    end.

(** No frame is empty: the page is read into a fresh frame record that the
    strategy is to install. *)
Definition pinPage_replace (w : World) (fh : SM_FileHandle) (bm : BM_BufferPool)
    (poolInfo : BufferPoolInfo) (page : BM_PageHandle) (pageNum : PageNumber)
    : RC * World * BufferPoolInfo * BM_PageHandle :=
  let '(got1, w1) := malloc w in
  if negb got1 then (RC_ERROR, w1, poolInfo, page)
  else
    let '(got2, w2) := malloc w1 in
    if negb got2 then (RC_ERROR, w2, poolInfo, page)
    else
      let '(_, w3, fh3) := ensureCapacity w2 (int_wrap (pageNum + 1)) (Some fh) in
      match readBlock w3 pageNum fh3 (Some (replicate page_len x00)) with
      | (RC_OK, _, buf) =>
          let hits := recentHitCount poolInfo + 1 in
          let p1 := set_recentHitCount
                      (set_readCount poolInfo (readCount poolInfo + 1)) hits in
          let n0 := mkFrame pageNum false 1 false 0 0 buf in
          let newFrame :=
            match strategy bm with
            | RS_CLOCK => set_secondChance n0 false
            | RS_LRU => set_recentHit n0 hits
            | _ => n0
            end in
          let page' := mkPage pageNum (data newFrame) in
          match strategy bm with
          | RS_FIFO =>
              let '(w4, p2) := FIFO w3 bm p1 newFrame in (RC_OK, w4, p2, page')
          | RS_LRU =>
              let '(w4, p2) := LRU w3 bm p1 newFrame in (RC_OK, w4, p2, page')
          | RS_CLOCK =>
              let '(w4, p2) := CLOCK w3 bm p1 newFrame in (RC_OK, w4, p2, page')
          | RS_OTHER =>
              (* [newFrame->data] is freed on this exit: the pointer that
                 was stored in the handle refers to no buffer any more *)
              (RC_ERROR, w3, p1, mkPage pageNum None)
          end
      | _ => (RC_READ_NON_EXISTING_PAGE, w3, poolInfo, page)
      end.

Definition pinPage (w : World) (bm : option BM_BufferPool)
    (page : option BM_PageHandle) (pageNum : PageNumber)
    : RC * World * option BM_BufferPool * option BM_PageHandle :=
  match bm with
  | None => (RC_BUFF_POOL_NOT_FOUND, w, bm, page)
  | Some b =>
    match page with
    | None => (RC_ERROR, w, bm, page)
    | Some pg =>
      match mgmtData b with
      | None => (RC_ERROR, w, bm, page)
      | Some poolInfo =>
        match openPageFile w (pageFile b) blank_handle with
        | (RC_OK, fh) =>
          match list_find (λ f, pageNumber f = pageNum) (frames poolInfo) with
          | Some (i, f) =>
              let '(p', pg') := pinPage_hit b poolInfo i f pageNum in
              (RC_OK, w, Some (set_mgmtData b (Some p')), Some pg')
          | None =>
            match list_find (λ f, pageNumber f = NO_PAGE) (frames poolInfo) with
            | Some (i, f) =>
                let '(rc, w', p', pg') :=
                  pinPage_empty w fh b poolInfo i f pg pageNum in
                (rc, w', Some (set_mgmtData b (Some p')), Some pg')
            | None =>
                let '(rc, w', p', pg') :=
                  pinPage_replace w fh b poolInfo pg pageNum in
                (rc, w', Some (set_mgmtData b (Some p')), Some pg')
            end
          end
        | _ => (RC_FILE_NOT_FOUND, w, bm, page)
        end
      end
    end
  end.

(** *** Statistics *)

Definition getFrameContents (bm : option BM_BufferPool) : option (list PageNumber) :=
  b ← bm; poolInfo ← mgmtData b;
  Some (map (λ f, if pageNumber f =? NO_PAGE then NO_PAGE else pageNumber f)
            (frames poolInfo)).

Definition getDirtyFlags (bm : option BM_BufferPool) : option (list bool) :=
  b ← bm; poolInfo ← mgmtData b; Some (map dirtybit (frames poolInfo)).

Definition getFixCounts (bm : option BM_BufferPool) : option (list Z) :=
  b ← bm; poolInfo ← mgmtData b;
  Some (map (λ f, if accessCount f >? 0 then accessCount f else 0)
            (frames poolInfo)).

Definition getNumReadIO (bm : option BM_BufferPool) : Z :=
  match bm with
  | Some b => match mgmtData b with Some p => readCount p | None => 0 end
  | None => 0
  end.

Definition getNumWriteIO (bm : option BM_BufferPool) : Z :=
  match bm with
  | Some b => match mgmtData b with Some p => writeCount p | None => 0 end
  | None => 0
  end.

End BufferMgr.

Import BufferMgr.

(** ** Notions used to state the properties *)

Module Props.

(** The page with number [pn] is in no frame. *)
Definition not_resident (fs : list FrameInfo) (pn : PageNumber) : Prop :=
  Forall (λ f, pageNumber f ≠ pn) fs.

(** Frame [i] is the frame the pool's searches find for page [pn]: the first
    one whose [pageNumber] is [pn]. *)
Definition resident_at (fs : list FrameInfo) (pn : PageNumber) (i : nat)
    (f : FrameInfo) : Prop :=
  fs !! i = Some f ∧ pageNumber f = pn ∧
  ∀ j g, fs !! j = Some g → (j < i)%nat → pageNumber g ≠ pn.

(** What [forceFlushPool] looks for: dirty and not pinned. *)
Definition flushable (f : FrameInfo) : bool :=
  dirtybit f && (accessCount f =? 0).

(** The frame after a flush: a flushable frame loses its dirty flag, any
    other frame stays as it is. *)
Definition flushed (f : FrameInfo) : FrameInfo :=
  if flushable f then set_dirtybit f false else f.


(** The [fwrite] that puts the buffer of [f] into its page of file [name],
    at the offset [writeBlock] computes for the page. *)
Definition frame_write (name : string) (f : FrameInfo) : Event :=
  FWrite name (Z.to_nat (page_offset (pageNumber f)))
         (page_bytes (default [] (data f))).

(** The handle describes the file as it is in [w]: what [openPageFile]
    establishes and [writeBlock] maintains. *)
Definition synced (w : World) (fh : SM_FileHandle) : Prop :=
  ∃ f, files w (fileName fh) = Some f ∧
       totalNumPages fh = pages_of_size (file_size f).


(** The cursors of the two sweeping strategies point into the frame array. *)
Definition cursors_in_range (p : BufferPoolInfo) : Prop :=
  0 ≤ frameIndex p < bufferSize p ∧ 0 ≤ clockPointer p < bufferSize p.

(** In every pool that has its frames the cursors are in range. *)
Definition pool_ok (b : BM_BufferPool) : Prop :=
  ∀ p, mgmtData b = Some p → cursors_in_range p.

(** From [fs] to [fs']: the array keeps its length and every pinned frame
    stays exactly as it is. *)
Definition pinned_kept (fs fs' : list FrameInfo) : Prop :=
  length fs' = length fs ∧
  ∀ i f, fs !! i = Some f → accessCount f ≠ 0 → fs' !! i = Some f.

(** From [fs] to [fs']: a frame that holds a page and is pinned keeps the
    page, its buffer and its dirty flag. *)
Definition page_stays (fs fs' : list FrameInfo) : Prop :=
  ∀ i f, fs !! i = Some f → pageNumber f ≠ NO_PAGE → accessCount f ≠ 0 →
    ∃ f', fs' !! i = Some f' ∧ pageNumber f' = pageNumber f ∧
          data f' = data f ∧ dirtybit f' = dirtybit f.

Definition all_pinned (fs : list FrameInfo) : Prop :=
  Forall (λ f, accessCount f ≠ 0) fs.

(** File [name] exists in [w], is writable and is made of exactly [T] pages;
    every allocation to come succeeds. *)
Definition good_file (w : World) (name : string) (T : Z) : Prop :=
  ∃ f, files w name = Some f ∧ writable f = true ∧
       file_size f = T * PAGE_SIZE ∧ allocs w = [].

(** The client overwrites the buffer of frame [i] through the [data] pointer
    of a page handle. *)
Definition client_write (b : BM_BufferPool) (i : nat) (bytes : list byte)
    : BM_BufferPool :=
  match mgmtData b with
  | Some p =>
      match frames p !! i with
      | Some f =>
          match data f with
          | Some _ =>
              set_mgmtData b
                (Some (set_frames p (<[i := set_data f (Some (page_bytes bytes))]> (frames p))))
          | None => b
          end
      | None => b
      end
  | None => b
  end.

(** The pools a client can get to: created by [initBufferPool], then used
    through the interface, in any state of the files, with any buffer
    contents. *)
Inductive reachable : BM_BufferPool → Prop :=
  | reach_init w bm0 name n s w' b :
      initBufferPool w bm0 (Some name) n s = (RC_OK, w', Some b) →
      reachable b
  | reach_pinPage w b page pn rc w' b' page' :
      reachable b →
      pinPage w (Some b) page pn = (rc, w', Some b', page') →
      reachable b'
  | reach_unpinPage w b page rc w' b' :
      reachable b →
      unpinPage w (Some b) page = (rc, w', Some b') →
      reachable b'
  | reach_markDirty w b page rc w' b' :
      reachable b →
      markDirty w (Some b) page = (rc, w', Some b') →
      reachable b'
  | reach_forcePage w b page rc w' b' :
      reachable b →
      forcePage w (Some b) page = (rc, w', Some b') →
      reachable b'
  | reach_forceFlushPool w b rc w' b' :
      reachable b →
      forceFlushPool w (Some b) = (rc, w', Some b') →
      reachable b'
  | reach_shutdownBufferPool w b rc w' b' :
      reachable b →
      shutdownBufferPool w (Some b) = (rc, w', Some b') →
      reachable b'
  | reach_client_write b i bytes :
      reachable b →
      reachable (client_write b i bytes).

(** *** Worlds and pools of the scenarios *)

(** No file, every allocation succeeds. *)
Definition empty_world : World := mkWorld (λ _, None) [] [].

(** A file of [n] zero pages with the given permission, and nothing else. *)
Definition world_with (name : string) (n : nat) (can_write : bool) : World :=
  mkWorld (λ x, if bool_decide (x = name)
                then Some (mkFile (replicate (n * page_len) x00) can_write)
                else None) [] [].

Definition blank_pool : BM_BufferPool := mkBM "" 0 RS_FIFO None.

Definition blank_page : BM_PageHandle := mkPage 0 None.

(** A client session: the world, the pool and the result codes so far
    (latest first). *)
Definition Session : Type := World * option BM_BufferPool * list RC.

Definition do_init (name : string) (n : Z) (s : ReplacementStrategy)
    (w : World) : Session :=
  let '(rc, w', bm) := initBufferPool w (Some blank_pool) (Some name) n s in
  (w', bm, [rc]).

Definition do_pin (pn : PageNumber) (s : Session) : Session :=
  let '(w, bm, codes) := s in
  let '(rc, w', bm', _) := pinPage w bm (Some blank_page) pn in
  (w', bm', rc :: codes).

Definition do_unpin (pn : PageNumber) (s : Session) : Session :=
  let '(w, bm, codes) := s in
  let '(rc, w', bm') := unpinPage w bm (Some (mkPage pn None)) in
  (w', bm', rc :: codes).

Definition do_markDirty (pn : PageNumber) (s : Session) : Session :=
  let '(w, bm, codes) := s in
  let '(rc, w', bm') := markDirty w bm (Some (mkPage pn None)) in
  (w', bm', rc :: codes).

Definition do_write (i : nat) (bytes : list byte) (s : Session) : Session :=
  let '(w, bm, codes) := s in
  (w, (λ b, client_write b i bytes) <$> bm, codes).

Definition session_pool (s : Session) : option BufferPoolInfo :=
  s.1.2 ≫= mgmtData.

Definition pool_of (s : Session) : BM_BufferPool := default blank_pool s.1.2.

Definition info_of (s : Session) : BufferPoolInfo :=
  default (mkPool [] 0 0 0 0 0) (session_pool s).

Definition frame_of (s : Session) (i : nat) : FrameInfo :=
  default empty_frame (frames (info_of s) !! i).

(** Every pool of the session is one a client can get to. *)
Definition session_ok (s : Session) : Prop :=
  ∀ b, s.1.2 = Some b → reachable b.

(** The bytes of "hello". *)
Definition hello : list byte := [x68; x65; x6c; x6c; x6f].

Definition zero_file (n : nat) (can_write : bool) : File :=
  mkFile (replicate (n * page_len) x00) can_write.

(** One frame, page 0 pinned in it. *)
Definition one_pinned : Session :=
  do_pin 0 (do_init "pages.bin" 1 RS_FIFO (world_with "pages.bin" 1 true)).

(** One frame over a page file of two pages that cannot be opened for
    writing; page 0 is in the frame, modified, marked dirty and unpinned. *)
Definition dirty_unpinned_readonly : Session :=
  do_unpin 0 (do_markDirty 0 (do_write 0 hello
    (do_pin 0 (do_init "pages.bin" 1 RS_FIFO (world_with "pages.bin" 2 false))))).

(** Two frames, both in use: page 1 unpinned, page 2 pinned. *)
Definition full_one_unpinned : Session :=
  do_unpin 1 (do_pin 2 (do_pin 1
    (do_init "pages.bin" 2 RS_CLOCK (world_with "pages.bin" 1 true)))).

(** Two frames, pages 0 and 1, both dirty; page 0 unpinned, page 1 pinned. *)
Definition two_dirty_one_pinned : Session :=
  do_unpin 0 (do_markDirty 1 (do_markDirty 0 (do_pin 1 (do_pin 0
    (do_init "pages.bin" 2 RS_LRU (world_with "pages.bin" 1 true)))))).

End Props.

Import Props.

(** ** Notions of the further properties *)

Module Laws.

(** Page [pn] of a file with the given bytes: what a read of [PAGE_SIZE]
    bytes at offset [pn * PAGE_SIZE] delivers. *)
Definition page_of (bytes : list byte) (pn : Z) : list byte :=
  pread bytes (Z.to_nat (pn * PAGE_SIZE)) page_len.

(** The next allocation succeeds. *)
Definition can_alloc (w : World) : Prop := (malloc w).1 = true.

(** A world with the single file [name] holding [bytes]. *)
Definition world_of_bytes (name : string) (bytes : list byte) (can_write : bool)
    : World :=
  mkWorld (λ x, if bool_decide (x = name) then Some (mkFile bytes can_write)
                else None) [] [].

(** A frame as the pool keeps it: the fix count is not negative; an empty
    frame has no buffer; a frame with a page has a page number that is not
    negative and a buffer of [PAGE_SIZE] bytes. *)
Definition frame_ok (f : FrameInfo) : Prop :=
  0 ≤ accessCount f ∧
  (pageNumber f = NO_PAGE → data f = None) ∧
  (pageNumber f ≠ NO_PAGE →
     0 ≤ pageNumber f ∧ ∃ buf, data f = Some buf ∧ length buf = page_len).

(** No page is in two frames. *)
Definition unique_pages (fs : list FrameInfo) : Prop :=
  ∀ i j f g, fs !! i = Some f → fs !! j = Some g →
    pageNumber f = pageNumber g → pageNumber f ≠ NO_PAGE → i = j.

(** What holds of the frames of every pool in use, [hits] being the pool's
    tick counter: no frame carries a tick from the future. *)
Definition frames_inv (fs : list FrameInfo) (hits : Z) : Prop :=
  Forall frame_ok fs ∧ unique_pages fs ∧ Forall (λ f, recentHit f ≤ hits) fs.

(** What holds of the frames and counters of every pool in use. *)
Definition pool_inv (b : BM_BufferPool) (p : BufferPoolInfo) : Prop :=
  bufferSize p = numPages b ∧ 0 < numPages b ∧
  frames_inv (frames p) (recentHitCount p) ∧
  0 ≤ recentHitCount p ∧ 0 ≤ readCount p ∧ 0 ≤ writeCount p.

(** The pool was set up for at least one frame, and while it has its frames
    they satisfy [pool_inv]. *)
Definition pool_good (b : BM_BufferPool) : Prop :=
  0 < numPages b ∧ ∀ p, mgmtData b = Some p → pool_inv b p.

(** Frame [g] is what a strategy leaves in the place of [old] when it
    installs [page]. *)
Definition installed (old page g : FrameInfo) : Prop :=
  pageNumber g = pageNumber page ∧ dirtybit g = dirtybit page ∧
  accessCount g = accessCount page ∧ data g = data page ∧
  (recentHit g = recentHit old ∨ recentHit g = recentHit page).

(** From [fs] to [fs1] only reference bits of unpinned frames were
    cleared. *)
Definition chance_cleared (fs fs1 : list FrameInfo) : Prop :=
  Forall2 (λ f f1, f1 = f ∨ (accessCount f = 0 ∧ f1 = set_secondChance f false))
          fs fs1.

(** What a replacement strategy does to the frames: at most one unpinned
    frame is replaced by the new page. *)
Definition evicts (page : FrameInfo) (fs fs' : list FrameInfo) : Prop :=
  ∃ fs1, chance_cleared fs fs1 ∧
    (fs' = fs1 ∨
     ∃ v f g, fs1 !! v = Some f ∧ accessCount f = 0 ∧ installed f page g ∧
              fs' = <[v := g]> fs1).

(** What a replacement strategy does to the pool: the frames as in [evicts],
    at most one write counted, no read, no tick. *)
Definition strategy_result (page : FrameInfo) (p p' : BufferPoolInfo) : Prop :=
  evicts page (frames p) (frames p') ∧
  readCount p' = readCount p ∧ recentHitCount p' = recentHitCount p ∧
  writeCount p ≤ writeCount p' ≤ writeCount p + 1.

(** The pool with one more read and one more tick counted. *)
Definition counted_read (p : BufferPoolInfo) : BufferPoolInfo :=
  set_recentHitCount (set_readCount p (readCount p + 1)) (recentHitCount p + 1).

(** A frame record for page [pn] as [pinPage] fills it after reading the
    page: pinned once, clean, with a buffer of [PAGE_SIZE] bytes. *)
Definition fresh_frame (p : BufferPoolInfo) (pn : PageNumber) (old g : FrameInfo)
    : Prop :=
  pageNumber g = pn ∧ accessCount g = 1 ∧ dirtybit g = false ∧
  (∃ buf, data g = Some buf ∧ length buf = page_len) ∧
  (recentHit g = recentHit old ∨ recentHit g = recentHitCount p + 1).

(** The ways a call [pinPage] for page [pn] on a pool with frames can end:
    result code and pool afterwards. *)
Inductive pin_outcome (b : BM_BufferPool) (p : BufferPoolInfo) (pn : PageNumber)
    : RC → BufferPoolInfo → Prop :=
  | pin_no_file :
      pin_outcome b p pn RC_FILE_NOT_FOUND p
  | pin_hit i f f' :
      resident_at (frames p) pn i f →
      accessCount f' = accessCount f + 1 →
      pageNumber f' = pn → data f' = data f → dirtybit f' = dirtybit f →
      (recentHit f' = recentHit f ∨ recentHit f' = recentHitCount p + 1) →
      pin_outcome b p pn RC_OK
        (set_recentHitCount (set_frames p (<[i := f']> (frames p)))
                            (recentHitCount p + 1))
  | pin_load_failed i f rc :
      not_resident (frames p) pn →
      resident_at (frames p) NO_PAGE i f →
      rc = RC_ERROR ∨ rc = RC_READ_NON_EXISTING_PAGE →
      pin_outcome b p pn rc
        (set_frames p (<[i := set_data f None]> (frames p)))
  | pin_loaded i f g :
      not_resident (frames p) pn →
      resident_at (frames p) NO_PAGE i f →
      0 ≤ pn →
      fresh_frame p pn f g →
      pin_outcome b p pn RC_OK
        (counted_read (set_frames p (<[i := g]> (frames p))))
  | pin_replace_failed rc :
      not_resident (frames p) pn →
      not_resident (frames p) NO_PAGE →
      rc = RC_ERROR ∨ rc = RC_READ_NON_EXISTING_PAGE →
      pin_outcome b p pn rc p
  | pin_replaced page p' :
      not_resident (frames p) pn →
      not_resident (frames p) NO_PAGE →
      strategy b ≠ RS_OTHER →
      0 ≤ pn →
      fresh_frame p pn (mkFrame 0 false 0 false 0 0 None) page →
      strategy_result page (counted_read p) p' →
      pin_outcome b p pn RC_OK p'
  | pin_bad_strategy :
      not_resident (frames p) pn →
      not_resident (frames p) NO_PAGE →
      strategy b = RS_OTHER →
      pin_outcome b p pn RC_ERROR (counted_read p).

(** Frame [g] holds the page that the record [page] describes. *)
Definition holds (page g : FrameInfo) : Prop :=
  pageNumber g = pageNumber page ∧ accessCount g = accessCount page ∧
  dirtybit g = dirtybit page ∧ data g = data page.

(** The frame [d] places after position [c], going round the array. *)
Definition frame_after (fs : list FrameInfo) (c : Z) (d : nat) : option FrameInfo :=
  fs !! Z.to_nat ((c + Z.of_nat d) mod Z.of_nat (length fs)).

(** What a read of page [pn] delivers once a file of [T] whole pages with
    the given bytes has been grown to hold the page: the page of the file, or
    zero bytes for a page that was added. *)
Definition page_or_zeros (bytes : list byte) (T pn : Z) : list byte :=
  if pn <? T then page_of bytes pn else replicate page_len x00.

(** The bytes of the page file after a flush of the frames [fs] that meets
    no failure: the buffer of every dirty, unpinned frame has been written to
    its page, in frame order. *)
Definition written_out (bytes : list byte) (fs : list FrameInfo) : list byte :=
  foldl (λ bs f, if flushable f
                 then pwrite bs (Z.to_nat (pageNumber f * PAGE_SIZE))
                             (page_bytes (default [] (data f)))
                 else bs)
        bytes fs.

(** Two FIFO frames, both in use: page 1 pinned, page 2 unpinned. *)
Definition full_second_unpinned : Session :=
  do_unpin 2 (do_pin 2 (do_pin 1
    (do_init "pages.bin" 2 RS_FIFO (world_with "pages.bin" 1 true)))).


(** A frame record for page 7, as [pinPage] hands it to a strategy. *)
Definition page7 : FrameInfo := mkFrame 7 false 1 false 0 0 (Some hello).

(** One frame with page 0 pinned in it, in a pool whose strategy is none of
    FIFO, LRU and CLOCK, over a file of two pages. *)
Definition other_full : Session :=
  do_pin 0 (do_init "pages.bin" 1 RS_OTHER (world_with "pages.bin" 2 true)).

End Laws.

Import Laws.

(** * Properties *)

(** ** Sizes *)

Lemma PAGE_SIZE_pos : 0 < PAGE_SIZE.
Proof. reflexivity. Qed.

Lemma page_len_Z : Z.of_nat page_len = PAGE_SIZE.
Proof. reflexivity. Qed.

Lemma page_bytes_length buf : length (page_bytes buf) = page_len.
Proof.
  unfold page_bytes. rewrite length_take, length_app, length_replicate. lia.
Qed.

Lemma PAGE_SIZE_val : PAGE_SIZE = 4096.
Proof. reflexivity. Qed.

Lemma int_wrap_id z : -2147483648 ≤ z ≤ INT_MAX → int_wrap z = z.
Proof.
  unfold int_wrap, INT_MAX. intros Hz. rewrite Z.mod_small by lia. lia.
Qed.

Lemma int_wrap_range z : -2147483648 ≤ int_wrap z ≤ INT_MAX.
Proof.
  unfold int_wrap, INT_MAX.
  pose proof (Z.mod_pos_bound (z + 2147483648) 4294967296 ltac:(lia)). lia.
Qed.

(** Up to page 524287 the offset of a page is the exact product. *)
Lemma page_offset_id pn :
  0 ≤ pn → pn * PAGE_SIZE ≤ INT_MAX → page_offset pn = pn * PAGE_SIZE.
Proof.
  intros H0 Hmax. unfold page_offset. pose proof PAGE_SIZE_pos.
  rewrite int_wrap_id; [lia|]. unfold INT_MAX in *. nia.
Qed.

(** The page count [pinPage] asks for is exact for such a page. *)
Lemma int_wrap_succ pn :
  0 ≤ pn → pn * PAGE_SIZE ≤ INT_MAX → int_wrap (pn + 1) = pn + 1.
Proof.
  intros H0 Hmax. rewrite PAGE_SIZE_val in Hmax.
  apply int_wrap_id. unfold INT_MAX in *. lia.
Qed.

(** From page 524288 to page 1048575 the [int] product is negative. *)
Lemma page_offset_negative pn : 524288 ≤ pn < 1048576 → page_offset pn < 0.
Proof.
  intros Hpn. unfold page_offset, int_wrap. rewrite PAGE_SIZE_val.
  replace (4096 * pn + 2147483648) with (4096 * pn - 2147483648 + 1 * 4294967296)
    by lia.
  rewrite Z.mod_add by lia. rewrite Z.mod_small by lia. lia.
Qed.

(** The page size is a fixed number from here on, and the calls into the
    storage manager stay folded when a goal is simplified. *)
Opaque PAGE_SIZE page_len.
Arguments int_wrap : simpl never.
Arguments page_offset : simpl never.
Arguments page_bytes : simpl never.
Arguments writeBlock : simpl never.
Arguments readBlock : simpl never.
Arguments openPageFile : simpl never.
Arguments ensureCapacity : simpl never.
Arguments appendEmptyBlock : simpl never.
Arguments flushable : simpl never.
Arguments flushed : simpl never.

Lemma pages_of_size_spec n :
  0 ≤ n → n ≤ pages_of_size n * PAGE_SIZE < n + PAGE_SIZE.
Proof.
  intros Hn. pose proof PAGE_SIZE_pos as HP. unfold pages_of_size.
  rewrite Z.rem_mod_nonneg, Z.quot_div_nonneg by lia.
  pose proof (Z.div_mod n PAGE_SIZE ltac:(lia)) as Hdm.
  pose proof (Z.mod_pos_bound n PAGE_SIZE HP) as Hb.
  destruct (n `mod` PAGE_SIZE =? 0) eqn:E; nia.
Qed.

Lemma pages_of_size_nonneg n : 0 ≤ n → 0 ≤ pages_of_size n.
Proof.
  intros Hn. pose proof (pages_of_size_spec n Hn). pose proof PAGE_SIZE_pos. nia.
Qed.

Lemma pages_of_size_mul k : 0 ≤ k → pages_of_size (k * PAGE_SIZE) = k.
Proof.
  intros Hk. pose proof PAGE_SIZE_pos.
  pose proof (pages_of_size_spec (k * PAGE_SIZE) ltac:(nia)). nia.
Qed.

Lemma pwrite_length bytes pos src :
  length (pwrite bytes pos src) = (length bytes `max` (pos + length src))%nat.
Proof.
  unfold pwrite.
  rewrite !length_app, length_take, length_app, length_replicate, length_drop. lia.
Qed.

Lemma pread_pwrite bytes pos src :
  pread (pwrite bytes pos src) pos (length src) = src.
Proof.
  unfold pread, pwrite.
  rewrite drop_app_length'.
  2:{ rewrite length_take, length_app, length_replicate. lia. }
  by rewrite take_app_length.
Qed.

Lemma pwrite_at_end bytes src : pwrite bytes (length bytes) src = bytes ++ src.
Proof.
  unfold pwrite. rewrite Nat.sub_diag. simpl. rewrite app_nil_r, take_ge by lia.
  rewrite drop_ge by lia. by rewrite app_nil_r.
Qed.

Lemma malloc_ok w : allocs w = [] → malloc w = (true, w).
Proof. unfold malloc. by intros ->. Qed.

(** ** Records and searches *)

Lemma set_mgmtData_same b p : mgmtData b = Some p → set_mgmtData b (Some p) = b.
Proof. destruct b as [n k s m]. simpl. intros ->. reflexivity. Qed.

Lemma set_accessCount_same f : set_accessCount f (accessCount f) = f.
Proof. by destruct f. Qed.

Lemma set_frames_same p : set_frames p (frames p) = p.
Proof. by destruct p. Qed.

Lemma not_resident_find fs pn :
  not_resident fs pn ↔ list_find (λ f, pageNumber f = pn) fs = None.
Proof. unfold not_resident. by rewrite list_find_None. Qed.

Lemma resident_at_find fs pn i f :
  resident_at fs pn i f ↔ list_find (λ f, pageNumber f = pn) fs = Some (i, f).
Proof.
  unfold resident_at. rewrite list_find_Some. split.
  - intros (? & ? & H). split_and!; [done..|]. intros j g ? ?. by eapply H.
  - intros (? & ? & H). split_and!; [done..|]. intros j g ? ?. by eapply H.
Qed.

Lemma find_cases fs pn :
  not_resident fs pn ∨ ∃ i f, resident_at fs pn i f.
Proof.
  destruct (list_find (λ f, pageNumber f = pn) fs) as [[i f]|] eqn:E.
  - right. exists i, f. by apply resident_at_find.
  - left. by apply not_resident_find.
Qed.

Lemma frame_at_Some fs idx f :
  frame_at fs idx = Some f → 0 ≤ idx ∧ fs !! Z.to_nat idx = Some f.
Proof.
  unfold frame_at. destruct (idx <? 0) eqn:E; [done|]. intros H. split; [lia|done].
Qed.

(** ** Sessions *)

Lemma session_ok_init name n st w :
  (do_init name n st w).2 = [RC_OK] → session_ok (do_init name n st w).
Proof.
  unfold do_init, session_ok.
  destruct (initBufferPool w (Some blank_pool) (Some name) n st) as [[rc w'] bm] eqn:E.
  simpl. intros [= ->] b ->. by eapply reach_init.
Qed.

Lemma session_ok_pin pn s : session_ok s → session_ok (do_pin pn s).
Proof.
  destruct s as [[w bm] codes]. unfold do_pin, session_ok. simpl.
  destruct (pinPage w bm (Some blank_page) pn) as [[[rc w'] bm'] pg'] eqn:E.
  simpl. intros H b ->. destruct bm as [b0|]; [|done].
  eapply reach_pinPage; [by apply H|exact E].
Qed.

Lemma session_ok_unpin pn s : session_ok s → session_ok (do_unpin pn s).
Proof.
  destruct s as [[w bm] codes]. unfold do_unpin, session_ok. simpl.
  destruct (unpinPage w bm _) as [[rc w'] bm'] eqn:E.
  simpl. intros H b ->. destruct bm as [b0|]; [|done].
  eapply reach_unpinPage; [by apply H|exact E].
Qed.

Lemma session_ok_markDirty pn s : session_ok s → session_ok (do_markDirty pn s).
Proof.
  destruct s as [[w bm] codes]. unfold do_markDirty, session_ok. simpl.
  destruct (markDirty w bm _) as [[rc w'] bm'] eqn:E.
  simpl. intros H b ->. destruct bm as [b0|]; [|done].
  eapply reach_markDirty; [by apply H|exact E].
Qed.

Lemma session_ok_write i bytes s : session_ok s → session_ok (do_write i bytes s).
Proof.
  destruct s as [[w bm] codes]. unfold do_write, session_ok. simpl.
  intros H b Hb. destruct bm as [b0|]; [|done]. injection Hb as <-.
  apply reach_client_write. by apply H.
Qed.

(** ** The storage manager *)

Lemma openPageFile_cases w name fh0 :
  (∃ f, files w name = Some f ∧
        openPageFile w name fh0 = (RC_OK, mkHandle name (pages_of_size (file_size f)) 0))
  ∨ (files w name = None ∧ openPageFile w name fh0 = (RC_FILE_NOT_FOUND, fh0)).
Proof.
  unfold openPageFile, fopen_r. destruct (files w name) as [f|]; eauto.
Qed.

Lemma openPageFile_synced w name fh0 fh :
  openPageFile w name fh0 = (RC_OK, fh) → synced w fh ∧ fileName fh = name.
Proof.
  unfold openPageFile, fopen_r. destruct (files w name) as [f|] eqn:Hf; [|done].
  intros [= <-]. split; [|done]. exists f. done.
Qed.

(** Either the write is done, or nothing has changed. *)
Lemma writeBlock_cases w pn fh d :
  (∃ buf file,
     d = Some buf ∧ (0 ≤ pn ≤ totalNumPages fh ∧ 0 ≤ page_offset pn) ∧
     files w (fileName fh) = Some file ∧ writable file = true ∧
     writeBlock w pn (Some fh) d
       = (RC_OK,
          fwrite w (fileName fh) file (Z.to_nat (page_offset pn)) (page_bytes buf),
          Some (mkHandle (fileName fh)
                  (pages_of_size
                     (Z.of_nat (length (pwrite (contents file)
                                               (Z.to_nat (page_offset pn))
                                               (page_bytes buf)))))
                  pn)))
  ∨ (∃ rc, rc ≠ RC_OK ∧ writeBlock w pn (Some fh) d = (rc, w, Some fh) ∧
       (d = None ∨ pn < 0 ∨ totalNumPages fh < pn ∨
        fopen_rw w (fileName fh) = None ∨ page_offset pn < 0)).
Proof.
  unfold writeBlock. destruct d as [buf|]; [|right; eexists; split_and!; eauto; done].
  destruct ((pn <? 0) || (pn >? totalNumPages fh)) eqn:E.
  { right. eexists. split_and!; [|reflexivity|]; [done|].
    apply orb_true_iff in E. lia. }
  apply orb_false_iff in E.
  destruct (fopen_rw w (fileName fh)) as [file|] eqn:Hf.
  2:{ right. eexists. split_and!; eauto; done. }
  unfold fopen_rw in Hf.
  destruct (files w (fileName fh)) as [file'|] eqn:Hf'; [|done].
  destruct (writable file') eqn:Hw; [|done]. injection Hf as <-.
  unfold fseek_set. destruct (0 <=? page_offset pn) eqn:Eo; simpl negb; cbv iota.
  - left. exists buf, file'. split_and!; try done; lia.
  - right. eexists. split_and!; [|reflexivity|]; [done|]. do 4 right. lia.
Qed.

Lemma writeBlock_ok_synced w pn fh d w' fh' :
  writeBlock w pn (Some fh) d = (RC_OK, w', fh') →
  ∃ fh1, fh' = Some fh1 ∧ synced w' fh1 ∧ fileName fh1 = fileName fh ∧
         allocs w' = allocs w ∧
         trace w' = trace w ++ [FWrite (fileName fh) (Z.to_nat (page_offset pn))
                                       (page_bytes (default [] d))].
Proof.
  intros H.
  destruct (writeBlock_cases w pn fh d) as
    [(buf & file & -> & Hpn & Hf & Hw & E) | (rc & Hrc & E & _)];
    rewrite E in H; [|congruence].
  injection H as <- <-. eexists. split; [reflexivity|].
  split_and!; try done.
  eexists. simpl. rewrite bool_decide_eq_true_2 by done. split; [reflexivity|].
  done.
Qed.

Lemma writeBlock_fail_same w pn fh d rc w' fh' :
  writeBlock w pn (Some fh) d = (rc, w', fh') → rc ≠ RC_OK → w' = w.
Proof.
  intros H Hrc.
  destruct (writeBlock_cases w pn fh d) as
    [(buf & file & -> & Hpn & Hf & Hw & E) | (rc' & _ & E & _)];
    rewrite E in H; congruence.
Qed.

(** Whether a write succeeds depends on the handle only through the file
    name and the page count. *)
Lemma writeBlock_fail_handle w pn fh1 fh2 d rc w' fh' :
  writeBlock w pn (Some fh1) d = (rc, w', fh') → rc ≠ RC_OK →
  fileName fh2 = fileName fh1 → totalNumPages fh2 = totalNumPages fh1 →
  ∃ rc2, rc2 ≠ RC_OK ∧ writeBlock w pn (Some fh2) d = (rc2, w, Some fh2).
Proof.
  intros H Hrc Hn Ht.
  destruct (writeBlock_cases w pn fh1 d) as
    [(buf & file & -> & Hpn & Hf & Hw & E) | (rc' & _ & E & Hwhy)];
    rewrite E in H; [congruence|].
  destruct (writeBlock_cases w pn fh2 d) as
    [(buf & file & -> & Hpn & Hf & Hw & E2) | (rc2 & ? & E2 & _)].
  - exfalso. rewrite Hn in Hf. rewrite Ht in Hpn. unfold fopen_rw in Hwhy.
    rewrite Hf, Hw in Hwhy. destruct Hwhy as [?|[?|[?|[?|?]]]]; try done; lia.
  - eauto.
Qed.

Lemma synced_same_total w fh1 fh2 :
  synced w fh1 → synced w fh2 → fileName fh2 = fileName fh1 →
  totalNumPages fh2 = totalNumPages fh1.
Proof.
  intros (f1 & Hf1 & ->) (f2 & Hf2 & ->) Hn. rewrite Hn in Hf2. congruence.
Qed.

Lemma appendEmptyBlock_good w fh T :
  good_file w (fileName fh) T →
  ∃ w', appendEmptyBlock w (Some fh)
          = (RC_OK, w', Some (set_totalNumPages fh (totalNumPages fh + 1))) ∧
        good_file w' (fileName fh) (T + 1).
Proof.
  intros (f & Hf & Hw & Hsz & Ha). unfold appendEmptyBlock, fopen_a, malloc.
  rewrite Hf, Hw, Ha. simpl. eexists. split; [reflexivity|].
  eexists. simpl. rewrite bool_decide_eq_true_2 by done.
  split_and!; [reflexivity|done| |done].
  unfold file_size in *. simpl. rewrite pwrite_at_end, length_app, length_replicate.
  pose proof page_len_Z. lia.
Qed.

Lemma ensureCapacity_loop_good n : ∀ w fh T k,
  good_file w (fileName fh) T → totalNumPages fh = T →
  Z.of_nat n = Z.max 0 (k - T) →
  ∃ w' fh',
    ensureCapacity_loop n w k fh = (RC_OK, w', Some fh') ∧
    fileName fh' = fileName fh ∧
    totalNumPages fh' = Z.max T k ∧
    good_file w' (fileName fh) (Z.max T k).
Proof.
  induction n as [|n IH]; intros w fh T k Hg Ht Hn; simpl.
  - exists w, fh. replace (Z.max T k) with T by lia. done.
  - replace (totalNumPages fh <? k) with true by lia.
    destruct (appendEmptyBlock_good _ _ _ Hg) as (w1 & E & Hg1). rewrite E.
    destruct (IH w1 (set_totalNumPages fh (totalNumPages fh + 1)) (T + 1) k)
      as (w' & fh' & E' & Hn' & Ht' & Hg'); [done|simpl; lia|lia|].
    exists w', fh'. rewrite E'. simpl in *.
    replace (Z.max T k) with (Z.max (T + 1) k) by lia. done.
Qed.

Lemma ensureCapacity_good w fh T k :
  good_file w (fileName fh) T → totalNumPages fh = T →
  ∃ rc w' fh',
    ensureCapacity w k (Some fh) = (rc, w', Some fh') ∧
    fileName fh' = fileName fh ∧
    totalNumPages fh' = Z.max T k ∧
    good_file w' (fileName fh) (Z.max T k).
Proof.
  intros Hg Ht. unfold ensureCapacity, fopen_r.
  destruct Hg as (f & Hf & Hrest). rewrite Hf.
  destruct (totalNumPages fh >=? k) eqn:E.
  - exists RC_OK, w, fh. replace (Z.max T k) with T by lia.
    split_and!; [done..|]. by exists f.
  - destruct (ensureCapacity_loop_good (Z.to_nat (k - totalNumPages fh)) w fh T k)
      as (w' & fh' & E' & ?); [by exists f|done|lia|].
    exists RC_OK, w', fh'. done.
Qed.

Lemma readBlock_good w fh T pn buf :
  good_file w (fileName fh) T → totalNumPages fh = T → 0 ≤ pn < T →
  pn * PAGE_SIZE ≤ INT_MAX →
  ∃ fh' buf', readBlock w pn (Some fh) (Some buf) = (RC_OK, fh', buf').
Proof.
  intros (f & Hf & _ & Hsz & _) Ht Hpn Hmax. unfold readBlock, fopen_r.
  replace ((pn <? 0) || (pn >=? totalNumPages fh)) with false
    by (symmetry; apply orb_false_iff; lia).
  rewrite Hf. pose proof PAGE_SIZE_pos.
  rewrite page_offset_id by lia.
  replace (fseek_set (pn * PAGE_SIZE)) with true by (unfold fseek_set; nia).
  simpl negb. cbv iota.
  replace (Z.of_nat (length (pread (contents f) (Z.to_nat (pn * PAGE_SIZE)) page_len))
           <? PAGE_SIZE) with false; [eauto|].
  symmetry. apply Z.ltb_ge. unfold pread. rewrite length_take, length_drop.
  unfold file_size in Hsz. pose proof page_len_Z. nia.
Qed.

(** For a handle that describes a writable file of [T] pages, [readBlock]
    answers [RC_READ_NON_EXISTING_PAGE] for every page number below 0 or from
    [T] on, while [writeBlock] takes page number [T] as long as an [int]
    holds its offset: the file grows to [T + 1] pages, the handle says so, and
    the new page holds the buffer. *)
Lemma writeBlock_readBlock_asymmetry w fh :
  (∀ (n : Z) (mem : list byte), n < 0 ∨ totalNumPages fh ≤ n →
     readBlock w n (Some fh) (Some mem)
       = (RC_READ_NON_EXISTING_PAGE, Some fh, Some mem)) ∧
  (∀ file (buf : list byte),
     files w (fileName fh) = Some file →
     writable file = true →
     totalNumPages fh = pages_of_size (file_size file) →
     totalNumPages fh * PAGE_SIZE ≤ INT_MAX →
     ∃ w' fh' file',
       writeBlock w (totalNumPages fh) (Some fh) (Some buf) = (RC_OK, w', Some fh') ∧
       files w' (fileName fh) = Some file' ∧
       file_size file < file_size file' ∧
       file_size file' = (totalNumPages fh + 1) * PAGE_SIZE ∧
       totalNumPages fh' = totalNumPages fh + 1 ∧
       pread (contents file') (Z.to_nat (totalNumPages fh * PAGE_SIZE)) page_len
         = page_bytes buf).
Proof.
  split.
  - intros n mem Hn. unfold readBlock.
    destruct ((n <? 0) || (n >=? totalNumPages fh)) eqn:E; [done|].
    apply orb_false_iff in E. lia.
  - intros file buf Hf Hw Hs Hmax.
    pose proof PAGE_SIZE_pos as HP.
    assert (0 ≤ file_size file) as Hsz by (unfold file_size; lia).
    pose proof (pages_of_size_spec _ Hsz) as Hb. rewrite <- Hs in Hb.
    pose proof (pages_of_size_nonneg _ Hsz) as Hnn. rewrite <- Hs in Hnn.
    set (T := totalNumPages fh) in *.
    unfold writeBlock, fopen_rw. fold T. rewrite Hf, Hw.
    replace ((T <? 0) || (T >? T)) with false by (symmetry; apply orb_false_iff; lia).
    rewrite page_offset_id by lia.
    replace (fseek_set (T * PAGE_SIZE)) with true by (unfold fseek_set; lia).
    simpl negb. cbv iota.
    eexists _, _, _. split; [reflexivity|].
    assert (Hlen : Z.of_nat (length (pwrite (contents file) (Z.to_nat (T * PAGE_SIZE))
                                    (page_bytes buf))) = (T + 1) * PAGE_SIZE).
    { rewrite pwrite_length, page_bytes_length. unfold file_size in *.
      pose proof page_len_Z. lia. }
    split_and!.
    + simpl. by rewrite bool_decide_eq_true_2.
    + unfold file_size at 2. simpl. rewrite Hlen. lia.
    + unfold file_size. simpl. exact Hlen.
    + simpl. rewrite Hlen. apply pages_of_size_mul. lia.
    + cbn [contents]. etrans; [|apply (pread_pwrite (contents file))].
      by rewrite page_bytes_length.
Qed.

(** The same at a file of two pages. *)
Lemma writeBlock_readBlock_asymmetry_witness :
  readBlock (world_with "pages.bin" 2 true) 2
            (Some (mkHandle "pages.bin" 2 0)) (Some hello)
    = (RC_READ_NON_EXISTING_PAGE, Some (mkHandle "pages.bin" 2 0), Some hello) ∧
  ∃ w' fh',
    writeBlock (world_with "pages.bin" 2 true) 2
               (Some (mkHandle "pages.bin" 2 0)) (Some hello)
      = (RC_OK, w', Some fh') ∧
    totalNumPages fh' = 3.
Proof.
  destruct (writeBlock_readBlock_asymmetry (world_with "pages.bin" 2 true)
              (mkHandle "pages.bin" 2 0)) as [Hread Hwrite].
  split.
  - apply Hread. right. simpl. lia.
  - destruct (Hwrite (zero_file 2 true) hello)
      as (w' & fh' & file' & E & _ & _ & _ & Ht & _).
    + vm_compute. reflexivity.
    + reflexivity.
    + vm_compute. reflexivity.
    + vm_compute. discriminate.
    + exists w', fh'. split; [exact E|exact Ht].
Defined.

(** From page 524288 on the offset of a page leaves the range of [int]; up
    to page 1048575 it comes out negative and [fseek] refuses it. *)
Lemma writeBlock_offset_overflow w fh pn buf f :
  0 ≤ pn ≤ totalNumPages fh → fopen_rw w (fileName fh) = Some f →
  page_offset pn < 0 →
  writeBlock w pn (Some fh) (Some buf) = (RC_WRITE_FAILED, w, Some fh).
Proof.
  intros Hpn Hf Hneg. unfold writeBlock.
  replace ((pn <? 0) || (pn >? totalNumPages fh)) with false
    by (symmetry; apply orb_false_iff; lia).
  rewrite Hf. unfold fseek_set.
  by replace (0 <=? page_offset pn) with false by lia.
Qed.

Lemma readBlock_offset_overflow w fh pn mem f :
  0 ≤ pn < totalNumPages fh → files w (fileName fh) = Some f →
  page_offset pn < 0 →
  readBlock w pn (Some fh) (Some mem)
    = (RC_READ_NON_EXISTING_PAGE, Some fh, Some mem).
Proof.
  intros Hpn Hf Hneg. unfold readBlock, fopen_r.
  replace ((pn <? 0) || (pn >=? totalNumPages fh)) with false
    by (symmetry; apply orb_false_iff; lia).
  rewrite Hf. unfold fseek_set.
  by replace (0 <=? page_offset pn) with false by lia.
Qed.

(** From page 1048576 on the product has come round to the offset of
    another page: page 1048576 is written over page 0, and read from it. *)
Lemma page_offset_wraps : page_offset 1048576 = 0.
Proof. vm_compute. reflexivity. Qed.

Lemma writeBlock_offset_wraps w fh file buf :
  1048576 ≤ totalNumPages fh →
  files w (fileName fh) = Some file → writable file = true →
  writeBlock w 1048576 (Some fh) (Some buf)
    = (RC_OK, fwrite w (fileName fh) file 0 (page_bytes buf),
       Some (mkHandle (fileName fh)
               (pages_of_size
                  (Z.of_nat (length (pwrite (contents file) 0 (page_bytes buf)))))
               1048576)).
Proof.
  intros Ht Hf Hw.
  destruct (writeBlock_cases w 1048576 fh (Some buf))
    as [(buf' & file' & [= <-] & _ & Hf' & _ & E) | (rc & _ & _ & Hwhy)].
  - rewrite page_offset_wraps in E. change (Z.to_nat 0) with 0%nat in E.
    assert (file' = file) as -> by congruence. exact E.
  - exfalso. unfold fopen_rw in Hwhy. rewrite Hf, Hw, page_offset_wraps in Hwhy.
    destruct Hwhy as [?|[?|[?|[?|?]]]]; try done; lia.
Qed.

Lemma readBlock_offset_wraps w fh file mem :
  1048576 < totalNumPages fh →
  files w (fileName fh) = Some file → PAGE_SIZE ≤ file_size file →
  readBlock w 1048576 (Some fh) (Some mem)
    = (RC_OK, Some (set_curPagePos fh 1048576),
       Some (pread (contents file) 0 page_len)).
Proof.
  intros Ht Hf Hsz. unfold readBlock, fopen_r.
  replace ((1048576 <? 0) || (1048576 >=? totalNumPages fh)) with false
    by (symmetry; apply orb_false_iff; lia).
  rewrite Hf, page_offset_wraps. change (fseek_set 0) with true.
  simpl negb. cbv iota. change (Z.to_nat 0) with 0%nat.
  assert (Hl : length (pread (contents file) 0 page_len) = page_len).
  { unfold pread. rewrite drop_0, length_take. unfold file_size in Hsz.
    pose proof page_len_Z. lia. }
  rewrite Hl, page_len_Z, Z.ltb_irrefl.
  rewrite drop_ge by (rewrite page_bytes_length; lia). by rewrite app_nil_r.
Qed.

Lemma file_size_zero_file n c :
  file_size (zero_file n c) = Z.of_nat n * PAGE_SIZE.
Proof.
  unfold file_size, zero_file. cbn [contents].
  rewrite length_replicate, Nat2Z.inj_mul, page_len_Z. reflexivity.
Qed.

Lemma files_world_with name n c :
  files (world_with name n c) name = Some (zero_file n c).
Proof.
  unfold world_with, zero_file. cbn [files]. by rewrite bool_decide_eq_true_2.
Qed.

Lemma openPageFile_world_with name n c fh0 :
  openPageFile (world_with name n c) name fh0
    = (RC_OK, mkHandle name (Z.of_nat n) 0).
Proof.
  unfold openPageFile, fopen_r. rewrite files_world_with, file_size_zero_file.
  rewrite pages_of_size_mul by lia. reflexivity.
Qed.

(** C8, the code at a failing input: a writable file of 524288 pages (2 GiB).
    [openPageFile] reports 524288 pages; [writeBlock] for page 524288, one
    past the end, passes the range check, but the offset [524288 * PAGE_SIZE]
    does not fit an [int]: the seek fails, [writeBlock] returns
    [RC_WRITE_FAILED], and file and handle are as before. *)
Theorem writeBlock_one_past_end_fails_at_2GiB :
  openPageFile (world_with "pages.bin" (Z.to_nat 524288) true) "pages.bin"
               blank_handle
    = (RC_OK, mkHandle "pages.bin" 524288 0) ∧
  writeBlock (world_with "pages.bin" (Z.to_nat 524288) true) 524288
             (Some (mkHandle "pages.bin" 524288 0)) (Some hello)
    = (RC_WRITE_FAILED, world_with "pages.bin" (Z.to_nat 524288) true,
       Some (mkHandle "pages.bin" 524288 0)).
Proof.
  split.
  - rewrite openPageFile_world_with. rewrite Z2Nat.id; [reflexivity|].
    apply Pos2Z.is_nonneg.
  - apply (writeBlock_offset_overflow _ _ _ _ (zero_file (Z.to_nat 524288) true)).
    + cbn [totalNumPages]. split; [apply Pos2Z.is_nonneg|apply Z.le_refl].
    + unfold fopen_rw. cbn [fileName]. rewrite files_world_with. reflexivity.
    + apply page_offset_negative. split; [apply Z.le_refl|reflexivity].
Qed.

(** ** unpinPage and forcePage *)

(** C4: [unpinPage] returns [RC_OK] and leaves the world as it is.  The frame
    found for the page gets its [accessCount] lowered by one when it is
    positive and keeps it otherwise, so a count that is not negative stays
    so; when the page is not resident the pool is unchanged.  Dirty flags,
    buffers, page numbers, counters and cursors are never touched. *)
Theorem unpinPage_spec w b p pg :
  mgmtData b = Some p →
  ∃ p',
    unpinPage w (Some b) (Some pg) = (RC_OK, w, Some (set_mgmtData b (Some p'))) ∧
    (∀ i f, resident_at (frames p) (pageNum pg) i f →
       frames p' =
         <[i := set_accessCount f
                  (if 0 <? accessCount f then accessCount f - 1 else accessCount f)]>
           (frames p)) ∧
    (not_resident (frames p) (pageNum pg) → p' = p) ∧
    (Forall (λ f, 0 ≤ accessCount f) (frames p) →
       Forall (λ f, 0 ≤ accessCount f) (frames p')) ∧
    map dirtybit (frames p') = map dirtybit (frames p) ∧
    map data (frames p') = map data (frames p) ∧
    map pageNumber (frames p') = map pageNumber (frames p) ∧
    readCount p' = readCount p ∧ writeCount p' = writeCount p ∧
    recentHitCount p' = recentHitCount p ∧
    frameIndex p' = frameIndex p ∧ clockPointer p' = clockPointer p.
Proof.
  intros Hp. unfold unpinPage. rewrite Hp.
  destruct (list_find _ (frames p)) as [[i f]|] eqn:E.
  - pose proof E as Hr. apply resident_at_find in Hr. destruct Hr as (Hi & Hpn & Hmin).
    assert (Huniq : ∀ j g, resident_at (frames p) (pageNum pg) j g → j = i ∧ g = f).
    { intros j g Hj. apply resident_at_find in Hj. rewrite E in Hj. by injection Hj as <- <-. }
    destruct (accessCount f >? 0) eqn:Hc.
    + eexists. split; [reflexivity|]. simpl.
      assert ((0 <? accessCount f) = true) as Hc' by lia.
      split_and!; try done.
      * intros j g Hj. destruct (Huniq _ _ Hj) as [-> ->]. by rewrite Hc'.
      * intros Hn. apply not_resident_find in Hn. congruence.
      * intros Hall. apply Forall_insert; [done|]. simpl.
        rewrite Forall_lookup in Hall. specialize (Hall _ _ Hi). simpl in Hall. lia.
      * rewrite list_fmap_insert. simpl. by rewrite list_insert_id by (by rewrite list_lookup_fmap, Hi).
      * rewrite list_fmap_insert. simpl. by rewrite list_insert_id by (by rewrite list_lookup_fmap, Hi).
      * rewrite list_fmap_insert. simpl. by rewrite list_insert_id by (by rewrite list_lookup_fmap, Hi).
    + exists p. rewrite (set_mgmtData_same _ _ Hp). split; [done|].
      assert ((0 <? accessCount f) = false) as Hc' by lia.
      split_and!; try done.
      intros j g Hj. destruct (Huniq _ _ Hj) as [-> ->]. rewrite Hc'.
      rewrite set_accessCount_same. by rewrite list_insert_id.
  - exists p. rewrite (set_mgmtData_same _ _ Hp). split; [done|].
    split_and!; try done.
    intros i f Hr. apply resident_at_find in Hr. congruence.
Qed.

(** C4 at a pool with page 0 pinned once. *)
Lemma unpinPage_spec_witness :
  ∃ p',
    unpinPage one_pinned.1.1 (Some (pool_of one_pinned)) (Some (mkPage 0 None))
      = (RC_OK, one_pinned.1.1, Some (set_mgmtData (pool_of one_pinned) (Some p'))).
Proof.
  destruct (unpinPage_spec one_pinned.1.1 (pool_of one_pinned) (info_of one_pinned)
              (mkPage 0 None)) as (p' & E & _).
  - vm_compute. reflexivity.
  - exists p'. exact E.
Defined.

(** C9: [forcePage] for a page that is in no frame, the page file being there,
    returns [RC_OK] and changes neither the world nor the pool. *)
Theorem forcePage_not_resident w b p pg file :
  mgmtData b = Some p →
  files w (pageFile b) = Some file →
  not_resident (frames p) (pageNum pg) →
  forcePage w (Some b) (Some pg) = (RC_OK, w, Some b).
Proof.
  intros Hp Hf Hn. apply not_resident_find in Hn.
  unfold forcePage, openPageFile, fopen_r. by rewrite Hp, Hf, Hn.
Qed.

(** C9 at a pool that holds page 0 only. *)
Lemma forcePage_not_resident_witness :
  forcePage one_pinned.1.1 (Some (pool_of one_pinned)) (Some (mkPage 7 None))
    = (RC_OK, one_pinned.1.1, Some (pool_of one_pinned)).
Proof.
  apply (forcePage_not_resident one_pinned.1.1 (pool_of one_pinned)
           (info_of one_pinned) (mkPage 7 None) (zero_file 1 true)).
  - vm_compute. reflexivity.
  - vm_compute. reflexivity.
  - vm_compute. repeat constructor; discriminate.
Defined.

(** ** forceFlushPool *)

Lemma flushed_true f : flushable f = true → flushed f = set_dirtybit f false.
Proof. unfold flushed. by intros ->. Qed.

Lemma flushed_false f : flushable f = false → flushed f = f.
Proof. unfold flushed. by intros ->. Qed.

Lemma flushed_not_flushable f : flushable (flushed f) = false.
Proof.
  unfold flushed. destruct (flushable f) eqn:E; [|done].
  unfold flushable. simpl. done.
Qed.



Lemma flush_frames_cons w fh f rest n :
  flush_frames w fh (f :: rest) n =
    if flushable f then
      match writeBlock w (pageNumber f) fh (data f) with
      | (RC_OK, w', fh') =>
          let '(rc, w'', rest', writes') := flush_frames w' fh' rest (n + 1) in
          (rc, w'', set_dirtybit f false :: rest', writes')
      | (_, w', _) => (RC_WRITE_FAILED, w', f :: rest, n)
      end
    else
      let '(rc, w'', rest', writes') := flush_frames w fh rest n in
      (rc, w'', f :: rest', writes').
Proof. reflexivity. Qed.

Lemma flush_frames_length fs : ∀ w fh n rc w' fs' n',
  flush_frames w fh fs n = (rc, w', fs', n') → length fs' = length fs.
Proof.
  induction fs as [|f rest IH]; intros w fh n rc w' fs' n' H.
  - simpl in H. by injection H as <- <- <- <-.
  - rewrite flush_frames_cons in H. destruct (flushable f).
    + destruct (writeBlock w (pageNumber f) fh (data f)) as [[rc1 w1] fh1].
      destruct (decide (rc1 = RC_OK)) as [->|Hrc].
      * destruct (flush_frames w1 fh1 rest (n + 1)) as [[[rc' w''] rest'] k] eqn:Er.
        injection H as <- <- <- <-. simpl. f_equal. by eapply IH.
      * assert (H' : (RC_WRITE_FAILED, w1, f :: rest, n) = (rc, w', fs', n'))
          by (destruct rc1; done).
        by injection H' as <- <- <- <-.
    + destruct (flush_frames w fh rest n) as [[[rc' w''] rest'] k] eqn:Er.
      injection H as <- <- <- <-. simpl. f_equal. by eapply IH.
Qed.



Lemma flush_frames_synced fs : ∀ w fh n rc w' fs' n',
  synced w fh →
  flush_frames w (Some fh) fs n = (rc, w', fs', n') →
  ∃ fh', synced w' fh' ∧ fileName fh' = fileName fh.
Proof.
  induction fs as [|f rest IH]; intros w fh n rc w' fs' n' Hs H.
  - simpl in H. injection H as <- <- <- <-. eauto.
  - simpl in H. destruct (dirtybit f && (accessCount f =? 0)) eqn:Ef.
    + destruct (writeBlock w (pageNumber f) (Some fh) (data f)) as [[rc1 w1] fh1] eqn:Ew.
      destruct (decide (rc1 = RC_OK)) as [->|Hrc].
      * destruct (writeBlock_ok_synced _ _ _ _ _ _ Ew) as (fh1' & -> & Hs1 & Hn1 & _).
        cbv iota beta in H.
        destruct (flush_frames w1 (Some fh1') rest (n + 1)) as [[[rc' w''] rest'] k] eqn:Er.
        injection H as <- <- <- <-.
        destruct (IH _ _ _ _ _ _ _ Hs1 Er) as (fh' & ? & ?). exists fh'. split; congruence.
      * assert (w1 = w) as -> by (by eapply writeBlock_fail_same).
        assert (H' : (RC_WRITE_FAILED, w, f :: rest, n) = (rc, w', fs', n'))
          by (destruct rc1; done).
        injection H' as <- <- <- <-. eauto.
    + destruct (flush_frames w (Some fh) rest n) as [[[rc' w''] rest'] k] eqn:Er.
      injection H as <- <- <- <-. eauto.
Qed.

Lemma flush_frames_again fs : ∀ w fh n rc w' fs' n',
  synced w fh →
  flush_frames w (Some fh) fs n = (rc, w', fs', n') →
  ∀ fh2 m, synced w' fh2 → fileName fh2 = fileName fh →
    flush_frames w' (Some fh2) fs' m = (rc, w', fs', m).
Proof.
  induction fs as [|f rest IH]; intros w fh n rc w' fs' n' Hs H fh2 m Hs2 Hn.
  - simpl in H. injection H as <- <- <- <-. done.
  - simpl in H. destruct (dirtybit f && (accessCount f =? 0)) eqn:Ef.
    + destruct (writeBlock w (pageNumber f) (Some fh) (data f)) as [[rc1 w1] fh1] eqn:Ew.
      destruct (decide (rc1 = RC_OK)) as [->|Hrc].
      * destruct (writeBlock_ok_synced _ _ _ _ _ _ Ew) as (fh1' & -> & Hs1 & Hn1 & _).
        cbv iota beta in H.
        destruct (flush_frames w1 (Some fh1') rest (n + 1)) as [[[rc' w''] rest'] k] eqn:Er.
        injection H as <- <- <- <-.
        simpl.
        rewrite (IH _ _ _ _ _ _ _ Hs1 Er fh2 m Hs2) by congruence. done.
      * assert (w1 = w) as -> by (by eapply writeBlock_fail_same).
        assert (H' : (RC_WRITE_FAILED, w, f :: rest, n) = (rc, w', fs', n'))
          by (destruct rc1; done).
        injection H' as <- <- <- <-.
        destruct (writeBlock_fail_handle _ _ _ fh2 _ _ _ _ Ew Hrc Hn
                    (synced_same_total _ _ _ Hs Hs2 Hn)) as (rc2 & Hrc2 & E2).
        simpl. rewrite Ef, E2. by destruct rc2.
    + destruct (flush_frames w (Some fh) rest n) as [[[rc' w''] rest'] k] eqn:Er.
      injection H as <- <- <- <-. simpl. rewrite Ef.
      by rewrite (IH _ _ _ _ _ _ _ Hs Er fh2 m Hs2 Hn).
Qed.



(** Scenario 5 of the spec: the flush writes the unpinned dirty page and
    skips the pinned one. *)
Example scenario_flush_skips_pinned :
  let s := two_dirty_one_pinned in
  let r := forceFlushPool s.1.1 s.1.2 in
  r.1.1 = RC_OK ∧
  getDirtyFlags r.2 = Some [false; true] ∧
  getFixCounts r.2 = Some [0; 1] ∧
  getNumWriteIO r.2 = 1 ∧
  trace r.1.2 = trace s.1.1 ++ [frame_write "pages.bin" (frame_of s 0)].
Proof. vm_compute. repeat split. Qed.

(** A flush that fails half way: frame 0 holds the dirty page 0, the empty
    frame 1 was marked dirty through a handle for [NO_PAGE].  The first write
    is done and frame 0 is clean, the second write fails. *)
Example scenario_flush_stops_at_failure :
  let s := do_markDirty NO_PAGE (do_unpin 0 (do_markDirty 0 (do_pin 0
             (do_init "pages.bin" 2 RS_FIFO (world_with "pages.bin" 1 true))))) in
  let r := forceFlushPool s.1.1 s.1.2 in
  s.2 = replicate 5 RC_OK ∧
  getDirtyFlags s.1.2 = Some [true; true] ∧
  r.1.1 = RC_WRITE_FAILED ∧
  getDirtyFlags r.2 = Some [false; true] ∧
  getNumWriteIO r.2 = 1 ∧
  trace r.1.2 = trace s.1.1 ++ [frame_write "pages.bin" (frame_of s 0)].
Proof. vm_compute. repeat split. Qed.

(** C6: a second [forceFlushPool] right after the first gives the same result
    code and changes neither the world (no write is added to the trace) nor
    the pool ([writeCount] included). *)
Theorem forceFlushPool_twice w bm :
  let '(rc1, w1, bm1) := forceFlushPool w bm in
  let '(rc2, w2, bm2) := forceFlushPool w1 bm1 in
  rc2 = rc1 ∧ w2 = w1 ∧ bm2 = bm1 ∧
  trace w2 = trace w1 ∧ getNumWriteIO bm2 = getNumWriteIO bm1.
Proof.
  assert (Hkey : ∀ r, forceFlushPool w bm = r → forceFlushPool r.1.2 r.2 = r).
  { intros r <-. unfold forceFlushPool at 2 3 4.
    destruct bm as [b|]; [|done].
    destruct (mgmtData b) as [p|] eqn:Hp; [|simpl; unfold forceFlushPool; by rewrite Hp].
    destruct (openPageFile_cases w (pageFile b) blank_handle) as [(f & Hf & E)|[Hf E]];
      rewrite E.
    2:{ simpl. unfold forceFlushPool. by rewrite Hp, E. }
    destruct (flush_frames _ _ _ _) as [[[rc w'] fs'] n'] eqn:Ef. simpl.
    assert (Hs : synced w (mkHandle (pageFile b) (pages_of_size (file_size f)) 0))
      by (by exists f).
    destruct (flush_frames_synced _ _ _ _ _ _ _ _ Hs Ef) as (fh' & (f' & Hf' & Ht) & Hn).
    simpl in Hn. rewrite Hn in Hf'.
    unfold forceFlushPool. simpl.
    destruct (openPageFile_cases w' (pageFile b) blank_handle) as [(f2 & Hf2 & E2)|[Hf2 E2]];
      [|congruence].
    rewrite E2.
    erewrite (flush_frames_again _ _ _ _ _ _ _ _ Hs Ef); [done| |done].
    by exists f2. }
  specialize (Hkey _ eq_refl).
  destruct (forceFlushPool w bm) as [[rc1 w1] bm1]. simpl in Hkey. rewrite Hkey. done.
Qed.

(** ** pinPage: hits *)

(** C10: [pinPage] for a resident page opens the page file first.  Without the
    file it returns [RC_FILE_NOT_FOUND] and changes nothing; with the file it
    returns [RC_OK] and the world, [readCount] and [writeCount] are as
    before. *)
Theorem pinPage_hit_needs_page_file w b p pg pn i f :
  mgmtData b = Some p →
  resident_at (frames p) pn i f →
  (files w (pageFile b) = None →
     pinPage w (Some b) (Some pg) pn = (RC_FILE_NOT_FOUND, w, Some b, Some pg))
  ∧ (∀ file, files w (pageFile b) = Some file →
       ∃ p' pg',
         pinPage w (Some b) (Some pg) pn
           = (RC_OK, w, Some (set_mgmtData b (Some p')), Some pg') ∧
         readCount p' = readCount p ∧ writeCount p' = writeCount p).
Proof.
  intros Hp Hr. apply resident_at_find in Hr. split.
  - intros Hf. unfold pinPage, openPageFile, fopen_r. by rewrite Hp, Hf.
  - intros file Hf. unfold pinPage, openPageFile, fopen_r. rewrite Hp, Hf, Hr.
    destruct (pinPage_hit b p i f pn) as [p' pg'] eqn:E.
    exists p', pg'. split; [done|].
    unfold pinPage_hit in E. injection E as <- <-. done.
Qed.

(** C10 at a pool that holds page 0, in a world without files. *)
Lemma pinPage_hit_needs_page_file_witness :
  pinPage empty_world (Some (pool_of one_pinned)) (Some blank_page) 0
    = (RC_FILE_NOT_FOUND, empty_world, Some (pool_of one_pinned), Some blank_page).
Proof.
  destruct (pinPage_hit_needs_page_file empty_world (pool_of one_pinned)
              (info_of one_pinned) blank_page 0 0%nat (frame_of one_pinned 0))
    as [Hmissing _].
  - vm_compute. reflexivity.
  - split_and!.
    + vm_compute. reflexivity.
    + vm_compute. reflexivity.
    + intros j g _ Hj. lia.
  - apply Hmissing. reflexivity.
Defined.

(** ** pinPage: the replacement strategies leave pinned frames alone *)

Lemma pinned_kept_refl fs : pinned_kept fs fs.
Proof. by split. Qed.

Lemma pinned_kept_trans fs1 fs2 fs3 :
  pinned_kept fs1 fs2 → pinned_kept fs2 fs3 → pinned_kept fs1 fs3.
Proof. intros [L1 H1] [L2 H2]. split; [congruence|]. eauto. Qed.

Lemma pinned_kept_insert fs j f0 x :
  fs !! j = Some f0 → accessCount f0 = 0 → pinned_kept fs (<[j := x]> fs).
Proof.
  intros Hj H0. split; [by rewrite length_insert|].
  intros i f Hi Hc. destruct (decide (i = j)) as [->|Hne].
  - congruence.
  - by rewrite list_lookup_insert_ne.
Qed.

Lemma write_victim_frames w name p f w' p' :
  write_victim w name p f = (w', p') →
  frames p' = frames p ∧ frameIndex p' = frameIndex p ∧
  clockPointer p' = clockPointer p ∧ readCount p' = readCount p ∧
  recentHitCount p' = recentHitCount p.
Proof.
  unfold write_victim. destruct (dirtybit f); [|by intros [= <- <-]].
  destruct (openPageFile w name blank_handle) as [rc fh].
  destruct rc; try by intros [= <- <-].
  destruct (writeBlock _ _ _ _) as [[? ?] ?]. by intros [= <- <-].
Qed.

(** The write-back of a victim when all is well: the buffer goes into the
    page of the victim and the write is counted. *)
Lemma write_victim_writes w name p f file buf :
  dirtybit f = true →
  data f = Some buf →
  files w name = Some file →
  writable file = true →
  0 ≤ pageNumber f ≤ pages_of_size (file_size file) →
  pageNumber f * PAGE_SIZE ≤ INT_MAX →
  ∃ w' file',
    write_victim w name p f = (w', set_writeCount p (writeCount p + 1)) ∧
    trace w' = trace w ++ [frame_write name f] ∧
    files w' name = Some file' ∧
    pread (contents file') (Z.to_nat (pageNumber f * PAGE_SIZE)) page_len
      = page_bytes buf.
Proof.
  intros Hd Hbuf Hf Hw Hpn Hmax. unfold write_victim. rewrite Hd.
  destruct (openPageFile_cases w name blank_handle) as [(f0 & Hf0 & E)|[Hf0 E]];
    [|congruence].
  assert (f0 = file) as -> by congruence. rewrite E.
  pose proof (page_offset_id (pageNumber f) ltac:(lia) Hmax) as Ho.
  destruct (writeBlock_cases w (pageNumber f)
              (mkHandle name (pages_of_size (file_size file)) 0) (data f))
    as [(buf' & file' & Hb & _ & Hf' & _ & Ew) | (rc & Hrc & _ & Hwhy)].
  - simpl in Hf'. assert (file' = file) as -> by congruence.
    assert (buf' = buf) as -> by congruence.
    rewrite Ew. eexists _, _. split; [reflexivity|]. simpl.
    rewrite bool_decide_eq_true_2 by done. split_and!.
    + unfold frame_write. by rewrite Hbuf.
    + reflexivity.
    + cbn [contents]. rewrite Ho.
      etrans; [|apply (pread_pwrite (contents file))].
      by rewrite page_bytes_length.
  - exfalso. simpl in Hwhy. unfold fopen_rw in Hwhy. rewrite Hf, Hw, Hbuf in Hwhy.
    pose proof PAGE_SIZE_pos.
    destruct Hwhy as [?|[?|[?|[?|?]]]]; try done; nia.
Qed.

(** A clean victim is not written. *)
Lemma write_victim_clean w name p f :
  dirtybit f = false → write_victim w name p f = (w, p).
Proof. unfold write_victim. by intros ->. Qed.

Lemma FIFO_loop_pinned_kept n : ∀ w name p page w' p',
  FIFO_loop n w name p page = (w', p') → pinned_kept (frames p) (frames p').
Proof.
  induction n as [|n IH]; intros w name p page w' p' H; simpl in H.
  - injection H as <- <-. apply pinned_kept_refl.
  - destruct (frame_at (frames p) (frameIndex p)) as [f|] eqn:Ef.
    2:{ injection H as <- <-. apply pinned_kept_refl. }
    apply frame_at_Some in Ef as [Hidx Ef].
    destruct (accessCount f =? 0) eqn:Ec.
    + destruct (write_victim w name p f) as [w1 p1] eqn:Ev.
      apply write_victim_frames in Ev as (Hfr & _).
      injection H as <- <-. simpl. rewrite Hfr.
      eapply pinned_kept_insert; [done|lia].
    + apply IH in H. exact H.
Qed.

Lemma CLOCK_loop_pinned_kept n : ∀ w name p page w' p',
  CLOCK_loop n w name p page = (w', p') → pinned_kept (frames p) (frames p').
Proof.
  induction n as [|n IH]; intros w name p page w' p' H; simpl in H.
  - injection H as <- <-. apply pinned_kept_refl.
  - destruct (frame_at (frames p) (clockPointer p)) as [f|] eqn:Ef.
    2:{ injection H as <- <-. apply pinned_kept_refl. }
    apply frame_at_Some in Ef as [Hidx Ef].
    destruct (accessCount f =? 0) eqn:Ec.
    + destruct (secondChance f); simpl in H.
      * apply IH in H. simpl in H.
        eapply pinned_kept_trans; [|exact H].
        eapply pinned_kept_insert; [done|lia].
      * destruct (write_victim w name p f) as [w1 p1] eqn:Ev.
        apply write_victim_frames in Ev as (Hfr & _).
        injection H as <- <-. simpl. rewrite Hfr.
        eapply pinned_kept_insert; [done|lia].
    + apply IH in H. exact H.
Qed.

(** The index [LRU_scan] delivers is the one it started with or that of a
    frame that is not pinned. *)
Lemma LRU_scan_unpinned fs : ∀ i r l,
  0 ≤ i →
  (LRU_scan fs i r l).1 = r ∨
  (i ≤ (LRU_scan fs i r l).1 ∧
   ∃ f, fs !! Z.to_nat ((LRU_scan fs i r l).1 - i) = Some f ∧ accessCount f = 0).
Proof.
  induction fs as [|f rest IH]; intros i r l Hi; simpl; [by left|].
  destruct ((accessCount f =? 0) && (recentHit f <? l)) eqn:E.
  - apply andb_true_iff in E as [E _].
    destruct (IH (i + 1) i (recentHit f) ltac:(lia)) as [->|(Hle & g & Hg & Hc)].
    + right. split; [lia|]. exists f. rewrite Z.sub_diag. simpl. split; [done|lia].
    + right. split; [lia|]. exists g. split; [|done].
      replace (Z.to_nat ((LRU_scan rest (i + 1) i (recentHit f)).1 - i))
        with (S (Z.to_nat ((LRU_scan rest (i + 1) i (recentHit f)).1 - (i + 1)))) by lia.
      done.
  - destruct (IH (i + 1) r l ltac:(lia)) as [->|(Hle & g & Hg & Hc)]; [by left|].
    right. split; [lia|]. exists g. split; [|done].
    replace (Z.to_nat ((LRU_scan rest (i + 1) r l).1 - i))
      with (S (Z.to_nat ((LRU_scan rest (i + 1) r l).1 - (i + 1)))) by lia.
    done.
Qed.

Lemma LRU_pinned_kept w b p page w' p' :
  LRU w b p page = (w', p') → pinned_kept (frames p) (frames p').
Proof.
  unfold LRU. intros H.
  destruct (LRU_scan_unpinned (frames p) 0 (-1) (recentHitCount p + 1) ltac:(lia))
    as [E|(Hle & g & Hg & Hc)].
  - rewrite E in H. simpl in H. injection H as <- <-. apply pinned_kept_refl.
  - set (r := (LRU_scan (frames p) 0 (-1) (recentHitCount p + 1)).1) in *.
    destruct (r =? -1); [injection H as <- <-; apply pinned_kept_refl|].
    destruct (frame_at (frames p) r) as [f|] eqn:Ef.
    2:{ injection H as <- <-. apply pinned_kept_refl. }
    apply frame_at_Some in Ef as [Hidx Ef].
    rewrite Z.sub_0_r in Hg. assert (g = f) as -> by congruence.
    destruct (write_victim w (pageFile b) p f) as [w1 p1] eqn:Ev.
    apply write_victim_frames in Ev as (Hfr & _).
    injection H as <- <-. simpl. rewrite Hfr.
    eapply pinned_kept_insert; done.
Qed.

Lemma pinned_kept_page_stays fs fs' : pinned_kept fs fs' → page_stays fs fs'.
Proof. intros [_ H] i f Hi _ Hc. exists f. eauto. Qed.

Lemma pinPage_replace_pinned_kept w fh b p pg pn rc w' p' pg' :
  pinPage_replace w fh b p pg pn = (rc, w', p', pg') →
  pinned_kept (frames p) (frames p').
Proof.
  unfold pinPage_replace. intros H.
  destruct (malloc w) as [got1 w1]. destruct got1; simpl in H.
  2:{ injection H as <- <- <- <-. apply pinned_kept_refl. }
  destruct (malloc w1) as [got2 w2]. destruct got2; simpl in H.
  2:{ injection H as <- <- <- <-. apply pinned_kept_refl. }
  destruct (ensureCapacity w2 (int_wrap (pn + 1)) (Some fh)) as [[rc3 w3] fh3].
  destruct (readBlock w3 pn fh3 _) as [[rcr fhr] buf].
  destruct rcr; try (injection H as <- <- <- <-; apply pinned_kept_refl).
  destruct (strategy b).
  - destruct (FIFO _ _ _ _) as [w4 p2] eqn:E. injection H as <- <- <- <-.
    apply FIFO_loop_pinned_kept in E. exact E.
  - destruct (LRU _ _ _ _) as [w4 p2] eqn:E. injection H as <- <- <- <-.
    apply LRU_pinned_kept in E. exact E.
  - destruct (CLOCK _ _ _ _) as [w4 p2] eqn:E. injection H as <- <- <- <-.
    apply CLOCK_loop_pinned_kept in E. exact E.
  - injection H as <- <- <- <-. apply pinned_kept_refl.
Qed.

Lemma pinPage_empty_frames w fh b p i f pg pn rc w' p' pg' :
  pinPage_empty w fh b p i f pg pn = (rc, w', p', pg') →
  ∃ x, frames p' = <[i := x]> (frames p).
Proof.
  unfold pinPage_empty. intros H.
  destruct (malloc w) as [got1 w1]. destruct got1; simpl in H.
  2:{ injection H as <- <- <- <-. eauto. }
  destruct (ensureCapacity w1 (int_wrap (pn + 1)) (Some fh)) as [[rc3 w3] fh3].
  destruct (readBlock w3 pn fh3 _) as [[rcr fhr] buf].
  destruct rcr; injection H as <- <- <- <-; eauto.
Qed.

Lemma pinPage_page_stays w b p pg pn rc w' bm' pg' :
  mgmtData b = Some p →
  pinPage w (Some b) (Some pg) pn = (rc, w', bm', pg') →
  ∃ p', bm' = Some (set_mgmtData b (Some p')) ∧
        length (frames p') = length (frames p) ∧
        page_stays (frames p) (frames p').
Proof.
  intros Hp H. unfold pinPage in H. rewrite Hp in H.
  assert (Hsame : ∃ p', Some b = Some (set_mgmtData b (Some p')) ∧
                        length (frames p') = length (frames p) ∧
                        page_stays (frames p) (frames p')).
  { exists p. rewrite (set_mgmtData_same _ _ Hp). split_and!; [done..|].
    apply pinned_kept_page_stays, pinned_kept_refl. }
  destruct (openPageFile w (pageFile b) blank_handle) as [rco fh].
  destruct rco; try (injection H as <- <- <- <-; exact Hsame).
  destruct (list_find (λ f, pageNumber f = pn) (frames p)) as [[i f]|] eqn:Eh.
  - (* hit *)
    destruct (pinPage_hit b p i f pn) as [p1 pg1] eqn:E.
    injection H as <- <- <- <-. exists p1. split; [done|].
    unfold pinPage_hit in E. injection E as <- <-. simpl.
    apply list_find_Some in Eh as (Hi & _ & _).
    split; [by rewrite length_insert|].
    intros j g Hj Hn Hc. destruct (decide (j = i)) as [->|Hne].
    + assert (g = f) as -> by congruence.
      eexists. rewrite list_lookup_insert_eq by (by eapply lookup_lt_Some).
      split; [reflexivity|]. by destruct (strategy b).
    + exists g. by rewrite list_lookup_insert_ne.
  - destruct (list_find (λ f, pageNumber f = NO_PAGE) (frames p)) as [[i f]|] eqn:Ee.
    + (* empty frame *)
      destruct (pinPage_empty w fh b p i f pg pn) as [[[rc1 w1] p1] pg1] eqn:E.
      injection H as <- <- <- <-. exists p1. split; [done|].
      apply pinPage_empty_frames in E as [x Hx]. rewrite Hx.
      apply list_find_Some in Ee as (Hi & Hno & _).
      split; [by rewrite length_insert|].
      intros j g Hj Hn Hc. destruct (decide (j = i)) as [->|Hne].
      * congruence.
      * exists g. by rewrite list_lookup_insert_ne.
    + (* replacement *)
      destruct (pinPage_replace w fh b p pg pn) as [[[rc1 w1] p1] pg1] eqn:E.
      injection H as <- <- <- <-. exists p1. split; [done|].
      apply pinPage_replace_pinned_kept in E. split; [apply E|].
      by apply pinned_kept_page_stays.
Qed.

(** C2: in a reachable pool, under every strategy, a frame that held a page
    and whose page or buffer [pinPage] has replaced had [accessCount = 0]
    before the call; a pinned frame is never evicted.  (Reachability is what
    the claim asks for; the proof does not need it, the strategies test
    [accessCount] in every state.) *)
Theorem pinPage_victim_unpinned b p w pg pn rc w' b' pg' p' i f f' :
  reachable b →
  mgmtData b = Some p →
  pinPage w (Some b) (Some pg) pn = (rc, w', Some b', pg') →
  mgmtData b' = Some p' →
  frames p !! i = Some f →
  frames p' !! i = Some f' →
  pageNumber f ≠ NO_PAGE →
  pageNumber f' ≠ pageNumber f ∨ data f' ≠ data f →
  accessCount f = 0.
Proof.
  intros _ Hp H Hp' Hi Hi' Hn Hch.
  destruct (pinPage_page_stays _ _ _ _ _ _ _ _ _ Hp H) as (p1 & [= ->] & _ & Hst).
  simpl in Hp'. injection Hp' as ->.
  destruct (decide (accessCount f = 0)) as [|Hc]; [done|].
  destruct (Hst _ _ Hi Hn Hc) as (g & Hg & ? & ? & ?).
  assert (g = f') as -> by congruence. destruct Hch; congruence.
Qed.

(** C2 at a full CLOCK pool: [pinPage] for page 3 replaces page 1 in frame 0,
    which was unpinned. *)
Lemma pinPage_victim_unpinned_witness :
  accessCount (frame_of full_one_unpinned 0) = 0.
Proof.
  apply (pinPage_victim_unpinned
           (pool_of full_one_unpinned) (info_of full_one_unpinned)
           full_one_unpinned.1.1 blank_page 3
           RC_OK (do_pin 3 full_one_unpinned).1.1
           (pool_of (do_pin 3 full_one_unpinned))
           (Some (mkPage 3 (data (frame_of (do_pin 3 full_one_unpinned) 0))))
           (info_of (do_pin 3 full_one_unpinned))
           0%nat (frame_of full_one_unpinned 0)
           (frame_of (do_pin 3 full_one_unpinned) 0)).
  - assert (Hs : session_ok full_one_unpinned).
    { apply session_ok_unpin, session_ok_pin, session_ok_pin, session_ok_init.
      vm_compute. reflexivity. }
    apply Hs. vm_compute. reflexivity.
  - vm_compute. reflexivity.
  - vm_compute. reflexivity.
  - vm_compute. reflexivity.
  - vm_compute. reflexivity.
  - vm_compute. reflexivity.
  - vm_compute. discriminate.
  - left. vm_compute. discriminate.
Defined.

(** ** pinPage: the cursors stay inside the frame array *)

Lemma next_index_in_range p i :
  0 ≤ i → 0 < bufferSize p → 0 ≤ next_index p i < bufferSize p.
Proof. intros. unfold next_index. apply Z.rem_bound_pos; lia. Qed.

Lemma cursors_same_shape p p' :
  cursors_in_range p →
  length (frames p') = length (frames p) →
  frameIndex p' = frameIndex p → clockPointer p' = clockPointer p →
  cursors_in_range p'.
Proof.
  unfold cursors_in_range, bufferSize. intros H L -> ->. by rewrite L.
Qed.

Lemma FIFO_loop_cursors n : ∀ w name p page w' p',
  cursors_in_range p →
  FIFO_loop n w name p page = (w', p') → cursors_in_range p'.
Proof.
  induction n as [|n IH]; intros w name p page w' p' Hc H; simpl in H.
  - by injection H as <- <-.
  - destruct (frame_at (frames p) (frameIndex p)) as [f|] eqn:Ef.
    2:{ by injection H as <- <-. }
    destruct (accessCount f =? 0).
    + destruct (write_victim w name p f) as [w1 p1] eqn:Ev.
      apply write_victim_frames in Ev as (Hfr & Hfi & Hcp & _).
      injection H as <- <-.
      unfold cursors_in_range, next_index, bufferSize in *. simpl.
      rewrite length_insert, Hfr, Hfi, Hcp.
      split; [apply Z.rem_bound_pos; lia|lia].
    + eapply IH; [|exact H].
      unfold cursors_in_range, next_index, bufferSize in *. simpl.
      split; [apply Z.rem_bound_pos; lia|lia].
Qed.

Lemma CLOCK_loop_cursors n : ∀ w name p page w' p',
  cursors_in_range p →
  CLOCK_loop n w name p page = (w', p') → cursors_in_range p'.
Proof.
  induction n as [|n IH]; intros w name p page w' p' Hc H; simpl in H.
  - by injection H as <- <-.
  - destruct (frame_at (frames p) (clockPointer p)) as [f|] eqn:Ef.
    2:{ by injection H as <- <-. }
    destruct (accessCount f =? 0).
    + destruct (secondChance f); simpl in H.
      * eapply IH; [|exact H].
        unfold cursors_in_range, next_index, bufferSize in *. simpl.
        rewrite length_insert. split; [lia|apply Z.rem_bound_pos; lia].
      * destruct (write_victim w name p f) as [w1 p1] eqn:Ev.
        apply write_victim_frames in Ev as (Hfr & Hfi & Hcp & _).
        injection H as <- <-.
        unfold cursors_in_range, next_index, bufferSize in *. simpl.
        rewrite length_insert, Hfr, Hfi, Hcp.
        split; [lia|apply Z.rem_bound_pos; lia].
    + eapply IH; [|exact H].
      unfold cursors_in_range, next_index, bufferSize in *. simpl.
      split; [lia|apply Z.rem_bound_pos; lia].
Qed.

Lemma LRU_cursors w b p page w' p' :
  cursors_in_range p → LRU w b p page = (w', p') → cursors_in_range p'.
Proof.
  unfold LRU. intros Hc H.
  destruct (_ =? -1); [by injection H as <- <-|].
  destruct (frame_at _ _) as [f|]; [|by injection H as <- <-].
  destruct (write_victim w (pageFile b) p f) as [w1 p1] eqn:Ev.
  apply write_victim_frames in Ev as (Hfr & Hfi & Hcp & _).
  injection H as <- <-. eapply cursors_same_shape; [exact Hc|..]; simpl;
    [by rewrite length_insert, Hfr|done..].
Qed.

Lemma pinPage_replace_cursors w fh b p pg pn rc w' p' pg' :
  cursors_in_range p →
  pinPage_replace w fh b p pg pn = (rc, w', p', pg') → cursors_in_range p'.
Proof.
  unfold pinPage_replace. intros Hc H.
  destruct (malloc w) as [got1 w1]. destruct got1; simpl in H.
  2:{ by injection H as <- <- <- <-. }
  destruct (malloc w1) as [got2 w2]. destruct got2; simpl in H.
  2:{ by injection H as <- <- <- <-. }
  destruct (ensureCapacity w2 (int_wrap (pn + 1)) (Some fh)) as [[rc3 w3] fh3].
  destruct (readBlock w3 pn fh3 _) as [[rcr fhr] buf].
  destruct rcr; try (by injection H as <- <- <- <-).
  destruct (strategy b).
  - destruct (FIFO _ _ _ _) as [w4 p2] eqn:E. injection H as <- <- <- <-.
    eapply FIFO_loop_cursors; [|exact E]. exact Hc.
  - destruct (LRU _ _ _ _) as [w4 p2] eqn:E. injection H as <- <- <- <-.
    eapply LRU_cursors; [|exact E]. exact Hc.
  - destruct (CLOCK _ _ _ _) as [w4 p2] eqn:E. injection H as <- <- <- <-.
    eapply CLOCK_loop_cursors; [|exact E]. exact Hc.
  - injection H as <- <- <- <-. exact Hc.
Qed.

Lemma pinPage_empty_cursors w fh b p i f pg pn rc w' p' pg' :
  cursors_in_range p →
  pinPage_empty w fh b p i f pg pn = (rc, w', p', pg') → cursors_in_range p'.
Proof.
  unfold pinPage_empty. intros Hc H.
  destruct (malloc w) as [got1 w1]. destruct got1; simpl in H.
  2:{ injection H as <- <- <- <-.
      eapply cursors_same_shape; [exact Hc|simpl; by rewrite length_insert|done..]. }
  destruct (ensureCapacity w1 (int_wrap (pn + 1)) (Some fh)) as [[rc3 w3] fh3].
  destruct (readBlock w3 pn fh3 _) as [[rcr fhr] buf].
  destruct rcr; injection H as <- <- <- <-;
    (eapply cursors_same_shape; [exact Hc|simpl; by rewrite length_insert|done..]).
Qed.

Lemma pinPage_pool_ok w b page pn rc w' b' page' :
  pool_ok b → pinPage w (Some b) page pn = (rc, w', Some b', page') → pool_ok b'.
Proof.
  intros Hok H. unfold pinPage in H.
  destruct page as [pg|]; [|by injection H as <- <- <- <-].
  destruct (mgmtData b) as [p|] eqn:Hp; [|by injection H as <- <- <- <-].
  pose proof (Hok p Hp) as Hc.
  destruct (openPageFile w (pageFile b) blank_handle) as [rco fh].
  destruct rco; try (by injection H as <- <- <- <-).
  destruct (list_find (λ f, pageNumber f = pn) (frames p)) as [[i f]|].
  - destruct (pinPage_hit b p i f pn) as [p1 pg1] eqn:E.
    injection H as <- <- <- <-. intros q [= <-].
    unfold pinPage_hit in E. injection E as <- <-.
    eapply cursors_same_shape; [exact Hc|simpl; by rewrite length_insert|done..].
  - destruct (list_find (λ f, pageNumber f = NO_PAGE) (frames p)) as [[i f]|].
    + destruct (pinPage_empty w fh b p i f pg pn) as [[[rc1 w1] p1] pg1] eqn:E.
      injection H as <- <- <- <-. intros q [= <-].
      by eapply pinPage_empty_cursors.
    + destruct (pinPage_replace w fh b p pg pn) as [[[rc1 w1] p1] pg1] eqn:E.
      injection H as <- <- <- <-. intros q [= <-].
      by eapply pinPage_replace_cursors.
Qed.

Lemma forceFlushPool_pool_ok w b rc w' b' :
  pool_ok b → forceFlushPool w (Some b) = (rc, w', Some b') → pool_ok b'.
Proof.
  intros Hok H. unfold forceFlushPool in H.
  destruct (mgmtData b) as [p|] eqn:Hp; [|by injection H as <- <- <-].
  pose proof (Hok p Hp) as Hc.
  destruct (openPageFile w (pageFile b) blank_handle) as [rco fh].
  destruct rco; try (by injection H as <- <- <-).
  destruct (flush_frames _ _ _ _) as [[[rc1 w1] fs1] n1] eqn:E.
  injection H as <- <- <-. intros q [= <-].
  eapply cursors_same_shape; [exact Hc|simpl|done..].
  by eapply flush_frames_length.
Qed.

Lemma client_write_pool_ok b i bytes : pool_ok b → pool_ok (client_write b i bytes).
Proof.
  intros Hok. unfold client_write.
  destruct (mgmtData b) as [p|] eqn:Hp; [|done].
  destruct (frames p !! i) as [f|]; [|done].
  destruct (data f); [|done].
  intros q [= <-].
  eapply cursors_same_shape; [by apply Hok|simpl; by rewrite length_insert|done..].
Qed.

(** Invariant 6 of the data model: in every reachable pool the FIFO cursor
    and the CLOCK hand are indices of the frame array, so the strategies never
    look outside it. *)
Lemma reachable_cursors_in_range b : reachable b → pool_ok b.
Proof.
  induction 1 as
    [w bm0 name n s w' b H
    |w b page pn rc w' b' page' _ IH H
    |w b page rc w' b' _ IH H
    |w b page rc w' b' _ IH H
    |w b page rc w' b' _ IH H
    |w b rc w' b' _ IH H
    |w b rc w' b' _ IH H
    |b i bytes _ IH].
  - unfold initBufferPool in H. destruct bm0; [|done].
    destruct (n <=? 0) eqn:En; [done|].
    destruct (malloc w) as [g1 w1]. destruct g1; [|done]. simpl in H.
    destruct (malloc w1) as [g2 w2]. destruct g2; [|done]. simpl in H.
    destruct (malloc w2) as [g3 w3]. destruct g3; [|done]. simpl in H.
    injection H as <- <-. intros q [= <-].
    unfold cursors_in_range, bufferSize. simpl. rewrite length_replicate. lia.
  - by eapply pinPage_pool_ok.
  - unfold unpinPage in H.
    destruct page as [pg|]; [|by injection H as <- <- <-].
    destruct (mgmtData b) as [p|] eqn:Hp; [|by injection H as <- <- <-].
    destruct (list_find _ _) as [[i f]|]; [|by injection H as <- <- <-].
    destruct (accessCount f >? 0); [|by injection H as <- <- <-].
    injection H as <- <- <-. intros q [= <-].
    eapply cursors_same_shape; [by apply IH|simpl; by rewrite length_insert|done..].
  - unfold markDirty in H.
    destruct page as [pg|]; [|by injection H as <- <- <-].
    destruct (mgmtData b) as [p|] eqn:Hp; [|by injection H as <- <- <-].
    destruct (list_find _ _) as [[i f]|]; [|by injection H as <- <- <-].
    injection H as <- <- <-. intros q [= <-].
    eapply cursors_same_shape; [by apply IH|simpl; by rewrite length_insert|done..].
  - unfold forcePage in H.
    destruct page as [pg|]; [|by injection H as <- <- <-].
    destruct (mgmtData b) as [p|] eqn:Hp; [|by injection H as <- <- <-].
    destruct (openPageFile w (pageFile b) blank_handle) as [rco fh].
    destruct rco; try (by injection H as <- <- <-).
    destruct (list_find _ _) as [[i f]|]; [|by injection H as <- <- <-].
    destruct (writeBlock _ _ _ _) as [[rcw ww] fhw].
    destruct rcw; try (by injection H as <- <- <-).
    injection H as <- <- <-. intros q [= <-].
    eapply cursors_same_shape; [by apply IH|simpl; by rewrite length_insert|done..].
  - by eapply forceFlushPool_pool_ok.
  - unfold shutdownBufferPool in H.
    destruct (mgmtData b) as [p|] eqn:Hp; [|by injection H as <- <- <-].
    destruct (forceFlushPool w (Some b)) as [[rcf wf] bmf] eqn:Ef.
    destruct bmf as [bf|].
    2:{ destruct rcf; done. }
    pose proof (forceFlushPool_pool_ok _ _ _ _ _ IH Ef) as Hf.
    destruct rcf; try (by injection H as <- <- <-).
    destruct (mgmtData bf) as [pf|] eqn:Hpf; [|by injection H as <- <- <-].
    destruct (list_find _ _); injection H as <- <- <-; [done|].
    intros q. simpl. done.
  - by apply client_write_pool_ok.
Qed.

(** ** pinPage: every frame pinned *)

Lemma all_pinned_frame_at fs idx f :
  all_pinned fs → frame_at fs idx = Some f → (accessCount f =? 0) = false.
Proof.
  intros Ha Hf. apply frame_at_Some in Hf as [_ Hf].
  unfold all_pinned in Ha. rewrite Forall_lookup in Ha. specialize (Ha _ _ Hf).
  simpl in Ha. lia.
Qed.

Lemma FIFO_loop_all_pinned n : ∀ w name p page,
  all_pinned (frames p) →
  ∃ p', FIFO_loop n w name p page = (w, p') ∧ frames p' = frames p ∧
        writeCount p' = writeCount p ∧ readCount p' = readCount p ∧
        recentHitCount p' = recentHitCount p.
Proof.
  induction n as [|n IH]; intros w name p page Ha; simpl; [by exists p|].
  destruct (frame_at (frames p) (frameIndex p)) as [f|] eqn:Ef; [|by exists p].
  rewrite (all_pinned_frame_at _ _ _ Ha Ef).
  destruct (IH w name (set_frameIndex p (next_index p (frameIndex p))) page Ha)
    as (p' & E & ?). exists p'. by rewrite E.
Qed.

Lemma CLOCK_loop_all_pinned n : ∀ w name p page,
  all_pinned (frames p) →
  ∃ p', CLOCK_loop n w name p page = (w, p') ∧ frames p' = frames p ∧
        writeCount p' = writeCount p ∧ readCount p' = readCount p ∧
        recentHitCount p' = recentHitCount p.
Proof.
  induction n as [|n IH]; intros w name p page Ha; simpl; [by exists p|].
  destruct (frame_at (frames p) (clockPointer p)) as [f|] eqn:Ef; [|by exists p].
  rewrite (all_pinned_frame_at _ _ _ Ha Ef).
  destruct (IH w name (set_clockPointer p (next_index p (clockPointer p))) page Ha)
    as (p' & E & ?). exists p'. by rewrite E.
Qed.

Lemma LRU_scan_all_pinned fs : ∀ i r l,
  all_pinned fs → LRU_scan fs i r l = (r, l).
Proof.
  induction fs as [|f rest IH]; intros i r l Ha; simpl; [done|].
  apply Forall_cons in Ha as [Hf Ha].
  replace (accessCount f =? 0) with false by lia. simpl. by apply IH.
Qed.

Lemma LRU_all_pinned w b p page :
  all_pinned (frames p) → LRU w b p page = (w, p).
Proof. intros Ha. unfold LRU. by rewrite LRU_scan_all_pinned. Qed.

(** C1, the code at a failing input: page 0 is pinned in the only frame of
    the pool, page 1 is not resident and the page file is in order.  [pinPage]
    for page 1 finds no frame to replace and returns [RC_OK] all the same:
    afterwards the frame still holds page 0, page 1 is in no frame, one read
    has been counted, and the handle names page 1 and refers to a buffer that
    no frame holds. *)
Theorem pinPage_all_pinned_returns_OK :
  mgmtData (pool_of one_pinned) = Some (info_of one_pinned) ∧
  Forall (λ f, pageNumber f ≠ NO_PAGE ∧ 0 < accessCount f)
         (frames (info_of one_pinned)) ∧
  not_resident (frames (info_of one_pinned)) 1 ∧
  (pinPage one_pinned.1.1 (Some (pool_of one_pinned)) (Some blank_page) 1).1.1.1
    = RC_OK ∧
  getFrameContents (do_pin 1 one_pinned).1.2 = Some [0] ∧
  getFixCounts (do_pin 1 one_pinned).1.2 = Some [1] ∧
  getNumReadIO (do_pin 1 one_pinned).1.2 = getNumReadIO one_pinned.1.2 + 1 ∧
  getNumWriteIO (do_pin 1 one_pinned).1.2 = getNumWriteIO one_pinned.1.2 ∧
  (pinPage one_pinned.1.1 (Some (pool_of one_pinned)) (Some blank_page) 1).2
    = Some (mkPage 1 (Some (replicate page_len x00))).
Proof.
  split_and!.
  - vm_compute. reflexivity.
  - vm_compute. repeat constructor; discriminate.
  - vm_compute. repeat constructor; discriminate.
  - vm_compute. reflexivity.
  - vm_compute. reflexivity.
  - vm_compute. reflexivity.
  - vm_compute. reflexivity.
  - vm_compute. reflexivity.
  - vm_compute. reflexivity.
Qed.

(** The same for every pool and each of the three strategies: when every
    frame holds a page and is pinned, [pinPage] for a page that is not
    resident, whose offset an [int] holds, returns [RC_OK] on a writable page
    file of whole pages with memory available; the frames and [writeCount] are
    as before and one read is counted. *)
Lemma pinPage_all_pinned_no_victim w b p pg pn file :
  mgmtData b = Some p →
  Forall (λ f, pageNumber f ≠ NO_PAGE ∧ 0 < accessCount f) (frames p) →
  not_resident (frames p) pn →
  strategy b ≠ RS_OTHER →
  files w (pageFile b) = Some file →
  writable file = true →
  Z.rem (file_size file) PAGE_SIZE = 0 →
  allocs w = [] →
  0 ≤ pn → pn * PAGE_SIZE ≤ INT_MAX →
  ∃ w' p' pg',
    pinPage w (Some b) (Some pg) pn
      = (RC_OK, w', Some (set_mgmtData b (Some p')), Some pg') ∧
    frames p' = frames p ∧
    writeCount p' = writeCount p ∧
    readCount p' = readCount p + 1.
Proof.
  intros Hp Hall Hnr Hs Hf Hw Hrem Ha Hpn Hmax.
  assert (Hpin : all_pinned (frames p)).
  { eapply Forall_impl; [exact Hall|]. simpl. intros f [_ ?]. lia. }
  assert (Hne : list_find (λ f, pageNumber f = NO_PAGE) (frames p) = None).
  { apply list_find_None. eapply Forall_impl; [exact Hall|]. by intros f [? _]. }
  apply not_resident_find in Hnr.
  pose proof PAGE_SIZE_pos as HP.
  assert (Hsz : 0 ≤ file_size file) by (unfold file_size; lia).
  set (T := pages_of_size (file_size file)).
  assert (HT : file_size file = T * PAGE_SIZE).
  { unfold T, pages_of_size. rewrite Hrem. simpl.
    rewrite Z.rem_mod_nonneg in Hrem by lia. rewrite Z.quot_div_nonneg by lia.
    pose proof (Z.div_mod (file_size file) PAGE_SIZE ltac:(lia)). lia. }
  assert (Hg : good_file w (pageFile b) T) by (by exists file).
  unfold pinPage. rewrite Hp.
  destruct (openPageFile_cases w (pageFile b) blank_handle) as [(f0 & Hf0 & E)|[Hf0 E]];
    [|congruence].
  assert (f0 = file) as -> by congruence. rewrite E, Hnr, Hne.
  unfold pinPage_replace.
  rewrite (malloc_ok _ Ha). cbv beta iota zeta. simpl negb. cbv beta iota zeta.
  rewrite (malloc_ok _ Ha). cbv beta iota zeta. simpl negb. cbv beta iota zeta.
  destruct (ensureCapacity_good w (mkHandle (pageFile b) T 0) T (pn + 1) Hg eq_refl)
    as (rc3 & w3 & fh3 & E3 & Hn3 & Ht3 & Hg3).
  fold T. rewrite int_wrap_succ by done. rewrite E3.
  destruct (readBlock_good w3 fh3 (Z.max T (pn + 1)) pn (replicate page_len x00))
    as (fhr & buf & Er); [by rewrite Hn3|done|lia|done|].
  rewrite Er.
  destruct (strategy b) eqn:Es; [| | |done].
  - unfold FIFO.
    edestruct FIFO_loop_all_pinned as (p' & E' & Hfr & Hwc & Hrc & _);
      [|rewrite E']; [exact Hpin|].
    eexists _, _, _. split; [reflexivity|]. by rewrite Hfr, Hwc, Hrc.
  - rewrite LRU_all_pinned by exact Hpin.
    eexists _, _, _. split; [reflexivity|]. done.
  - unfold CLOCK.
    edestruct CLOCK_loop_all_pinned as (p' & E' & Hfr & Hwc & Hrc & _);
      [|rewrite E']; [exact Hpin|].
    eexists _, _, _. split; [reflexivity|]. by rewrite Hfr, Hwc, Hrc.
Qed.

(** The same at the pool of the failing input. *)
Lemma pinPage_all_pinned_witness :
  ∃ w' p' pg',
    pinPage one_pinned.1.1 (Some (pool_of one_pinned)) (Some blank_page) 1
      = (RC_OK, w', Some (set_mgmtData (pool_of one_pinned) (Some p')), Some pg') ∧
    frames p' = frames (info_of one_pinned) ∧
    writeCount p' = writeCount (info_of one_pinned) ∧
    readCount p' = readCount (info_of one_pinned) + 1.
Proof.
  apply (pinPage_all_pinned_no_victim one_pinned.1.1 (pool_of one_pinned)
           (info_of one_pinned) blank_page 1 (zero_file 1 true)).
  - vm_compute. reflexivity.
  - vm_compute. repeat constructor; discriminate.
  - vm_compute. repeat constructor; discriminate.
  - vm_compute. discriminate.
  - vm_compute. reflexivity.
  - reflexivity.
  - vm_compute. reflexivity.
  - vm_compute. reflexivity.
  - lia.
  - vm_compute. discriminate.
Defined.

(** ** pinPage: a dirty victim *)

(** Scenario 4 of the spec, the page file being writable: the dirty page 0
    is written when page 1 takes its frame. *)
Example scenario_dirty_flush_on_eviction :
  let before := do_unpin 0 (do_markDirty 0 (do_write 0 hello
                  (do_pin 0 (do_init "pages.bin" 1 RS_FIFO
                               (world_with "pages.bin" 1 true))))) in
  let after := do_pin 1 before in
  after.2 = replicate 5 RC_OK ∧
  getFrameContents after.1.2 = Some [1] ∧
  getNumWriteIO after.1.2 = 1 ∧
  getNumReadIO after.1.2 = 2 ∧
  (take 5 ∘ contents) <$> files after.1.1 "pages.bin" = Some hello ∧
  last (trace after.1.1) = Some (frame_write "pages.bin" (frame_of before 0)).
Proof. vm_compute. repeat split. Qed.

(** C3, the code at a failing input: the page file cannot be opened for
    writing; page 0 is resident, modified, dirty and unpinned in the only
    frame.  [pinPage] for page 1 returns [RC_OK], page 1 takes the frame and
    [writeCount] goes up by one, but no write was done: the file still holds
    the old page 0. *)
Theorem eviction_ignores_failed_write :
  let before := dirty_unpinned_readonly in
  let after := do_pin 1 before in
  before.2 = replicate 4 RC_OK ∧
  getFrameContents before.1.2 = Some [0] ∧
  getDirtyFlags before.1.2 = Some [true] ∧
  getFixCounts before.1.2 = Some [0] ∧
  take 5 <$> data (frame_of before 0) = Some hello ∧
  after.2 = replicate 5 RC_OK ∧
  getFrameContents after.1.2 = Some [1] ∧
  getNumWriteIO after.1.2 = getNumWriteIO before.1.2 + 1 ∧
  trace after.1.1 = trace before.1.1 ∧
  files after.1.1 "pages.bin" = Some (zero_file 2 false).
Proof. vm_compute. repeat split. Qed.

(** ** Eviction order *)

(** C7: scenario 1 of the spec.  All eight calls return [RC_OK], the frames
    hold pages 4, 2, 3 and the FIFO cursor is 1. *)
Theorem scenario_FIFO_eviction_order :
  let s := do_pin 4 (do_unpin 3 (do_unpin 2 (do_unpin 1
            (do_pin 3 (do_pin 2 (do_pin 1
              (do_init "testbuffer.bin" 3 RS_FIFO
                 (world_with "testbuffer.bin" 1 true)))))))) in
  s.2 = replicate 8 RC_OK ∧
  getFrameContents s.1.2 = Some [4; 2; 3] ∧
  frameIndex <$> session_pool s = Some 1.
Proof. vm_compute. done. Qed.

(** Scenarios 2 and 3 of the spec. *)
Example scenario_LRU_eviction_order :
  let s := do_pin 4 (do_unpin 1 (do_pin 1 (do_unpin 3 (do_unpin 2 (do_unpin 1
            (do_pin 3 (do_pin 2 (do_pin 1
              (do_init "testbuffer.bin" 3 RS_LRU
                 (world_with "testbuffer.bin" 1 true)))))))))) in
  s.2 = replicate 10 RC_OK ∧ getFrameContents s.1.2 = Some [1; 4; 3].
Proof. vm_compute. done. Qed.

Example scenario_CLOCK_second_chance :
  let s := do_pin 4 (do_unpin 1 (do_pin 1 (do_unpin 3 (do_unpin 2 (do_unpin 1
            (do_pin 3 (do_pin 2 (do_pin 1
              (do_init "testbuffer.bin" 3 RS_CLOCK
                 (world_with "testbuffer.bin" 1 true)))))))))) in
  s.2 = replicate 10 RC_OK ∧ getFrameContents s.1.2 = Some [1; 4; 3].
Proof. vm_compute. done. Qed.

(** * Further properties *)

(** ** Sessions of the examples *)

Lemma session_ok_one_pinned : session_ok one_pinned.
Proof. apply session_ok_pin, session_ok_init. vm_compute. reflexivity. Qed.

Lemma session_ok_full_one_unpinned : session_ok full_one_unpinned.
Proof.
  apply session_ok_unpin, session_ok_pin, session_ok_pin, session_ok_init.
  vm_compute. reflexivity.
Qed.

Lemma session_ok_two_dirty_one_pinned : session_ok two_dirty_one_pinned.
Proof.
  apply session_ok_unpin, session_ok_markDirty, session_ok_markDirty,
    session_ok_pin, session_ok_pin, session_ok_init.
  vm_compute. reflexivity.
Qed.

Lemma session_ok_dirty_unpinned_readonly : session_ok dirty_unpinned_readonly.
Proof.
  apply session_ok_unpin, session_ok_markDirty, session_ok_write,
    session_ok_pin, session_ok_init.
  vm_compute. reflexivity.
Qed.

(** ** The storage manager: pages of a file *)

Lemma page_of_length bytes pn :
  0 ≤ pn → (pn + 1) * PAGE_SIZE ≤ Z.of_nat (length bytes) →
  length (page_of bytes pn) = page_len.
Proof.
  intros Hpn Hlen. unfold page_of, pread. rewrite length_take, length_drop.
  pose proof page_len_Z. pose proof PAGE_SIZE_pos. nia.
Qed.

Lemma pread_pwrite_other bytes pos src pos' n :
  (pos' + n ≤ pos ∨ pos + length src ≤ pos')%nat →
  (pos' + n ≤ length bytes)%nat →
  pread (pwrite bytes pos src) pos' n = pread bytes pos' n.
Proof.
  intros Hdis Hin. unfold pread, pwrite. apply list_eq. intros i.
  destruct (decide (i < n)%nat) as [Hi|Hi].
  2:{ by rewrite !lookup_take_ge by lia. }
  rewrite !lookup_take_lt by done. rewrite !lookup_drop.
  assert (HA : length (take pos (bytes ++ replicate (pos - length bytes) x00)) = pos).
  { rewrite length_take, length_app, length_replicate. lia. }
  destruct Hdis as [Hbefore|Hafter].
  - rewrite lookup_app_l by lia. rewrite lookup_take_lt by lia.
    by rewrite lookup_app_l by lia.
  - rewrite lookup_app_r by lia. rewrite lookup_app_r by lia.
    rewrite lookup_drop, HA. f_equal. lia.
Qed.

Lemma pages_of_size_succ n :
  0 ≤ n → pages_of_size (n + PAGE_SIZE) = pages_of_size n + 1.
Proof.
  intros Hn. pose proof PAGE_SIZE_pos.
  pose proof (pages_of_size_spec n Hn).
  pose proof (pages_of_size_spec (n + PAGE_SIZE) ltac:(lia)). nia.
Qed.

Lemma pages_of_size_ge n k :
  0 ≤ n → k * PAGE_SIZE ≤ n → k ≤ pages_of_size n.
Proof.
  intros Hn Hk. pose proof PAGE_SIZE_pos. pose proof (pages_of_size_spec n Hn). nia.
Qed.

Lemma files_fwrite_same w name f pos src :
  files (fwrite w name f pos src) name
    = Some (mkFile (pwrite (contents f) pos src) (writable f)).
Proof. simpl. by rewrite bool_decide_eq_true_2. Qed.

Lemma files_fwrite_other w name f pos src other :
  other ≠ name → files (fwrite w name f pos src) other = files w other.
Proof. intros. simpl. by rewrite bool_decide_eq_false_2. Qed.

(** A read inside the file delivers the page and moves the position. *)
Lemma readBlock_reads w fh file pn mem :
  files w (fileName fh) = Some file →
  0 ≤ pn < totalNumPages fh →
  (pn + 1) * PAGE_SIZE ≤ file_size file →
  pn * PAGE_SIZE ≤ INT_MAX →
  readBlock w pn (Some fh) (Some mem)
    = (RC_OK, Some (set_curPagePos fh pn), Some (page_of (contents file) pn)).
Proof.
  intros Hf Hpn Hsz Hmax. unfold readBlock, fopen_r.
  replace ((pn <? 0) || (pn >=? totalNumPages fh)) with false
    by (symmetry; apply orb_false_iff; lia).
  rewrite Hf. pose proof PAGE_SIZE_pos.
  rewrite (page_offset_id pn) by (done || lia).
  replace (fseek_set (pn * PAGE_SIZE)) with true by (unfold fseek_set; nia).
  simpl negb. cbv iota.
  fold (page_of (contents file) pn).
  assert (Hl : length (page_of (contents file) pn) = page_len).
  { apply page_of_length; [lia|]. exact Hsz. }
  rewrite Hl, page_len_Z, Z.ltb_irrefl.
  rewrite drop_ge by (rewrite page_bytes_length; lia). by rewrite app_nil_r.
Qed.

(** X1: [createPageFile] on a name that is free, or taken by a writable file,
    with memory for the page, leaves a file of exactly one page of zero bytes
    and touches no other file; [openPageFile] then reports one page at position
    0, and reading page 0 delivers [PAGE_SIZE] zero bytes. *)
Theorem createPageFile_one_zero_page w name :
  (∀ f, files w name = Some f → writable f = true) →
  can_alloc w →
  ∃ w',
    createPageFile w name = (RC_OK, w') ∧
    files w' name = Some (mkFile (replicate page_len x00) true) ∧
    (∀ other, other ≠ name → files w' other = files w other) ∧
    openPageFile w' name blank_handle = (RC_OK, mkHandle name 1 0) ∧
    ∀ mem, readBlock w' 0 (Some (mkHandle name 1 0)) (Some mem)
             = (RC_OK, Some (mkHandle name 1 0), Some (replicate page_len x00)).
Proof.
  intros Hw Ha. unfold can_alloc in Ha. unfold createPageFile.
  assert (Hopen : ∃ w1, fopen_w w name = Some (w1, mkFile [] true) ∧
                        malloc w1 = (true, mkWorld (files w1) (trace w1) (allocs (malloc w).2)) ∧
                        (∀ other, other ≠ name → files w1 other = files w other)).
  { unfold fopen_w. destruct (files w name) as [f|] eqn:Hf.
    - rewrite (Hw f eq_refl). eexists. split; [reflexivity|]. split.
      + unfold malloc in *. simpl. destruct (allocs w) as [|b rest]; simpl in *.
        * done.
        * by rewrite Ha.
      + intros other Hne. simpl. by rewrite bool_decide_eq_false_2.
    - eexists. split; [reflexivity|]. split.
      + unfold malloc in *. simpl. destruct (allocs w) as [|b rest]; simpl in *.
        * done.
        * by rewrite Ha.
      + intros other Hne. simpl. by rewrite bool_decide_eq_false_2. }
  destruct Hopen as (w1 & -> & -> & Hother). simpl negb. cbv iota.
  eexists. split; [reflexivity|].
  assert (Hfile : ∀ w2, files (fwrite w2 name (mkFile [] true) 0 (replicate page_len x00)) name
            = Some (mkFile (replicate page_len x00) true)).
  { intros w2. rewrite files_fwrite_same. reflexivity. }
  split_and!.
  - apply Hfile.
  - intros other Hne. rewrite files_fwrite_other by done. simpl. by apply Hother.
  - unfold openPageFile, fopen_r. rewrite Hfile. unfold file_size. simpl.
    rewrite length_replicate, page_len_Z.
    replace PAGE_SIZE with (1 * PAGE_SIZE) by lia. by rewrite pages_of_size_mul.
  - intros mem.
    rewrite (readBlock_reads _ (mkHandle name 1 0) (mkFile (replicate page_len x00) true) 0 mem).
    + replace (page_of (contents (mkFile (replicate page_len x00) true)) 0)
        with (replicate page_len x00); [reflexivity|].
      unfold page_of, pread. cbn [contents].
      rewrite Z.mul_0_l. change (Z.to_nat 0) with 0%nat. rewrite drop_0.
      rewrite take_ge; [done|]. by rewrite length_replicate.
    + apply Hfile.
    + cbn [totalNumPages]. lia.
    + unfold file_size. cbn [contents]. rewrite length_replicate, page_len_Z. lia.
    + unfold INT_MAX. lia.
Qed.

Lemma createPageFile_one_zero_page_witness :
  ∃ w', createPageFile empty_world "pages.bin" = (RC_OK, w') ∧
        openPageFile w' "pages.bin" blank_handle = (RC_OK, mkHandle "pages.bin" 1 0).
Proof.
  destruct (createPageFile_one_zero_page empty_world "pages.bin")
    as (w' & E & _ & _ & Ho & _).
  - intros f Hf. vm_compute in Hf. discriminate Hf.
  - vm_compute. reflexivity.
  - exists w'. split; [exact E|exact Ho].
Defined.

(** X2: what [writeBlock] writes, [readBlock] reads: on a writable file, for a
    page number from 0 up to and including the page count whose byte offset
    [pn * PAGE_SIZE] fits an [int] (a page below 524288), the write
    succeeds, the handle is positioned on the page and agrees with the file
    about the page count, and reading the same page through the updated handle
    delivers the buffer that was written. *)
Theorem writeBlock_then_readBlock w fh file pn (buf mem : list byte) :
  files w (fileName fh) = Some file →
  writable file = true →
  0 ≤ pn ≤ totalNumPages fh →
  pn * PAGE_SIZE ≤ INT_MAX →
  ∃ w' fh',
    writeBlock w pn (Some fh) (Some buf) = (RC_OK, w', Some fh') ∧
    curPagePos fh' = pn ∧
    synced w' fh' ∧
    readBlock w' pn (Some fh') (Some mem) = (RC_OK, Some fh', Some (page_bytes buf)).
Proof.
  intros Hf Hw Hpn Hmax.
  pose proof (page_offset_id pn (proj1 Hpn) Hmax) as Ho.
  destruct (writeBlock_cases w pn fh (Some buf))
    as [(buf' & file' & [= <-] & _ & Hf' & _ & E) | (rc & _ & _ & Hwhy)].
  2:{ exfalso. unfold fopen_rw in Hwhy. rewrite Hf, Hw, Ho in Hwhy.
      pose proof PAGE_SIZE_pos.
      destruct Hwhy as [?|[?|[?|[?|?]]]]; try done; nia. }
  rewrite Ho in E.
  assert (file' = file) as -> by congruence.
  eexists _, _. split; [exact E|].
  destruct (writeBlock_ok_synced _ _ _ _ _ _ E) as (fh1 & [= <-] & Hs & _).
  split; [done|]. split; [exact Hs|].
  pose proof PAGE_SIZE_pos as HP. pose proof page_len_Z as HL.
  set (bytes' := pwrite (contents file) (Z.to_nat (pn * PAGE_SIZE)) (page_bytes buf)).
  assert (Hlen : (pn + 1) * PAGE_SIZE ≤ Z.of_nat (length bytes')).
  { unfold bytes'. rewrite pwrite_length, page_bytes_length. nia. }
  rewrite (readBlock_reads _ _ (mkFile bytes' (writable file)) pn mem).
  - replace (page_of (contents (mkFile bytes' (writable file))) pn)
      with (page_bytes buf); [reflexivity|].
    symmetry. unfold page_of. cbn [contents]. unfold bytes'.
    etrans; [|apply (pread_pwrite (contents file))]. by rewrite page_bytes_length.
  - cbn [fileName]. apply files_fwrite_same.
  - cbn [totalNumPages]. split; [lia|].
    fold bytes'. apply Z.lt_le_trans with (pn + 1); [lia|].
    apply pages_of_size_ge; lia.
  - unfold file_size. cbn [contents]. exact Hlen.
  - exact Hmax.
Qed.

Lemma writeBlock_then_readBlock_witness :
  ∃ w' fh',
    writeBlock (world_with "pages.bin" 2 true) 1
               (Some (mkHandle "pages.bin" 2 0)) (Some hello)
      = (RC_OK, w', Some fh') ∧
    readBlock w' 1 (Some fh') (Some [])
      = (RC_OK, Some fh', Some (page_bytes hello)).
Proof.
  destruct (writeBlock_then_readBlock (world_with "pages.bin" 2 true)
              (mkHandle "pages.bin" 2 0) (zero_file 2 true) 1 hello [])
    as (w' & fh' & E & _ & _ & Er).
  - vm_compute. reflexivity.
  - reflexivity.
  - vm_compute. split; discriminate.
  - vm_compute. discriminate.
  - exists w', fh'. split; [exact E|exact Er].
Defined.

(** X3: a successful [writeBlock] of a page whose byte offset
    [pn * PAGE_SIZE] fits an [int] (a page below 524288) changes the page it
    is given and nothing else: every other whole page of the file keeps its
    bytes, the file does not shrink or change its permission, and no other
    file is touched.  (Page 1048576 is the first whose [int] offset has come
    round to the offset of another page, page 0, and it is that page the call
    writes.) *)
Theorem writeBlock_other_pages w fh pn mem w' fh' file pn' :
  writeBlock w pn (Some fh) mem = (RC_OK, w', fh') →
  pn * PAGE_SIZE ≤ INT_MAX →
  files w (fileName fh) = Some file →
  pn' ≠ pn → 0 ≤ pn' → (pn' + 1) * PAGE_SIZE ≤ file_size file →
  (∃ file', files w' (fileName fh) = Some file' ∧
            page_of (contents file') pn' = page_of (contents file) pn' ∧
            file_size file ≤ file_size file' ∧
            writable file' = writable file) ∧
  (∀ other, other ≠ fileName fh → files w' other = files w other).
Proof.
  intros E Hmax Hf Hne Hpn' Hin.
  destruct (writeBlock_cases w pn fh mem)
    as [(buf & file' & -> & Hpn & Hf' & _ & E') | (rc & Hrc & E' & _)];
    rewrite E' in E; [|congruence].
  rewrite (page_offset_id pn) in E by (done || lia).
  assert (file' = file) as -> by congruence.
  injection E as <- <-. split.
  - eexists. split; [apply files_fwrite_same|].
    pose proof PAGE_SIZE_pos as HP. pose proof page_len_Z as HL.
    unfold file_size in *. cbn [contents writable]. split_and!; [|rewrite pwrite_length; lia|done].
    unfold page_of. apply pread_pwrite_other.
    + rewrite page_bytes_length. nia.
    + nia.
  - intros other Ho. by apply files_fwrite_other.
Qed.

Lemma writeBlock_other_pages_witness :
  ∃ file',
    files (writeBlock (world_with "pages.bin" 2 true) 1
                      (Some (mkHandle "pages.bin" 2 0)) (Some hello)).1.2
          "pages.bin" = Some file' ∧
    page_of (contents file') 0 = page_of (contents (zero_file 2 true)) 0.
Proof.
  destruct (writeBlock_other_pages (world_with "pages.bin" 2 true)
              (mkHandle "pages.bin" 2 0) 1 (Some hello)
              (writeBlock (world_with "pages.bin" 2 true) 1
                          (Some (mkHandle "pages.bin" 2 0)) (Some hello)).1.2
              (writeBlock (world_with "pages.bin" 2 true) 1
                          (Some (mkHandle "pages.bin" 2 0)) (Some hello)).2
              (zero_file 2 true) 0)
    as [(file' & Hf & Hp & _) _].
  - vm_compute. reflexivity.
  - vm_compute. discriminate.
  - vm_compute. reflexivity.
  - lia.
  - lia.
  - vm_compute. discriminate.
  - exists file'. split; [exact Hf|exact Hp].
Defined.

(** X4: the exits of [writeBlock] that come before the write.  With no
    handle, with no buffer, with a page number below 0 or above the page
    count, with a file that cannot be opened for update, or with a byte
    offset that has wrapped round to a negative [int], the call returns
    [RC_FILE_HANDLE_NOT_INIT], [RC_WRITE_FAILED] or [RC_FILE_NOT_FOUND], and
    it has changed neither the files nor the handle.  (The exits the code
    has after the write, for a short write and for a file whose end cannot be
    found, are outside this statement.) *)
Theorem writeBlock_failure_changes_nothing w pn fHandle memPage :
  fHandle = None ∨ memPage = None ∨ pn < 0 ∨ page_offset pn < 0 ∨
  (∃ fh, fHandle = Some fh ∧
         (totalNumPages fh < pn ∨ fopen_rw w (fileName fh) = None)) →
  ∃ rc, writeBlock w pn fHandle memPage = (rc, w, fHandle) ∧
        (rc = RC_FILE_HANDLE_NOT_INIT ∨ rc = RC_WRITE_FAILED ∨
         rc = RC_FILE_NOT_FOUND).
Proof.
  intros Hwhy. unfold writeBlock.
  destruct fHandle as [fh|]; [|eauto].
  destruct memPage as [buf|]; [|eauto].
  destruct ((pn <? 0) || (pn >? totalNumPages fh)) eqn:E; [eauto|].
  apply orb_false_iff in E.
  destruct (fopen_rw w (fileName fh)) as [file|] eqn:Hf; [|eauto 6].
  unfold fseek_set. destruct (0 <=? page_offset pn) eqn:Eo; simpl negb; cbv iota;
    [|eauto].
  exfalso. destruct Hwhy as [?|[?|[?|[?|(fh0 & [= <-] & [?|?])]]]];
    try done; try congruence; lia.
Qed.

Lemma writeBlock_failure_changes_nothing_witness :
  (writeBlock (world_with "pages.bin" 2 false) 0
              (Some (mkHandle "pages.bin" 2 0)) (Some hello)).1.2
    = world_with "pages.bin" 2 false ∧
  (writeBlock (world_with "pages.bin" 2 false) 0
              (Some (mkHandle "pages.bin" 2 0)) (Some hello)).2
    = Some (mkHandle "pages.bin" 2 0).
Proof.
  destruct (writeBlock_failure_changes_nothing (world_with "pages.bin" 2 false) 0
              (Some (mkHandle "pages.bin" 2 0)) (Some hello)) as (rc & E & _).
  - do 4 right. exists (mkHandle "pages.bin" 2 0). split; [reflexivity|].
    right. vm_compute. reflexivity.
  - rewrite E. split; reflexivity.
Defined.

Lemma appendEmptyBlock_cases w fh :
  (∃ f w1, fopen_a w (fileName fh) = Some (w1, f) ∧ can_alloc w1 ∧
      appendEmptyBlock w (Some fh)
        = (RC_OK,
           fwrite (malloc w1).2 (fileName fh) f (length (contents f))
                  (replicate page_len x00),
           Some (set_totalNumPages fh (totalNumPages fh + 1))))
  ∨ (∃ rc w', rc ≠ RC_OK ∧ appendEmptyBlock w (Some fh) = (rc, w', Some fh) ∧
       (w' = w ∨ ∃ f w1, fopen_a w (fileName fh) = Some (w1, f) ∧ w' = (malloc w1).2)).
Proof.
  unfold appendEmptyBlock, can_alloc.
  destruct (fopen_a w (fileName fh)) as [[w1 f]|] eqn:Ea.
  - destruct (malloc w1) as [got w2] eqn:Em. destruct got; simpl.
    + left. exists f, w1. by rewrite Em.
    + right. exists RC_WRITE_FAILED, w2. split_and!; [done..|].
      right. exists f, w1. by rewrite Em.
  - right. exists RC_FILE_NOT_FOUND, w. split_and!; auto.
Qed.

Lemma files_malloc w n : files (malloc w).2 n = files w n.
Proof. unfold malloc. by destruct (allocs w). Qed.

Lemma synced_files w w' fh :
  files w' (fileName fh) = files w (fileName fh) → synced w fh → synced w' fh.
Proof. intros E (f & Hf & Ht). exists f. by rewrite E. Qed.

Lemma appendEmptyBlock_synced w fh rc w' fh' :
  synced w fh → appendEmptyBlock w (Some fh) = (rc, w', Some fh') →
  synced w' fh' ∧ fileName fh' = fileName fh.
Proof.
  intros Hs E. pose proof Hs as (f & Hf & Ht).
  assert (Hopen : ∀ w1 f1, fopen_a w (fileName fh) = Some (w1, f1) → w1 = w ∧ f1 = f).
  { unfold fopen_a. rewrite Hf. destruct (writable f); [|done]. by intros ?? [= <- <-]. }
  destruct (appendEmptyBlock_cases w fh)
    as [(f1 & w1 & Ea & _ & E') | (rc' & w2 & _ & E' & Hw2)]; rewrite E' in E.
  - destruct (Hopen _ _ Ea) as [-> ->]. injection E as <- <- <-. split; [|done].
    eexists. cbn [fileName set_totalNumPages]. split; [apply files_fwrite_same|].
    cbn [totalNumPages]. unfold file_size in *. cbn [contents].
    rewrite pwrite_at_end, length_app, length_replicate, Nat2Z.inj_add, page_len_Z.
    rewrite pages_of_size_succ by lia. by rewrite Ht.
  - injection E as <- <- <-. split; [|done].
    destruct Hw2 as [->|(f1 & w1 & Ea & ->)]; [done|].
    destruct (Hopen _ _ Ea) as [-> ->].
    eapply synced_files; [|exact Hs]. apply files_malloc.
Qed.

Lemma ensureCapacity_loop_synced n : ∀ w k fh rc w' fh',
  synced w fh → ensureCapacity_loop n w k fh = (rc, w', Some fh') →
  synced w' fh' ∧ fileName fh' = fileName fh.
Proof.
  induction n as [|n IH]; intros w k fh rc w' fh' Hs E; simpl in E.
  - by injection E as <- <- <-.
  - destruct (totalNumPages fh <? k); [|by injection E as <- <- <-].
    destruct (appendEmptyBlock w (Some fh)) as [[rc1 w1] fh1] eqn:Ea.
    destruct fh1 as [fh1|].
    2:{ destruct rc1; done. }
    destruct (appendEmptyBlock_synced _ _ _ _ _ Hs Ea) as [Hs1 Hn1].
    destruct rc1; try (by injection E as <- <- <-).
    destruct (IH _ _ _ _ _ _ Hs1 E) as [? ?]. split; [done|congruence].
Qed.

Lemma ensureCapacity_loop_Some n : ∀ w k fh rc w',
  ensureCapacity_loop n w k fh ≠ (rc, w', None).
Proof.
  induction n as [|n IH]; intros w k fh rc w' E; simpl in E; [done|].
  destruct (totalNumPages fh <? k); [|done].
  destruct (appendEmptyBlock_cases w fh)
    as [(f1 & w1 & _ & _ & E') | (rc' & w2 & Hrc & E' & _)];
    rewrite E' in E.
  - by eapply IH.
  - destruct rc'; done.
Qed.

(** X5: a handle whose page count agrees with its file still agrees after a
    [writeBlock], an [appendEmptyBlock] or an [ensureCapacity] that returns
    [RC_OK] or [RC_FILE_NOT_FOUND], and the call has not dropped the handle.
    (The other codes are also those of the exits the code takes when a write
    falls short or the end of the file cannot be found; what holds after
    those is outside this statement.) *)
Theorem handle_stays_synced w fh :
  synced w fh →
  (∀ pn mem rc w' fh',
     writeBlock w pn (Some fh) mem = (rc, w', fh') →
     rc = RC_OK ∨ rc = RC_FILE_NOT_FOUND →
     ∃ fh1, fh' = Some fh1 ∧ synced w' fh1) ∧
  (∀ rc w' fh',
     appendEmptyBlock w (Some fh) = (rc, w', fh') →
     rc = RC_OK ∨ rc = RC_FILE_NOT_FOUND →
     ∃ fh1, fh' = Some fh1 ∧ synced w' fh1) ∧
  (∀ k rc w' fh',
     ensureCapacity w k (Some fh) = (rc, w', fh') →
     rc = RC_OK ∨ rc = RC_FILE_NOT_FOUND →
     ∃ fh1, fh' = Some fh1 ∧ synced w' fh1).
Proof.
  intros Hs. split_and!.
  - intros pn mem rc w' fh' E _.
    destruct (decide (rc = RC_OK)) as [->|Hrc].
    + destruct (writeBlock_ok_synced _ _ _ _ _ _ E) as (fh1 & -> & ? & _). eauto.
    + destruct (writeBlock_cases w pn fh mem)
        as [(buf & file' & _ & _ & _ & _ & E') | (rc' & _ & E' & _)];
        rewrite E' in E; [congruence|]. injection E as <- <- <-. eauto.
  - intros rc w' fh' E _.
    destruct (appendEmptyBlock_cases w fh)
      as [(f1 & w1 & _ & _ & E') | (rc' & w2 & _ & E' & _)];
      rewrite E' in E; injection E as <- <- <-;
      (eexists; split; [reflexivity|]; by eapply appendEmptyBlock_synced).
  - intros k rc w' fh' E _. unfold ensureCapacity in E.
    destruct (fopen_r w (fileName fh)); [|injection E as <- <- <-; eauto].
    destruct (totalNumPages fh >=? k); [injection E as <- <- <-; eauto|].
    destruct fh' as [fh1|].
    + exists fh1. split; [done|]. by eapply ensureCapacity_loop_synced.
    + exfalso. by eapply ensureCapacity_loop_Some.
Qed.

Lemma handle_stays_synced_witness :
  ∃ fh1,
    (writeBlock (world_with "pages.bin" 2 true) 2
                (Some (mkHandle "pages.bin" 2 0)) (Some hello)).2 = Some fh1 ∧
    synced (writeBlock (world_with "pages.bin" 2 true) 2
                       (Some (mkHandle "pages.bin" 2 0)) (Some hello)).1.2 fh1.
Proof.
  destruct (handle_stays_synced (world_with "pages.bin" 2 true)
              (mkHandle "pages.bin" 2 0)) as (Hw & _ & _).
  - exists (zero_file 2 true). split; vm_compute; reflexivity.
  - apply (Hw 2 (Some hello) RC_OK); [vm_compute; reflexivity|left; reflexivity].
Defined.

Lemma replicate_add_pages n : 
  replicate n x00 ++ replicate page_len x00 = replicate ((n + page_len)%nat) x00.
Proof. by rewrite replicate_add. Qed.

Lemma ensureCapacity_loop_zero_pages n : ∀ w fh file k,
  files w (fileName fh) = Some file → writable file = true → allocs w = [] →
  Z.of_nat n = Z.max 0 (k - totalNumPages fh) →
  ∃ w' fh',
    ensureCapacity_loop n w k fh = (RC_OK, w', Some fh') ∧
    fileName fh' = fileName fh ∧ curPagePos fh' = curPagePos fh ∧
    totalNumPages fh' = Z.max (totalNumPages fh) k ∧
    allocs w' = [] ∧
    (∀ other, other ≠ fileName fh → files w' other = files w other) ∧
    files w' (fileName fh)
      = Some (mkFile (contents file ++ replicate (n * page_len) x00) true).
Proof.
  induction n as [|n IH]; intros w fh file k Hf Hw Ha Hn; simpl ensureCapacity_loop.
  - exists w, fh. replace (Z.max (totalNumPages fh) k) with (totalNumPages fh) by lia.
    split_and!; try done. simpl. rewrite app_nil_r, Hf. destruct file. simpl in *. by rewrite Hw.
  - replace (totalNumPages fh <? k) with true by lia.
    assert (Ea : appendEmptyBlock w (Some fh)
              = (RC_OK, fwrite w (fileName fh) file (length (contents file))
                          (replicate page_len x00),
                 Some (set_totalNumPages fh (totalNumPages fh + 1)))).
    { unfold appendEmptyBlock, fopen_a. rewrite Hf, Hw, (malloc_ok _ Ha). done. }
    rewrite Ea.
    edestruct (IH (fwrite w (fileName fh) file (length (contents file))
                     (replicate page_len x00))
                  (set_totalNumPages fh (totalNumPages fh + 1))
                  (mkFile (pwrite (contents file) (length (contents file))
                                  (replicate page_len x00)) (writable file)) k)
      as (w' & fh' & E & Hn' & Hc' & Ht' & Ha' & Ho' & Hf').
    + cbn [fileName set_totalNumPages]. apply files_fwrite_same.
    + done.
    + done.
    + cbn [totalNumPages set_totalNumPages]. lia.
    + exists w', fh'. rewrite E. cbn [fileName set_totalNumPages totalNumPages curPagePos] in *.
      split_and!; [done|done|done|lia|done| |].
      * intros other Ho. rewrite Ho' by done. by apply files_fwrite_other.
      * rewrite Hf'. cbn [contents]. rewrite pwrite_at_end, <- app_assoc.
        replace (S n * page_len)%nat with (page_len + n * page_len)%nat by lia.
        by rewrite replicate_add.
Qed.

Lemma ensureCapacity_grows w fh file k :
  files w (fileName fh) = Some file →
  writable file = true →
  allocs w = [] →
  ∃ w' fh',
    ensureCapacity w k (Some fh) = (RC_OK, w', Some fh') ∧
    fileName fh' = fileName fh ∧ curPagePos fh' = curPagePos fh ∧
    totalNumPages fh' = Z.max (totalNumPages fh) k ∧
    allocs w' = [] ∧
    (∀ other, other ≠ fileName fh → files w' other = files w other) ∧
    files w' (fileName fh)
      = Some (mkFile (contents file
                        ++ replicate (Z.to_nat (k - totalNumPages fh) * page_len) x00)
                     true).
Proof.
  intros Hf Hw Ha. unfold ensureCapacity, fopen_r. rewrite Hf.
  destruct (totalNumPages fh >=? k) eqn:E.
  - exists w, fh. replace (Z.max (totalNumPages fh) k) with (totalNumPages fh) by lia.
    replace (Z.to_nat (k - totalNumPages fh)) with 0%nat by lia.
    split_and!; try done. simpl. rewrite app_nil_r, Hf. destruct file. simpl in *. by rewrite Hw.
  - destruct (ensureCapacity_loop_zero_pages (Z.to_nat (k - totalNumPages fh)) w fh file k)
      as (w' & fh' & E' & ? & ? & ? & ? & ? & ?); [done..|lia|].
    exists w', fh'. done.
Qed.

(** X6: [ensureCapacity k] on a writable file, with memory for the pages,
    succeeds; the page count becomes the larger of the old count and [k], the
    position stays, the old bytes of the file stay, and exactly the missing
    pages are appended, all zero bytes; no other file changes. *)
Theorem ensureCapacity_appends_zero_pages w fh file k :
  files w (fileName fh) = Some file →
  writable file = true →
  allocs w = [] →
  ∃ w' fh',
    ensureCapacity w k (Some fh) = (RC_OK, w', Some fh') ∧
    fileName fh' = fileName fh ∧ curPagePos fh' = curPagePos fh ∧
    totalNumPages fh' = Z.max (totalNumPages fh) k ∧
    (∀ other, other ≠ fileName fh → files w' other = files w other) ∧
    files w' (fileName fh)
      = Some (mkFile (contents file
                        ++ replicate (Z.to_nat (k - totalNumPages fh) * page_len) x00)
                     true).
Proof.
  intros Hf Hw Ha.
  destruct (ensureCapacity_grows w fh file k Hf Hw Ha)
    as (w' & fh' & E & Hn & Hc & Ht & _ & Ho & Hf').
  exists w', fh'. done.
Qed.

Lemma ensureCapacity_appends_zero_pages_witness :
  ∃ w' fh',
    ensureCapacity (world_with "pages.bin" 1 true) 3
                   (Some (mkHandle "pages.bin" 1 0)) = (RC_OK, w', Some fh') ∧
    totalNumPages fh' = Z.max 1 3.
Proof.
  destruct (ensureCapacity_appends_zero_pages (world_with "pages.bin" 1 true)
              (mkHandle "pages.bin" 1 0) (zero_file 1 true) 3)
    as (w' & fh' & E & _ & _ & Ht & _).
  - vm_compute. reflexivity.
  - reflexivity.
  - reflexivity.
  - exists w', fh'. split; [exact E|exact Ht].
Defined.

(** X7: a file of at most [INT_MAX] bytes whose size is not a multiple of
    [PAGE_SIZE]: [openPageFile] counts the partial last page, but reading it
    fails with [RC_READ_NON_EXISTING_PAGE], after the position has moved to
    it and the bytes that were there have been put at the start of the
    buffer. *)
Theorem partial_last_page_is_counted_but_unreadable w name file (mem : list byte) :
  files w name = Some file →
  Z.rem (file_size file) PAGE_SIZE ≠ 0 →
  file_size file ≤ INT_MAX →
  let T := Z.quot (file_size file) PAGE_SIZE + 1 in
  openPageFile w name blank_handle = (RC_OK, mkHandle name T 0) ∧
  readLastBlock w (Some (mkHandle name T 0)) (Some mem)
    = (RC_READ_NON_EXISTING_PAGE,
       Some (mkHandle name T (T - 1)),
       Some (drop (Z.to_nat ((T - 1) * PAGE_SIZE)) (contents file)
               ++ drop (Z.to_nat (Z.rem (file_size file) PAGE_SIZE)) (page_bytes mem))).
Proof.
  intros Hf Hr Hmax T. pose proof PAGE_SIZE_pos as HP. pose proof page_len_Z as HL.
  assert (Hsz : 0 ≤ file_size file) by (unfold file_size; lia).
  assert (HT : T = pages_of_size (file_size file)).
  { unfold T, pages_of_size. destruct (Z.rem _ _ =? 0) eqn:E; [lia|done]. }
  assert (Hdm : file_size file = (T - 1) * PAGE_SIZE + Z.rem (file_size file) PAGE_SIZE
                ∧ 0 < Z.rem (file_size file) PAGE_SIZE < PAGE_SIZE).
  { unfold T. pose proof (Z.quot_rem' (file_size file) PAGE_SIZE).
    pose proof (Z.rem_bound_pos (file_size file) PAGE_SIZE Hsz HP). lia. }
  destruct Hdm as [Hdm Hrb].
  assert (H0T : 0 ≤ T - 1).
  { unfold T. pose proof (Z.quot_pos (file_size file) PAGE_SIZE Hsz HP). lia. }
  split.
  - unfold openPageFile, fopen_r. rewrite Hf. by rewrite <- HT.
  - unfold readLastBlock, readBlock, fopen_r. cbn [totalNumPages fileName].
    replace ((T - 1 <? 0) || (T - 1 >=? T)) with false
      by (symmetry; apply orb_false_iff; lia).
    rewrite Hf.
    rewrite (page_offset_id (T - 1)) by lia.
    replace (fseek_set ((T - 1) * PAGE_SIZE)) with true by (unfold fseek_set; nia).
    simpl negb. cbv iota.
    assert (Hgot : pread (contents file) (Z.to_nat ((T - 1) * PAGE_SIZE)) page_len
                   = drop (Z.to_nat ((T - 1) * PAGE_SIZE)) (contents file)).
    { unfold pread. apply take_ge. rewrite length_drop. unfold file_size in *.
      set (r := Z.rem _ _) in *. lia. }
    rewrite Hgot.
    assert (Hlen : length (drop (Z.to_nat ((T - 1) * PAGE_SIZE)) (contents file))
                   = Z.to_nat (Z.rem (file_size file) PAGE_SIZE)).
    { rewrite length_drop. unfold file_size in *.
      set (r := Z.rem _ _) in *. lia. }
    rewrite Hlen. set (r := Z.rem (file_size file) PAGE_SIZE) in *.
    assert ((Z.of_nat (Z.to_nat r) <? PAGE_SIZE) = true) as ->
      by (apply Z.ltb_lt; rewrite Z2Nat.id; [apply Hrb|apply Z.lt_le_incl, Hrb]).
    reflexivity.
Qed.

Lemma partial_last_page_is_counted_but_unreadable_witness :
  openPageFile (world_of_bytes "pages.bin" hello true) "pages.bin" blank_handle
    = (RC_OK, mkHandle "pages.bin" (Z.quot (file_size (mkFile hello true)) PAGE_SIZE + 1) 0).
Proof.
  destruct (partial_last_page_is_counted_but_unreadable
              (world_of_bytes "pages.bin" hello true) "pages.bin"
              (mkFile hello true) []) as [Ho _].
  - vm_compute. reflexivity.
  - vm_compute. discriminate.
  - vm_compute. discriminate.
  - exact Ho.
Defined.

(** X8: after a successful [destroyPageFile] the file is gone and no other
    file is touched; opening, closing, destroying again, [ensureCapacity],
    and reading or writing a page in range through an old handle all fail with
    [RC_FILE_NOT_FOUND] and change nothing. *)
Theorem destroyPageFile_removes w name w' :
  destroyPageFile w name = (RC_OK, w') →
  files w' name = None ∧
  (∀ other, other ≠ name → files w' other = files w other) ∧
  (∀ fh0, openPageFile w' name fh0 = (RC_FILE_NOT_FOUND, fh0)) ∧
  destroyPageFile w' name = (RC_FILE_NOT_FOUND, w') ∧
  (∀ fh, fileName fh = name →
     closePageFile w' (Some fh) = RC_FILE_NOT_FOUND ∧
     (∀ k, ensureCapacity w' k (Some fh) = (RC_FILE_NOT_FOUND, w', Some fh)) ∧
     (∀ pn mem, 0 ≤ pn < totalNumPages fh →
        readBlock w' pn (Some fh) (Some mem) = (RC_FILE_NOT_FOUND, Some fh, Some mem)) ∧
     (∀ pn mem, 0 ≤ pn ≤ totalNumPages fh →
        writeBlock w' pn (Some fh) (Some mem) = (RC_FILE_NOT_FOUND, w', Some fh))).
Proof.
  unfold destroyPageFile, fopen_r. destruct (files w name) as [f|] eqn:Hf; [|done].
  intros [= <-].
  assert (Hnone : files (mkWorld (λ n, if bool_decide (n = name) then None else files w n)
                           (trace w) (allocs w)) name = None).
  { simpl. by rewrite bool_decide_eq_true_2. }
  set (w' := mkWorld _ _ _) in *.
  split_and!.
  - done.
  - intros other Ho. simpl. by rewrite bool_decide_eq_false_2.
  - intros fh0. unfold openPageFile, fopen_r. by rewrite Hnone.
  - by rewrite Hnone.
  - intros fh <-. split_and!.
    + unfold closePageFile, fopen_r. by rewrite Hnone.
    + intros k. unfold ensureCapacity, fopen_r. by rewrite Hnone.
    + intros pn mem Hpn. unfold readBlock, fopen_r.
      replace ((pn <? 0) || (pn >=? totalNumPages fh)) with false
        by (symmetry; apply orb_false_iff; lia).
      by rewrite Hnone.
    + intros pn mem Hpn. unfold writeBlock, fopen_rw.
      replace ((pn <? 0) || (pn >? totalNumPages fh)) with false
        by (symmetry; apply orb_false_iff; lia).
      by rewrite Hnone.
Qed.

Lemma destroyPageFile_removes_witness :
  files (destroyPageFile (world_with "pages.bin" 1 true) "pages.bin").2 "pages.bin"
    = None.
Proof.
  destruct (destroyPageFile_removes (world_with "pages.bin" 1 true) "pages.bin"
              (destroyPageFile (world_with "pages.bin" 1 true) "pages.bin").2)
    as [Hf _].
  - vm_compute. reflexivity.
  - exact Hf.
Defined.

(** X9: on a file that does not exist [ensureCapacity] fails with
    [RC_FILE_NOT_FOUND] and changes nothing, whereas [appendEmptyBlock]
    succeeds: it creates the file with one page of zero bytes and counts one
    page more in the handle. *)
Theorem appendEmptyBlock_creates_missing_file w fh :
  files w (fileName fh) = None →
  can_alloc w →
  (∀ k, ensureCapacity w k (Some fh) = (RC_FILE_NOT_FOUND, w, Some fh)) ∧
  ∃ w',
    appendEmptyBlock w (Some fh)
      = (RC_OK, w', Some (set_totalNumPages fh (totalNumPages fh + 1))) ∧
    files w' (fileName fh) = Some (mkFile (replicate page_len x00) true) ∧
    (∀ other, other ≠ fileName fh → files w' other = files w other).
Proof.
  intros Hf Ha. split.
  - intros k. unfold ensureCapacity, fopen_r. by rewrite Hf.
  - unfold appendEmptyBlock, fopen_a. rewrite Hf.
    assert (Hm : (malloc (set_file w (fileName fh) (mkFile [] true))).1 = true).
    { unfold can_alloc, malloc in *. simpl. by destruct (allocs w). }
    destruct (malloc (set_file w (fileName fh) (mkFile [] true))) as [got w2] eqn:Em.
    simpl in Hm. subst got. simpl negb. cbv iota.
    eexists. split; [reflexivity|]. split.
    + rewrite files_fwrite_same. reflexivity.
    + intros other Ho. rewrite files_fwrite_other by done.
      replace w2 with (malloc (set_file w (fileName fh) (mkFile [] true))).2
        by (by rewrite Em).
      rewrite files_malloc. simpl. by rewrite bool_decide_eq_false_2.
Qed.

Lemma appendEmptyBlock_creates_missing_file_witness :
  ∃ w',
    appendEmptyBlock empty_world (Some (mkHandle "pages.bin" 0 0))
      = (RC_OK, w', Some (set_totalNumPages (mkHandle "pages.bin" 0 0) (0 + 1))).
Proof.
  destruct (appendEmptyBlock_creates_missing_file empty_world
              (mkHandle "pages.bin" 0 0)) as (_ & w' & E & _).
  - reflexivity.
  - vm_compute. reflexivity.
  - exists w'. exact E.
Defined.

(** X10: the relative reads on a file of whole pages and of at most [INT_MAX]
    bytes (every byte offset fits an [int]), with the position inside the
    file: current, first and last page are read and the position set to
    them; next and previous read the neighbour and move to it, or fail with
    [RC_READ_NON_EXISTING_PAGE] at the end of the file, leaving position and
    buffer as they are. *)
Theorem relative_reads w fh file (mem : list byte) :
  files w (fileName fh) = Some file →
  file_size file = totalNumPages fh * PAGE_SIZE →
  file_size file ≤ INT_MAX →
  0 ≤ curPagePos fh < totalNumPages fh →
  readCurrentBlock w (Some fh) (Some mem)
    = (RC_OK, Some fh, Some (page_of (contents file) (curPagePos fh))) ∧
  readFirstBlock w (Some fh) (Some mem)
    = (RC_OK, Some (set_curPagePos fh 0), Some (page_of (contents file) 0)) ∧
  readLastBlock w (Some fh) (Some mem)
    = (RC_OK, Some (set_curPagePos fh (totalNumPages fh - 1)),
       Some (page_of (contents file) (totalNumPages fh - 1))) ∧
  readNextBlock w (Some fh) (Some mem)
    = (if curPagePos fh + 1 <? totalNumPages fh
       then (RC_OK, Some (set_curPagePos fh (curPagePos fh + 1)),
             Some (page_of (contents file) (curPagePos fh + 1)))
       else (RC_READ_NON_EXISTING_PAGE, Some fh, Some mem)) ∧
  readPreviousBlock w (Some fh) (Some mem)
    = (if 0 <? curPagePos fh
       then (RC_OK, Some (set_curPagePos fh (curPagePos fh - 1)),
             Some (page_of (contents file) (curPagePos fh - 1)))
       else (RC_READ_NON_EXISTING_PAGE, Some fh, Some mem)).
Proof.
  intros Hf Hsz Hmax Hcur. pose proof PAGE_SIZE_pos as HP.
  assert (Hread : ∀ pn, 0 ≤ pn < totalNumPages fh →
            readBlock w pn (Some fh) (Some mem)
              = (RC_OK, Some (set_curPagePos fh pn), Some (page_of (contents file) pn))).
  { intros pn Hpn. apply readBlock_reads; [done|done|nia|nia]. }
  assert (Hout : ∀ pn, pn < 0 ∨ totalNumPages fh ≤ pn →
            readBlock w pn (Some fh) (Some mem)
              = (RC_READ_NON_EXISTING_PAGE, Some fh, Some mem)).
  { intros pn Hpn. unfold readBlock.
    replace ((pn <? 0) || (pn >=? totalNumPages fh)) with true; [done|].
    symmetry. apply orb_true_iff. lia. }
  split_and!.
  - unfold readCurrentBlock. rewrite Hread by lia. by destruct fh.
  - unfold readFirstBlock. by rewrite Hread by lia.
  - unfold readLastBlock. by rewrite Hread by lia.
  - unfold readNextBlock. destruct (curPagePos fh + 1 <? totalNumPages fh) eqn:E.
    + by rewrite Hread by lia.
    + by rewrite Hout by lia.
  - unfold readPreviousBlock. destruct (0 <? curPagePos fh) eqn:E.
    + by rewrite Hread by lia.
    + by rewrite Hout by lia.
Qed.

Lemma relative_reads_witness :
  readCurrentBlock (world_with "pages.bin" 3 true)
                   (Some (mkHandle "pages.bin" 3 1)) (Some [])
    = (RC_OK, Some (mkHandle "pages.bin" 3 1),
       Some (page_of (contents (zero_file 3 true)) 1)).
Proof.
  destruct (relative_reads (world_with "pages.bin" 3 true)
              (mkHandle "pages.bin" 3 1) (zero_file 3 true) []) as (Hc & _).
  - vm_compute. reflexivity.
  - vm_compute. reflexivity.
  - vm_compute. discriminate.
  - vm_compute. split; [discriminate|reflexivity].
  - exact Hc.
Defined.

(** ** The buffer manager: errors and single calls *)

(** X11: when the page file of a pool does not exist, [pinPage] (even of a
    page that is in a frame), [forcePage], [forceFlushPool] and
    [shutdownBufferPool] all fail with [RC_FILE_NOT_FOUND] and leave files,
    pool and page handle as they are. *)
Theorem pool_without_page_file w b p :
  mgmtData b = Some p →
  files w (pageFile b) = None →
  (∀ pg pn, pinPage w (Some b) (Some pg) pn = (RC_FILE_NOT_FOUND, w, Some b, Some pg)) ∧
  (∀ pg, forcePage w (Some b) (Some pg) = (RC_FILE_NOT_FOUND, w, Some b)) ∧
  forceFlushPool w (Some b) = (RC_FILE_NOT_FOUND, w, Some b) ∧
  shutdownBufferPool w (Some b) = (RC_FILE_NOT_FOUND, w, Some b).
Proof.
  intros Hp Hf.
  assert (E : openPageFile w (pageFile b) blank_handle = (RC_FILE_NOT_FOUND, blank_handle)).
  { unfold openPageFile, fopen_r. by rewrite Hf. }
  assert (Efl : forceFlushPool w (Some b) = (RC_FILE_NOT_FOUND, w, Some b)).
  { unfold forceFlushPool. by rewrite Hp, E. }
  split_and!.
  - intros pg pn. unfold pinPage. by rewrite Hp, E.
  - intros pg. unfold forcePage. by rewrite Hp, E.
  - exact Efl.
  - unfold shutdownBufferPool. by rewrite Hp, Efl.
Qed.

Lemma pool_without_page_file_witness :
  pinPage empty_world (Some (pool_of one_pinned)) (Some blank_page) 0
    = (RC_FILE_NOT_FOUND, empty_world, Some (pool_of one_pinned), Some blank_page).
Proof.
  destruct (pool_without_page_file empty_world (pool_of one_pinned)
              (info_of one_pinned)) as (Hpin & _).
  - vm_compute. reflexivity.
  - vm_compute. reflexivity.
  - exact (Hpin blank_page 0).
Defined.

(** X12: [markDirty] on a page that is in no frame fails with [RC_ERROR] and
    changes nothing; on a page that is in a frame it sets the dirty flag of the
    first frame with that page and changes nothing else, whether the page is
    pinned or not, and without touching any file. *)
Theorem markDirty_spec w b p pg :
  mgmtData b = Some p →
  (not_resident (frames p) (pageNum pg) →
     markDirty w (Some b) (Some pg) = (RC_ERROR, w, Some b)) ∧
  (∀ i f, resident_at (frames p) (pageNum pg) i f →
     markDirty w (Some b) (Some pg)
       = (RC_OK, w,
          Some (set_mgmtData b
                  (Some (set_frames p (<[i := set_dirtybit f true]> (frames p))))))).
Proof.
  intros Hp. unfold markDirty. rewrite Hp. split.
  - intros Hn. apply not_resident_find in Hn. by rewrite Hn.
  - intros i f Hr. apply resident_at_find in Hr. by rewrite Hr.
Qed.

Lemma markDirty_spec_witness :
  markDirty one_pinned.1.1 (Some (pool_of one_pinned)) (Some (mkPage 5 None))
    = (RC_ERROR, one_pinned.1.1, Some (pool_of one_pinned)).
Proof.
  destruct (markDirty_spec one_pinned.1.1 (pool_of one_pinned)
              (info_of one_pinned) (mkPage 5 None)) as [Hno _].
  - vm_compute. reflexivity.
  - apply Hno. vm_compute. repeat constructor; discriminate.
Defined.

(** X13: [forcePage] on a page in a frame with a buffer, the page lying within
    the file or just past its end, at a byte offset that fits an [int] (a page
    below 524288): when the file cannot be opened for writing it fails with
    [RC_WRITE_FAILED] and changes nothing; otherwise it writes the buffer,
    clean or dirty, pinned or not, with one [fwrite], the page of the file
    then holds the buffer, the frame is clean and one write is counted. *)
Theorem forcePage_resident w b p pg i f file buf :
  mgmtData b = Some p →
  resident_at (frames p) (pageNum pg) i f →
  data f = Some buf →
  files w (pageFile b) = Some file →
  0 ≤ pageNumber f ≤ pages_of_size (file_size file) →
  pageNumber f * PAGE_SIZE ≤ INT_MAX →
  (writable file = false →
     forcePage w (Some b) (Some pg) = (RC_WRITE_FAILED, w, Some b)) ∧
  (writable file = true →
     ∃ w' file',
       forcePage w (Some b) (Some pg)
         = (RC_OK, w',
            Some (set_mgmtData b
                    (Some (set_writeCount
                             (set_frames p (<[i := set_dirtybit f false]> (frames p)))
                             (writeCount p + 1))))) ∧
       trace w' = trace w ++ [frame_write (pageFile b) f] ∧
       files w' (pageFile b) = Some file' ∧
       page_of (contents file') (pageNumber f) = page_bytes buf).
Proof.
  intros Hp Hr Hbuf Hf Hpn Hmax. apply resident_at_find in Hr.
  pose proof (page_offset_id _ (proj1 Hpn) Hmax) as Ho.
  unfold forcePage. rewrite Hp.
  destruct (openPageFile_cases w (pageFile b) blank_handle) as [(f0 & Hf0 & E)|[Hf0 E]];
    [|congruence].
  assert (f0 = file) as -> by congruence. rewrite E, Hr.
  destruct (writeBlock_cases w (pageNumber f)
              (mkHandle (pageFile b) (pages_of_size (file_size file)) 0) (data f))
    as [(buf' & file' & Hb & _ & Hf' & Hw' & Ew) | (rc & Hrc & Ew & Hwhy)];
    rewrite Ew.
  - cbn [fileName] in Hf'. assert (file' = file) as -> by congruence.
    assert (buf' = buf) as -> by congruence.
    split; [congruence|]. intros _.
    eexists _, _. split; [reflexivity|]. split_and!.
    + simpl. unfold frame_write. by rewrite Hbuf.
    + cbn [fileName]. apply files_fwrite_same.
    + cbn [contents]. unfold page_of. rewrite Ho.
      etrans; [|apply (pread_pwrite (contents file))].
      by rewrite page_bytes_length.
  - split.
    + intros _. by destruct rc.
    + intros Hw. exfalso. cbn [fileName totalNumPages] in Hwhy.
      unfold fopen_rw in Hwhy. rewrite Hf, Hw, Hbuf, Ho in Hwhy.
      pose proof PAGE_SIZE_pos.
      destruct Hwhy as [?|[?|[?|[?|?]]]]; try done; nia.
Qed.

Lemma forcePage_resident_witness :
  ∃ w' file',
    files w' "pages.bin" = Some file' ∧
    page_of (contents file') 0 = page_bytes (replicate page_len x00).
Proof.
  destruct (forcePage_resident one_pinned.1.1 (pool_of one_pinned)
              (info_of one_pinned) (mkPage 0 None) 0 (frame_of one_pinned 0)
              (zero_file 1 true) (replicate page_len x00)) as [_ Hw].
  - vm_compute. reflexivity.
  - split_and!; [vm_compute; reflexivity|vm_compute; reflexivity|].
    intros j g _ Hj. lia.
  - vm_compute. reflexivity.
  - vm_compute. reflexivity.
  - vm_compute. split; discriminate.
  - vm_compute. discriminate.
  - destruct (Hw eq_refl) as (w' & file' & _ & _ & Hf & Hp).
    exists w', file'. split; [exact Hf|exact Hp].
Defined.

Lemma flush_frames_pages fs : ∀ w fh n rc w' fs' n',
  flush_frames w fh fs n = (rc, w', fs', n') →
  Forall2 (λ f f', f' = f ∨ f' = set_dirtybit f false) fs fs'.
Proof.
  induction fs as [|f rest IH]; intros w fh n rc w' fs' n' H.
  - simpl in H. injection H as <- <- <- <-. constructor.
  - rewrite flush_frames_cons in H. destruct (flushable f).
    + destruct (writeBlock w (pageNumber f) fh (data f)) as [[rc1 w1] fh1].
      destruct (decide (rc1 = RC_OK)) as [->|Hrc].
      * destruct (flush_frames w1 fh1 rest (n + 1)) as [[[rc' w''] rest'] k] eqn:Er.
        injection H as <- <- <- <-. constructor; [by right|by eapply IH].
      * assert (H' : (RC_WRITE_FAILED, w1, f :: rest, n) = (rc, w', fs', n'))
          by (destruct rc1; done).
        injection H' as <- <- <- <-. apply Forall2_same_length_lookup_2; [done|].
        intros i x y Hx Hy. left. congruence.
    + destruct (flush_frames w fh rest n) as [[[rc' w''] rest'] k] eqn:Er.
      injection H as <- <- <- <-. constructor; [by left|by eapply IH].
Qed.


(** X14: with a pinned frame in the pool, [shutdownBufferPool] is a
    [forceFlushPool] whose success is turned into
    [RC_PINNED_PAGES_IN_BUFFER]: the dirty unpinned pages are written all the
    same and the pool keeps its frames. *)
Theorem shutdownBufferPool_pinned w b p :
  mgmtData b = Some p →
  Exists (λ f, accessCount f ≠ 0) (frames p) →
  shutdownBufferPool w (Some b)
    = match forceFlushPool w (Some b) with
      | (RC_OK, w', bm') => (RC_PINNED_PAGES_IN_BUFFER, w', bm')
      | r => r
      end.
Proof.
  intros Hp Hex. unfold shutdownBufferPool. rewrite Hp.
  destruct (forceFlushPool w (Some b)) as [[rc w'] bm'] eqn:Ef.
  destruct rc; try done.
  unfold forceFlushPool in Ef. rewrite Hp in Ef.
  destruct (openPageFile w (pageFile b) blank_handle) as [rco fh].
  destruct rco; try done.
  destruct (flush_frames _ _ _ _) as [[[rc1 w1] fs1] n1] eqn:Efl.
  injection Ef as -> <- <-. cbn [mgmtData set_mgmtData frames set_frames set_writeCount].
  apply flush_frames_pages in Efl.
  destruct (list_find _ fs1) as [?|] eqn:Efind; [done|].
  exfalso. apply list_find_None in Efind.
  apply Exists_exists in Hex as (f & Hin & Hf).
  apply list_elem_of_lookup in Hin as [i Hi].
  destruct (Forall2_lookup_l _ _ _ _ _ Efl Hi) as (f' & Hi' & Hrel).
  rewrite Forall_lookup in Efind. specialize (Efind _ _ Hi'). simpl in Efind.
  destruct Hrel as [->| ->]; simpl in Efind; done.
Qed.

Lemma shutdownBufferPool_pinned_witness :
  shutdownBufferPool one_pinned.1.1 (Some (pool_of one_pinned))
    = match forceFlushPool one_pinned.1.1 (Some (pool_of one_pinned)) with
      | (RC_OK, w', bm') => (RC_PINNED_PAGES_IN_BUFFER, w', bm')
      | r => r
      end.
Proof.
  apply (shutdownBufferPool_pinned one_pinned.1.1 (pool_of one_pinned)
           (info_of one_pinned)).
  - vm_compute. reflexivity.
  - vm_compute. constructor. discriminate.
Defined.

(** ** What a replacement strategy does to the pool *)

Lemma chance_cleared_refl fs : chance_cleared fs fs.
Proof.
  apply Forall2_same_length_lookup_2; [done|]. intros i x y Hx Hy. left. congruence.
Qed.

Lemma chance_cleared_insert fs j f :
  fs !! j = Some f → accessCount f = 0 →
  chance_cleared fs (<[j := set_secondChance f false]> fs).
Proof.
  intros Hj H0. apply Forall2_same_length_lookup_2; [by rewrite length_insert|].
  intros i x y Hx Hy. destruct (decide (i = j)) as [->|Hne].
  - rewrite list_lookup_insert_eq in Hy by (by eapply lookup_lt_Some).
    right. assert (x = f) as -> by congruence. split; [done|congruence].
  - rewrite list_lookup_insert_ne in Hy by done. left. congruence.
Qed.

Lemma chance_cleared_trans fs1 fs2 fs3 :
  chance_cleared fs1 fs2 → chance_cleared fs2 fs3 → chance_cleared fs1 fs3.
Proof.
  intros H12 H23. apply Forall2_same_length_lookup_2.
  { rewrite (Forall2_length _ _ _ H12). by apply (Forall2_length _ _ _ H23). }
  intros i x z Hx Hz.
  destruct (Forall2_lookup_l _ _ _ _ _ H12 Hx) as (y & Hy & Hxy).
  destruct (Forall2_lookup_l _ _ _ _ _ H23 Hy) as (z' & Hz' & Hyz).
  assert (z' = z) as -> by congruence.
  destruct Hxy as [->|[H0 ->]]; [done|].
  destruct Hyz as [->|[_ ->]]; right; (split; [done|]); by destruct x.
Qed.

Lemma evicts_none page fs : evicts page fs fs.
Proof. exists fs. split; [apply chance_cleared_refl|by left]. Qed.

Lemma write_victim_counts w name p f w' p' :
  write_victim w name p f = (w', p') →
  writeCount p ≤ writeCount p' ≤ writeCount p + 1.
Proof.
  unfold write_victim. destruct (dirtybit f); [|intros [= <- <-]; lia].
  destruct (openPageFile w name blank_handle) as [rc fh].
  destruct rc; try (intros [= <- <-]; lia).
  destruct (writeBlock _ _ _ _) as [[? ?] ?]. intros [= <- <-]. simpl. lia.
Qed.

Lemma installed_FIFO f page : installed f page (replace_FIFO f page).
Proof. unfold installed. simpl. split_and!; auto. Qed.

Lemma installed_LRU f page : installed f page (replace_LRU f page).
Proof. unfold installed. simpl. split_and!; auto. Qed.

Lemma installed_CLOCK f page : installed f page (replace_CLOCK f page).
Proof. unfold installed. simpl. split_and!; auto. Qed.

Lemma strategy_result_refl page p : strategy_result page p p.
Proof. (split; [|split; [|split]]); [apply evicts_none|done|done|lia]. Qed.

Lemma FIFO_loop_result n : ∀ w name p page w' p',
  FIFO_loop n w name p page = (w', p') → strategy_result page p p'.
Proof.
  induction n as [|n IH]; intros w name p page w' p' H; simpl in H.
  - injection H as <- <-. apply strategy_result_refl.
  - destruct (frame_at (frames p) (frameIndex p)) as [f|] eqn:Ef.
    2:{ injection H as <- <-. apply strategy_result_refl. }
    apply frame_at_Some in Ef as [Hidx Ef].
    destruct (accessCount f =? 0) eqn:Ec.
    + destruct (write_victim w name p f) as [w1 p1] eqn:Ev.
      pose proof (write_victim_counts _ _ _ _ _ _ Ev) as Hwc.
      apply write_victim_frames in Ev as (Hfr & _ & _ & Hrc & Hhc).
      injection H as <- <-. (split; [|split; [|split]]); simpl; [|done|done|lia].
      rewrite Hfr. exists (frames p). split; [apply chance_cleared_refl|].
      right. exists (Z.to_nat (frameIndex p)), f, (replace_FIFO f page).
      split_and!; [done|lia|apply installed_FIFO|done].
    + apply IH in H. destruct H as (He & ? & ? & ?).
      (split; [|split; [|split]]); done.
Qed.

Lemma LRU_result w b p page w' p' :
  LRU w b p page = (w', p') → strategy_result page p p'.
Proof.
  unfold LRU. intros H.
  destruct (LRU_scan_unpinned (frames p) 0 (-1) (recentHitCount p + 1) ltac:(lia))
    as [E|(Hle & g & Hg & Hc)].
  - rewrite E in H. simpl in H. injection H as <- <-.
    apply strategy_result_refl.
  - set (r := (LRU_scan (frames p) 0 (-1) (recentHitCount p + 1)).1) in *.
    destruct (r =? -1);
      [injection H as <- <-; apply strategy_result_refl|].
    destruct (frame_at (frames p) r) as [f|] eqn:Ef.
    2:{ injection H as <- <-. apply strategy_result_refl. }
    apply frame_at_Some in Ef as [Hidx Ef].
    rewrite Z.sub_0_r in Hg. assert (g = f) as -> by congruence.
    destruct (write_victim w (pageFile b) p f) as [w1 p1] eqn:Ev.
    pose proof (write_victim_counts _ _ _ _ _ _ Ev) as Hwc.
    apply write_victim_frames in Ev as (Hfr & _ & _ & Hrc & Hhc).
    injection H as <- <-. (split; [|split; [|split]]); simpl; [|done|done|lia].
    rewrite Hfr. exists (frames p). split; [apply chance_cleared_refl|].
    right. exists (Z.to_nat r), f, (replace_LRU f page).
    split_and!; [done|done|apply installed_LRU|done].
Qed.

Lemma evicts_after_clear page fs fs1 fs' :
  chance_cleared fs fs1 → evicts page fs1 fs' → evicts page fs fs'.
Proof.
  intros Hc (fs2 & Hc2 & Hres). exists fs2. split; [|done].
  by eapply chance_cleared_trans.
Qed.

Lemma CLOCK_loop_result n : ∀ w name p page w' p',
  CLOCK_loop n w name p page = (w', p') → strategy_result page p p'.
Proof.
  induction n as [|n IH]; intros w name p page w' p' H; simpl in H.
  - injection H as <- <-. apply strategy_result_refl.
  - destruct (frame_at (frames p) (clockPointer p)) as [f|] eqn:Ef.
    2:{ injection H as <- <-. apply strategy_result_refl. }
    apply frame_at_Some in Ef as [Hidx Ef].
    destruct (accessCount f =? 0) eqn:Ec.
    + destruct (secondChance f); simpl in H.
      * apply IH in H. destruct H as (He & ? & ? & ?). simpl in *.
        (split; [|split; [|split]]); [|done..].
        eapply evicts_after_clear; [|exact He].
        apply chance_cleared_insert; [done|lia].
      * destruct (write_victim w name p f) as [w1 p1] eqn:Ev.
        pose proof (write_victim_counts _ _ _ _ _ _ Ev) as Hwc.
        apply write_victim_frames in Ev as (Hfr & _ & _ & Hrc & Hhc).
        injection H as <- <-. (split; [|split; [|split]]); simpl; [|done|done|lia].
        rewrite Hfr. exists (frames p). split; [apply chance_cleared_refl|].
        right. exists (Z.to_nat (clockPointer p)), f, (replace_CLOCK f page).
        split_and!; [done|lia|apply installed_CLOCK|done].
    + apply IH in H. destruct H as (He & ? & ? & ?).
      (split; [|split; [|split]]); done.
Qed.

(** ** The outcomes of pinPage *)

Lemma readBlock_ok_inv w pn fh mem fh' buf :
  readBlock w pn fh (Some mem) = (RC_OK, fh', buf) →
  0 ≤ pn ∧ ∃ bs, buf = Some bs ∧ length bs = page_len.
Proof.
  unfold readBlock. destruct fh as [h|]; [|done].
  destruct ((pn <? 0) || (pn >=? totalNumPages h)) eqn:E; [done|].
  apply orb_false_iff in E.
  destruct (fopen_r w (fileName h)) as [f|]; [|done].
  destruct (negb (fseek_set (page_offset pn))); [done|].
  set (got := pread (contents f) (Z.to_nat (page_offset pn)) page_len).
  destruct (Z.of_nat (length got) <? PAGE_SIZE) eqn:El; [done|].
  intros [= <- <-]. split; [lia|]. eexists. split; [reflexivity|].
  assert (length got ≤ page_len)%nat by (unfold got, pread; rewrite length_take; lia).
  pose proof page_len_Z. rewrite length_app, length_drop, page_bytes_length. lia.
Qed.

Lemma pinPage_outcome w b p pg pn rc w' bm' pg' :
  mgmtData b = Some p →
  pinPage w (Some b) (Some pg) pn = (rc, w', bm', pg') →
  ∃ p', bm' = Some (set_mgmtData b (Some p')) ∧ pin_outcome b p pn rc p'.
Proof.
  intros Hp H. unfold pinPage in H. rewrite Hp in H.
  destruct (openPageFile w (pageFile b) blank_handle) as [rco fh].
  destruct rco;
    try (injection H as <- <- <- <-; exists p;
         rewrite (set_mgmtData_same _ _ Hp); split; [done|constructor]).
  destruct (list_find (λ f, pageNumber f = pn) (frames p)) as [[i f]|] eqn:Eh.
  { apply resident_at_find in Eh.
    destruct (pinPage_hit b p i f pn) as [p1 pg1] eqn:E.
    injection H as <- <- <- <-. exists p1. split; [done|].
    unfold pinPage_hit in E. injection E as <- <-.
    pose proof Eh as (_ & Hpn & _).
    eapply pin_hit; [exact Eh|..]; destruct (strategy b); simpl; auto. }
  apply not_resident_find in Eh.
  destruct (list_find (λ f, pageNumber f = NO_PAGE) (frames p)) as [[i f]|] eqn:Ee.
  { apply resident_at_find in Ee.
    destruct (pinPage_empty w fh b p i f pg pn) as [[[rc1 w1] p1] pg1] eqn:E.
    injection H as <- <- <- <-. exists p1. split; [done|].
    unfold pinPage_empty in E.
    destruct (malloc w) as [got1 w2]. destruct got1; simpl in E.
    2:{ injection E as <- <- <- <-. eapply pin_load_failed; eauto. }
    destruct (ensureCapacity w2 (int_wrap (pn + 1)) (Some fh)) as [[rc3 w3] fh3].
    destruct (readBlock w3 pn fh3 _) as [[rcr fhr] buf] eqn:Er.
    destruct rcr; try (injection E as <- <- <- <-; eapply pin_load_failed; eauto).
    apply readBlock_ok_inv in Er as (Hpn & bs & -> & Hlen).
    injection E as <- <- <- <-.
    match goal with
    | |- pin_outcome _ _ _ _ (set_recentHitCount (set_readCount (set_frames _ (<[_ := ?g]> _)) _) _) =>
        apply (pin_loaded b p pn i f g); [done|done|done|]
    end.
    unfold fresh_frame. destruct (strategy b); simpl; split_and!; eauto. }
  apply not_resident_find in Ee.
  destruct (pinPage_replace w fh b p pg pn) as [[[rc1 w1] p1] pg1] eqn:E.
  injection H as <- <- <- <-. exists p1. split; [done|].
  unfold pinPage_replace in E.
  destruct (malloc w) as [got1 w2]. destruct got1; simpl in E.
  2:{ injection E as <- <- <- <-. eapply pin_replace_failed; eauto. }
  destruct (malloc w2) as [got2 w3]. destruct got2; simpl in E.
  2:{ injection E as <- <- <- <-. eapply pin_replace_failed; eauto. }
  destruct (ensureCapacity w3 (int_wrap (pn + 1)) (Some fh)) as [[rc3 w4] fh3].
  destruct (readBlock w4 pn fh3 _) as [[rcr fhr] buf] eqn:Er.
  destruct rcr; try (injection E as <- <- <- <-; eapply pin_replace_failed; eauto).
  apply readBlock_ok_inv in Er as (Hpn & bs & -> & Hlen).
  destruct (strategy b) eqn:Es.
  - destruct (FIFO _ _ _ _) as [w5 p2] eqn:Ef. injection E as <- <- <- <-.
    apply FIFO_loop_result in Ef.
    eapply pin_replaced; [done|done|congruence|done| |exact Ef].
    unfold fresh_frame. simpl. split_and!; eauto.
  - destruct (LRU _ _ _ _) as [w5 p2] eqn:Ef. injection E as <- <- <- <-.
    apply LRU_result in Ef.
    eapply pin_replaced; [done|done|congruence|done| |exact Ef].
    unfold fresh_frame. simpl. split_and!; eauto.
  - destruct (CLOCK _ _ _ _) as [w5 p2] eqn:Ef. injection E as <- <- <- <-.
    apply CLOCK_loop_result in Ef.
    eapply pin_replaced; [done|done|congruence|done| |exact Ef].
    unfold fresh_frame. simpl. split_and!; eauto.
  - injection E as <- <- <- <-. by apply pin_bad_strategy.
Qed.

(** ** The invariant of the pool *)

Lemma not_resident_lookup fs pn i f :
  not_resident fs pn → fs !! i = Some f → pageNumber f ≠ pn.
Proof. intros H Hi. exact (proj1 (Forall_lookup _ _) H i f Hi). Qed.

Lemma frames_inv_insert_same fs c c' i f f' :
  frames_inv fs c → fs !! i = Some f →
  frame_ok f' → pageNumber f' = pageNumber f → recentHit f' ≤ c' → c ≤ c' →
  frames_inv (<[i := f']> fs) c'.
Proof.
  intros (Hok & Hu & Hr) Hi Hf' Hpn Hrf Hc.
  assert (Hlt : (i < length fs)%nat) by (eapply lookup_lt_Some; eauto).
  split_and!.
  - apply Forall_insert; done.
  - intros a b' x y Ha Hb Hxy Hx.
    destruct (decide (a = i)) as [->|Hai], (decide (b' = i)) as [->|Hbi]; [done|..].
    + rewrite list_lookup_insert_eq in Ha by done.
      rewrite list_lookup_insert_ne in Hb by done.
      injection Ha as <-. eapply Hu; eauto; congruence.
    + rewrite list_lookup_insert_ne in Ha by done.
      rewrite list_lookup_insert_eq in Hb by done.
      injection Hb as <-. eapply Hu; eauto; congruence.
    + rewrite list_lookup_insert_ne in Ha by done.
      rewrite list_lookup_insert_ne in Hb by done. eapply Hu; eauto.
  - apply Forall_insert; [|done].
    eapply Forall_impl; [exact Hr|]. simpl. intros; lia.
Qed.

Lemma frames_inv_insert_new fs c c' i f' :
  frames_inv fs c → (i < length fs)%nat →
  frame_ok f' → not_resident fs (pageNumber f') → recentHit f' ≤ c' → c ≤ c' →
  frames_inv (<[i := f']> fs) c'.
Proof.
  intros (Hok & Hu & Hr) Hlt Hf' Hnr Hrf Hc.
  split_and!.
  - apply Forall_insert; done.
  - intros a b' x y Ha Hb Hxy Hx.
    destruct (decide (a = i)) as [->|Hai], (decide (b' = i)) as [->|Hbi]; [done|..].
    + rewrite list_lookup_insert_eq in Ha by done.
      rewrite list_lookup_insert_ne in Hb by done.
      injection Ha as <-. by destruct (not_resident_lookup _ _ _ _ Hnr Hb).
    + rewrite list_lookup_insert_ne in Ha by done.
      rewrite list_lookup_insert_eq in Hb by done.
      injection Hb as <-. by destruct (not_resident_lookup _ _ _ _ Hnr Ha).
    + rewrite list_lookup_insert_ne in Ha by done.
      rewrite list_lookup_insert_ne in Hb by done. eapply Hu; eauto.
  - apply Forall_insert; [|done].
    eapply Forall_impl; [exact Hr|]. simpl. intros; lia.
Qed.

Lemma frames_inv_rel (R : FrameInfo → FrameInfo → Prop) fs fs' c :
  (∀ f f', R f f' → frame_ok f →
     frame_ok f' ∧ pageNumber f' = pageNumber f ∧ recentHit f' = recentHit f) →
  frames_inv fs c → Forall2 R fs fs' → frames_inv fs' c.
Proof.
  intros HR (Hok & Hu & Hr) H2.
  assert (Hall : ∀ i f', fs' !! i = Some f' →
            ∃ f, fs !! i = Some f ∧ frame_ok f' ∧
                 pageNumber f' = pageNumber f ∧ recentHit f' = recentHit f).
  { intros i f' Hi. destruct (Forall2_lookup_r _ _ _ _ _ H2 Hi) as (f & Hf & Hrel).
    exists f. split; [done|]. apply HR; [done|].
    exact (proj1 (Forall_lookup _ _) Hok i f Hf). }
  split_and!.
  - apply Forall_lookup. intros i f' Hi. by destruct (Hall i f' Hi) as (f & _ & ? & _).
  - intros a b' x y Ha Hb Hxy Hx.
    destruct (Hall a x Ha) as (x0 & Hx0 & _ & Hpx & _).
    destruct (Hall b' y Hb) as (y0 & Hy0 & _ & Hpy & _).
    eapply Hu; eauto; congruence.
  - apply Forall_lookup. intros i f' Hi.
    destruct (Hall i f' Hi) as (f & Hf & _ & _ & Hrh).
    pose proof (proj1 (Forall_lookup _ _) Hr i f Hf) as Hle. simpl in Hle. lia.
Qed.

Lemma frames_inv_mono fs c c' : frames_inv fs c → c ≤ c' → frames_inv fs c'.
Proof.
  intros (Hok & Hu & Hr) Hc. split_and!; [done|done|].
  eapply Forall_impl; [exact Hr|]. simpl. intros; lia.
Qed.

Lemma not_resident_rel (R : FrameInfo → FrameInfo → Prop) fs fs' pn :
  (∀ f f', R f f' → pageNumber f' = pageNumber f) →
  not_resident fs pn → Forall2 R fs fs' → not_resident fs' pn.
Proof.
  intros HR Hn H2. apply Forall_lookup. intros i f' Hi.
  destruct (Forall2_lookup_r _ _ _ _ _ H2 Hi) as (f & Hf & Hrel).
  rewrite (HR _ _ Hrel). eapply not_resident_lookup; eauto.
Qed.

Lemma frame_ok_fresh p pn old g :
  0 ≤ pn → fresh_frame p pn old g → frame_ok g.
Proof.
  intros Hpn (Hg & Ha & _ & Hbuf & _). unfold frame_ok, NO_PAGE.
  rewrite Hg, Ha. split_and!; [lia|lia|]. intros _. split; [done|exact Hbuf].
Qed.

Lemma frames_inv_evicts page fs fs' c :
  frames_inv fs c → evicts page fs fs' →
  frame_ok page → not_resident fs (pageNumber page) → recentHit page ≤ c →
  frames_inv fs' c.
Proof.
  intros Hinv (fs1 & Hcc & Hfs') Hpg Hnr Hrh.
  assert (Hinv1 : frames_inv fs1 c).
  { eapply frames_inv_rel; [|exact Hinv|exact Hcc].
    intros f f' [->|[_ ->]] Hf; [done|]. by destruct f. }
  assert (Hnr1 : not_resident fs1 (pageNumber page)).
  { eapply not_resident_rel; [|exact Hnr|exact Hcc].
    intros f f' [->|[_ ->]]; [done|]. by destruct f. }
  destruct Hfs' as [->|(v & f & g & Hv & Ha & (Hgp & Hgd & Hga & Hgdata & Hgr) & ->)];
    [done|].
  eapply frames_inv_insert_new; [exact Hinv1|by eapply lookup_lt_Some| |by rewrite Hgp| |lia].
  - destruct Hpg as (H1 & H2 & H3). unfold frame_ok.
    rewrite Hgp, Hga, Hgdata. done.
  - destruct Hgr as [->| ->]; [|done].
    destruct Hinv1 as (_ & _ & Hr1).
    exact (proj1 (Forall_lookup _ _) Hr1 v f Hv).
Qed.

Lemma evicts_length page fs fs' : evicts page fs fs' → length fs' = length fs.
Proof.
  intros (fs1 & Hcc & Hfs'). apply Forall2_length in Hcc.
  destruct Hfs' as [->|(v & f & g & _ & _ & _ & ->)]; [done|].
  by rewrite length_insert.
Qed.

Lemma pin_outcome_inv b p pn rc p' :
  pool_inv b p → pin_outcome b p pn rc p' → pool_inv b p'.
Proof.
  intros (Hsz & Hn & Hinv & Hh & Hr & Hw) Hout. unfold bufferSize in *.
  destruct Hout as [ |i f f' (Hi & Hpf & _) Ha Hpn Hd Hdb Hrh
                     |i f rc0 Hnr (Hi & Hpf & _) Hrc
                     |i f g Hnr (Hi & Hpf & _) Hpn0 Hfresh
                     |rc0 Hnr Hne Hrc
                     |page p' Hnr Hne Hs Hpn0 Hfresh (Hev & Hrd & Hhit & Hwr)
                     |Hnr Hne Hs]; unfold pool_inv, bufferSize; simpl.
  - done.
  - rewrite length_insert. split_and!; try done; try lia.
    eapply frames_inv_insert_same; [exact Hinv|exact Hi| |congruence| |lia].
    + destruct Hinv as (Hok & _).
      destruct (proj1 (Forall_lookup _ _) Hok i f Hi) as (H1 & H2 & H3).
      unfold frame_ok. rewrite Ha, Hd, Hpn, <- Hpf. split_and!; [lia|done|done].
    + destruct Hinv as (_ & _ & Hr0).
      pose proof (proj1 (Forall_lookup _ _) Hr0 i f Hi) as Hle. simpl in Hle.
      destruct Hrh as [->| ->]; lia.
  - rewrite length_insert. split_and!; try done.
    eapply frames_inv_insert_same; [exact Hinv|exact Hi| |by destruct f| |lia].
    + destruct Hinv as (Hok & _).
      destruct (proj1 (Forall_lookup _ _) Hok i f Hi) as (H1 & H2 & H3).
      destruct f; simpl in *. unfold frame_ok; simpl. split_and!; [done|done|]. 
      intros; congruence.
    + destruct Hinv as (_ & _ & Hr0).
      pose proof (proj1 (Forall_lookup _ _) Hr0 i f Hi) as Hle. by destruct f.
  - rewrite length_insert. split_and!; try done; try lia.
    pose proof Hfresh as (Hg & _ & _ & _ & Hrh).
    eapply frames_inv_insert_new; [exact Hinv|by eapply lookup_lt_Some
      |by eapply frame_ok_fresh|by rewrite Hg| |lia].
    destruct Hinv as (_ & _ & Hr0).
    pose proof (proj1 (Forall_lookup _ _) Hr0 i f Hi) as Hle. simpl in Hle.
    destruct Hrh as [->| ->]; lia.
  - done.
  - simpl in *. rewrite (evicts_length _ _ _ Hev), Hhit, Hrd.
    split_and!; try done; try lia.
    pose proof Hfresh as (Hg & _ & _ & _ & Hrh).
    eapply frames_inv_evicts; [|exact Hev|by eapply frame_ok_fresh|by rewrite Hg|].
    + eapply frames_inv_mono; [exact Hinv|lia].
    + simpl in Hrh. destruct Hrh as [->| ->]; lia.
  - split_and!; try done; try lia. eapply frames_inv_mono; [exact Hinv|lia].
Qed.

Lemma flush_frames_rel fs : ∀ w fh n rc w' fs' n',
  flush_frames w fh fs n = (rc, w', fs', n') →
  Forall2 (λ f f', f' = f ∨ f' = set_dirtybit f false) fs fs' ∧ n ≤ n'.
Proof.
  induction fs as [|f rest IH]; intros w fh n rc w' fs' n' H.
  - simpl in H. injection H as <- <- <- <-. split; [constructor|lia].
  - rewrite flush_frames_cons in H. destruct (flushable f).
    + destruct (writeBlock w (pageNumber f) fh (data f)) as [[rc1 w1] fh1].
      destruct (decide (rc1 = RC_OK)) as [->|Hrc].
      * destruct (flush_frames w1 fh1 rest (n + 1)) as [[[rc' w''] rest'] k] eqn:Er.
        injection H as <- <- <- <-. destruct (IH _ _ _ _ _ _ _ Er) as [H2 Hle].
        split; [constructor; auto|lia].
      * assert (H' : (RC_WRITE_FAILED, w1, f :: rest, n) = (rc, w', fs', n'))
          by (destruct rc1; done).
        injection H' as <- <- <- <-. split; [|lia].
        apply Forall2_same_length_lookup_2; [done|]. intros i x y Hx Hy. left. congruence.
    + destruct (flush_frames w fh rest n) as [[[rc' w''] rest'] k] eqn:Er.
      injection H as <- <- <- <-. destruct (IH _ _ _ _ _ _ _ Er) as [H2 Hle].
      split; [constructor; auto|lia].
Qed.

Lemma frame_ok_set_dirtybit f d : frame_ok f → frame_ok (set_dirtybit f d).
Proof. by destruct f. Qed.

Lemma frame_ok_set_accessCount f n : frame_ok f → 0 ≤ n → frame_ok (set_accessCount f n).
Proof. destruct f. unfold frame_ok. simpl. tauto. Qed.

Lemma pool_inv_update b p i f f' :
  pool_inv b p → frames p !! i = Some f →
  frame_ok f' → pageNumber f' = pageNumber f → recentHit f' = recentHit f →
  pool_inv b (set_frames p (<[i := f']> (frames p))).
Proof.
  intros (Hsz & Hn & Hinv & Hh & Hr & Hw) Hi Hok Hpn Hrh.
  unfold pool_inv, bufferSize in *. simpl. rewrite length_insert.
  split_and!; try done.
  eapply frames_inv_insert_same; [exact Hinv|exact Hi|done|done| |lia].
  destruct Hinv as (_ & _ & Hr0).
  pose proof (proj1 (Forall_lookup _ _) Hr0 i f Hi) as Hle. simpl in Hle. lia.
Qed.

Lemma pool_inv_writeCount b p n :
  pool_inv b p → writeCount p ≤ n → pool_inv b (set_writeCount p n).
Proof.
  intros (Hsz & Hn & Hinv & Hh & Hr & Hw) Hle.
  unfold pool_inv, bufferSize in *. simpl. split_and!; try done. lia.
Qed.

Lemma pool_inv_same_shape b b' p :
  pool_inv b p → numPages b' = numPages b → pool_inv b' p.
Proof. intros Hi Hn. unfold pool_inv in *. by rewrite Hn. Qed.

Lemma find_lookup (P : FrameInfo → Prop) `{!∀ x, Decision (P x)} fs i f :
  list_find P fs = Some (i, f) → fs !! i = Some f.
Proof. intros Hf. by apply list_find_Some in Hf as (? & _). Qed.

Lemma forceFlushPool_inv w b p rc w' b' :
  mgmtData b = Some p → pool_inv b p →
  forceFlushPool w (Some b) = (rc, w', Some b') →
  ∃ p', mgmtData b' = Some p' ∧ pool_inv b' p' ∧ b' = set_mgmtData b (Some p').
Proof.
  intros Hp Hinv H. unfold forceFlushPool in H. rewrite Hp in H.
  destruct (openPageFile w (pageFile b) blank_handle) as [rco fh].
  destruct rco;
    try (injection H as <- <- <-; exists p; by rewrite (set_mgmtData_same _ _ Hp)).
  destruct (flush_frames _ _ _ _) as [[[rc1 w1] fs1] n1] eqn:Ef.
  injection H as <- <- <-. eexists. split; [reflexivity|]. split; [|done].
  apply flush_frames_rel in Ef as [H2 Hle].
  destruct Hinv as (Hsz & Hn & Hfi & Hh & Hr & Hw).
  unfold pool_inv, bufferSize in *. simpl.
  rewrite <- (Forall2_length _ _ _ H2). split_and!; try done; [|lia].
  eapply frames_inv_rel; [|exact Hfi|exact H2].
  intros f f' [->| ->] Hf; [done|]. split; [by apply frame_ok_set_dirtybit|by destruct f].
Qed.

(** Every operation of the interface keeps the invariant of the pool. *)
Lemma reachable_pool_good b : reachable b → pool_good b.
Proof.
  induction 1 as
    [w bm0 name n s w' b H
    |w b page pn rc w' b' page' _ IH H
    |w b page rc w' b' _ IH H
    |w b page rc w' b' _ IH H
    |w b page rc w' b' _ IH H
    |w b rc w' b' _ IH H
    |w b rc w' b' _ IH H
    |b i bytes _ IH].
  - unfold initBufferPool in H. destruct bm0; [|done].
    destruct (n <=? 0) eqn:En; [done|]. apply Z.leb_gt in En.
    destruct (malloc w) as [g1 w1]. destruct g1; [|done]. simpl in H.
    destruct (malloc w1) as [g2 w2]. destruct g2; [|done]. simpl in H.
    destruct (malloc w2) as [g3 w3]. destruct g3; [|done]. simpl in H.
    injection H as <- <-. split; [done|]. intros q [= <-].
    unfold pool_inv, bufferSize, frames_inv. simpl. rewrite length_replicate.
    split_and!; try lia.
    + apply Forall_replicate. unfold frame_ok, empty_frame, NO_PAGE. simpl.
      split_and!; [lia|done|done].
    + intros i j f g Hi Hj _ Hne. apply lookup_replicate in Hi as [-> _]. done.
    + apply Forall_replicate. simpl. lia.
  - destruct page as [pg|]; [|unfold pinPage in H; by injection H as <- <- <- <-].
    destruct (mgmtData b) as [p|] eqn:Hp.
    2:{ unfold pinPage in H. rewrite Hp in H. by injection H as <- <- <- <-. }
    destruct (pinPage_outcome _ _ _ _ _ _ _ _ _ Hp H) as (p' & [= ->] & Hout).
    destruct IH as [IHn IH]. split; [done|]. intros q [= <-].
    eapply pool_inv_same_shape; [eapply pin_outcome_inv; [exact (IH p Hp)|exact Hout]|done].
  - unfold unpinPage in H.
    destruct page as [pg|]; [|by injection H as <- <- <-].
    destruct (mgmtData b) as [p|] eqn:Hp; [|by injection H as <- <- <-].
    destruct (list_find _ _) as [[i f]|] eqn:Ef; [|by injection H as <- <- <-].
    destruct (accessCount f >? 0) eqn:Ea; [|by injection H as <- <- <-].
    injection H as <- <- <-. destruct IH as [IHn IH]. split; [done|]. intros q [= <-].
    apply find_lookup in Ef.
    eapply pool_inv_same_shape; [|reflexivity].
    eapply pool_inv_update; [exact (IH p Hp)|exact Ef| |by destruct f..].
    apply frame_ok_set_accessCount; [|lia].
    destruct (IH p Hp) as (_ & _ & (Hok & _) & _).
    exact (proj1 (Forall_lookup _ _) Hok i f Ef).
  - unfold markDirty in H.
    destruct page as [pg|]; [|by injection H as <- <- <-].
    destruct (mgmtData b) as [p|] eqn:Hp; [|by injection H as <- <- <-].
    destruct (list_find _ _) as [[i f]|] eqn:Ef; [|by injection H as <- <- <-].
    injection H as <- <- <-. destruct IH as [IHn IH]. split; [done|]. intros q [= <-].
    apply find_lookup in Ef.
    eapply pool_inv_same_shape; [|reflexivity].
    eapply pool_inv_update; [exact (IH p Hp)|exact Ef| |by destruct f..].
    apply frame_ok_set_dirtybit.
    destruct (IH p Hp) as (_ & _ & (Hok & _) & _).
    exact (proj1 (Forall_lookup _ _) Hok i f Ef).
  - unfold forcePage in H.
    destruct page as [pg|]; [|by injection H as <- <- <-].
    destruct (mgmtData b) as [p|] eqn:Hp; [|by injection H as <- <- <-].
    destruct (openPageFile w (pageFile b) blank_handle) as [rco fh].
    destruct rco; try (by injection H as <- <- <-).
    destruct (list_find _ _) as [[i f]|] eqn:Ef; [|by injection H as <- <- <-].
    destruct (writeBlock _ _ _ _) as [[rcw ww] fhw].
    destruct rcw; try (by injection H as <- <- <-).
    injection H as <- <- <-. destruct IH as [IHn IH]. split; [done|]. intros q [= <-].
    apply find_lookup in Ef.
    eapply pool_inv_same_shape; [|reflexivity].
    apply pool_inv_writeCount; [|simpl; lia].
    eapply pool_inv_update; [exact (IH p Hp)|exact Ef| |by destruct f..].
    apply frame_ok_set_dirtybit.
    destruct (IH p Hp) as (_ & _ & (Hok & _) & _).
    exact (proj1 (Forall_lookup _ _) Hok i f Ef).
  - destruct (mgmtData b) as [p|] eqn:Hp.
    2:{ unfold forceFlushPool in H. rewrite Hp in H. by injection H as <- <- <-. }
    destruct IH as [IHn IH].
    destruct (forceFlushPool_inv _ _ _ _ _ _ Hp (IH p Hp) H) as (p' & Hp' & Hinv & ->).
    split; [done|]. intros q [= <-]. exact Hinv.
  - unfold shutdownBufferPool in H.
    destruct (mgmtData b) as [p|] eqn:Hp; [|by injection H as <- <- <-].
    destruct (forceFlushPool w (Some b)) as [[rcf wf] bf] eqn:Ef.
    assert (Hbf : ∀ b1, bf = Some b1 → pool_good b1).
    { intros b1 ->. destruct IH as [IHn IH].
      destruct (forceFlushPool_inv _ _ _ _ _ _ Hp (IH p Hp) Ef) as (p' & Hp' & Hinv & ->).
      split; [done|]. intros q [= <-]. exact Hinv. }
    destruct rcf; try (injection H as <- <- ->; by apply Hbf).
    destruct bf as [b1|]; [|done].
    destruct (Hbf b1 eq_refl) as [Hn1 _].
    destruct (mgmtData b1) as [p1|] eqn:Hp1; [|injection H as <- <- <-; by apply Hbf].
    destruct (list_find _ _); injection H as <- <- <-; [by apply Hbf|].
    split; [exact Hn1|]. done.
  - unfold client_write.
    destruct (mgmtData b) as [p|] eqn:Hp; [|done].
    destruct (frames p !! i) as [f|] eqn:Ef; [|done].
    destruct (data f) as [buf|] eqn:Ed; [|done].
    destruct IH as [IHn IH]. split; [done|]. intros q [= <-].
    eapply pool_inv_same_shape; [|reflexivity].
    eapply pool_inv_update; [exact (IH p Hp)|exact Ef| |by destruct f..].
    destruct (IH p Hp) as (_ & _ & (Hok & _) & _).
    destruct (proj1 (Forall_lookup _ _) Hok i f Ef) as (H1 & H2 & H3).
    destruct f; simpl in *. unfold frame_ok; simpl. split_and!; [done|..].
    + intros Hno. by rewrite (H2 Hno) in Ed.
    + intros Hne. split; [by apply H3|]. eexists. split; [done|apply page_bytes_length].
Qed.

(** ** The victims of the strategies *)

Lemma frame_after_0 fs c :
  0 ≤ c < Z.of_nat (length fs) → frame_after fs c 0 = frame_at fs c.
Proof.
  intros Hc. unfold frame_after, frame_at.
  rewrite Z.add_0_r, Z.mod_small by lia.
  by replace (c <? 0) with false by lia.
Qed.

Lemma frame_after_next fs c d :
  0 ≤ c < Z.of_nat (length fs) →
  frame_after fs (Z.rem (c + 1) (Z.of_nat (length fs))) d = frame_after fs c (S d).
Proof.
  intros Hc. unfold frame_after. rewrite Z.rem_mod_nonneg by lia.
  rewrite Zplus_mod_idemp_l. do 3 f_equal. lia.
Qed.

Lemma frame_after_is_Some fs c d :
  0 < Z.of_nat (length fs) → is_Some (frame_after fs c d).
Proof.
  intros Hn. apply lookup_lt_is_Some.
  pose proof (Z.mod_pos_bound (c + Z.of_nat d) (Z.of_nat (length fs)) Hn). lia.
Qed.

Lemma next_index_rem p c :
  next_index p c = Z.rem (c + 1) (Z.of_nat (length (frames p))).
Proof. reflexivity. Qed.

(** FIFO takes the first frame from the cursor on, going round, that is not
    pinned. *)
Lemma FIFO_loop_victim d : ∀ attempts w name p page f,
  (d < attempts)%nat →
  0 ≤ frameIndex p < bufferSize p →
  frame_after (frames p) (frameIndex p) d = Some f →
  accessCount f = 0 →
  (∀ k g, (k < d)%nat → frame_after (frames p) (frameIndex p) k = Some g →
          accessCount g ≠ 0) →
  ∃ w' p',
    FIFO_loop attempts w name p page = (w', p') ∧
    frames p' = <[Z.to_nat ((frameIndex p + Z.of_nat d) mod bufferSize p)
                  := replace_FIFO f page]> (frames p) ∧
    frameIndex p' = (frameIndex p + Z.of_nat d + 1) mod bufferSize p.
Proof.
  unfold bufferSize.
  induction d as [|d IH]; intros attempts w name p page f Hd Hc Hf Ha Hbefore;
    (destruct attempts as [|a]; [lia|]); simpl FIFO_loop.
  - rewrite frame_after_0 in Hf by done. rewrite Hf.
    replace (accessCount f =? 0) with true by lia.
    destruct (write_victim w name p f) as [w1 p1] eqn:Ew.
    destruct (write_victim_frames _ _ _ _ _ _ Ew) as (Hfr & Hfi & _).
    exists w1. eexists. split; [reflexivity|].
    cbn [frames frameIndex set_frameIndex set_frames].
    rewrite Hfr. rewrite Hfi. rewrite Z.add_0_r. rewrite Z.mod_small by lia. split; [done|].
    rewrite next_index_rem. cbn [frames set_frames].
    rewrite length_insert. apply Z.rem_mod_nonneg; lia.
  - destruct (frame_after_is_Some (frames p) (frameIndex p) 0 ltac:(lia)) as [g Hg].
    pose proof (Hbefore 0%nat g ltac:(lia) Hg) as Hpin.
    rewrite frame_after_0 in Hg by done. rewrite Hg.
    replace (accessCount g =? 0) with false by lia.
    edestruct (IH a w name (set_frameIndex p (next_index p (frameIndex p))) page f)
      as (w' & p' & E & Hfr & Hfi).
    + lia.
    + cbn [frames frameIndex set_frameIndex]. rewrite next_index_rem.
      rewrite Z.rem_mod_nonneg by lia. apply Z.mod_pos_bound. lia.
    + cbn [frames frameIndex set_frameIndex]. rewrite next_index_rem.
      by rewrite frame_after_next.
    + done.
    + cbn [frames frameIndex set_frameIndex]. rewrite next_index_rem.
      intros k h Hk Hh. rewrite frame_after_next in Hh by done.
      eapply (Hbefore (S k)); [lia|exact Hh].
    + exists w', p'. split; [exact E|].
      cbn [frames frameIndex set_frameIndex] in Hfr, Hfi.
      rewrite next_index_rem, Z.rem_mod_nonneg in Hfr, Hfi by lia.
      rewrite Zplus_mod_idemp_l in Hfr.
      rewrite <- Z.add_assoc, Zplus_mod_idemp_l in Hfi.
      split.
      * rewrite Hfr. do 3 f_equal. lia.
      * rewrite Hfi. f_equal. lia.
Qed.

(** What the search loop of LRU delivers. *)
Lemma LRU_scan_spec fs : ∀ i r0 l0 r l,
  LRU_scan fs i r0 l0 = (r, l) →
  (r = r0 ∧ l = l0 ∧
   ∀ j g, fs !! j = Some g → accessCount g = 0 → l0 ≤ recentHit g)
  ∨ (∃ k f, r = i + Z.of_nat k ∧ fs !! k = Some f ∧ accessCount f = 0 ∧
            recentHit f = l ∧ l < l0 ∧
            ∀ j g, fs !! j = Some g → accessCount g = 0 →
                   l ≤ recentHit g ∧ ((j < k)%nat → l < recentHit g)).
Proof.
  induction fs as [|f rest IH]; intros i r0 l0 r l H; simpl in H.
  - injection H as <- <-. left. split_and!; [done|done|]. intros j g Hj. done.
  - destruct ((accessCount f =? 0) && (recentHit f <? l0)) eqn:E.
    + apply andb_true_iff in E as [Ea El].
      apply Z.eqb_eq in Ea. apply Z.ltb_lt in El.
      destruct (IH _ _ _ _ _ H) as [(-> & -> & Hall)|(k & h & -> & Hk & Hha & Hhl & Hlt & Hmin)].
      * right. exists 0%nat, f. split_and!; [lia|done|done|done|done|].
        intros [|j] g Hj Hg; simpl in Hj.
        -- injection Hj as <-. split; [lia|lia].
        -- split; [by eapply Hall|lia].
      * right. exists (S k), h. split_and!; [lia|done|done|done|lia|].
        intros [|j] g Hj Hg; simpl in Hj.
        -- injection Hj as <-. split; [lia|]. intros _. lia.
        -- destruct (Hmin j g Hj Hg) as [H1 H2]. split; [done|]. intros; apply H2; lia.
    + assert (Hf : accessCount f = 0 → l0 ≤ recentHit f).
      { intros Ha. apply andb_false_iff in E as [E|E];
          [apply Z.eqb_neq in E; lia|apply Z.ltb_ge in E; lia]. }
      destruct (IH _ _ _ _ _ H) as [(-> & -> & Hall)|(k & h & -> & Hk & Hha & Hhl & Hlt & Hmin)].
      * left. split_and!; [done|done|].
        intros [|j] g Hj Hg; simpl in Hj; [injection Hj as <-; by apply Hf|by eapply Hall].
      * right. exists (S k), h. split_and!; [lia|done|done|done|lia|].
        intros [|j] g Hj Hg; simpl in Hj.
        -- injection Hj as <-. specialize (Hf Hg). split; [lia|]. intros _. lia.
        -- destruct (Hmin j g Hj Hg) as [H1 H2]. split; [done|]. intros; apply H2; lia.
Qed.

Lemma LRU_victim w b p page u fu :
  frames p !! u = Some fu → accessCount fu = 0 →
  Forall (λ f, recentHit f ≤ recentHitCount p) (frames p) →
  ∃ v f w' p0,
    frames p !! v = Some f ∧ accessCount f = 0 ∧
    (∀ j g, frames p !! j = Some g → accessCount g = 0 →
            recentHit f ≤ recentHit g ∧ ((j < v)%nat → recentHit f < recentHit g)) ∧
    write_victim w (pageFile b) p f = (w', p0) ∧
    LRU w b p page = (w', set_frames p0 (<[v := replace_LRU f page]> (frames p))).
Proof.
  intros Hu Hau Hrh. unfold LRU.
  destruct (LRU_scan (frames p) 0 (-1) (recentHitCount p + 1)) as [r l] eqn:Es.
  destruct (LRU_scan_spec _ _ _ _ _ _ Es) as
    [(-> & -> & Hall)|(k & f & -> & Hk & Hfa & Hfl & Hlt & Hmin)].
  - specialize (Hall u fu Hu Hau).
    pose proof (proj1 (Forall_lookup _ _) Hrh u fu Hu) as Hle. simpl in Hle. lia.
  - cbn [fst]. replace (0 + Z.of_nat k =? -1) with false
      by (symmetry; apply Z.eqb_neq; lia).
    unfold frame_at. replace (0 + Z.of_nat k <? 0) with false
      by (symmetry; apply Z.ltb_ge; lia).
    replace (Z.to_nat (0 + Z.of_nat k)) with k by lia. rewrite Hk.
    destruct (write_victim w (pageFile b) p f) as [w1 p1] eqn:Ew.
    destruct (write_victim_frames _ _ _ _ _ _ Ew) as (Hfr & _).
    exists k, f, w1, p1. rewrite Hfr. split_and!; try done.
    intros j g Hj Hg. rewrite <- Hfl in *. by apply Hmin.
Qed.

(** CLOCK, short of rounds or not, takes a frame that is not pinned and has
    no second chance once the hand gets there. *)
Lemma CLOCK_loop_finds_clear d : ∀ rounds w name p page f,
  (d < rounds)%nat →
  0 ≤ clockPointer p < bufferSize p →
  frame_after (frames p) (clockPointer p) d = Some f →
  accessCount f = 0 → secondChance f = false →
  ∃ w' p' v g, CLOCK_loop rounds w name p page = (w', p') ∧
               frames p' !! v = Some g ∧ holds page g.
Proof.
  unfold bufferSize.
  induction d as [|d IH]; intros rounds w name p page f Hd Hc Hf Ha Hs;
    (destruct rounds as [|a]; [lia|]); simpl CLOCK_loop.
  - rewrite frame_after_0 in Hf by done. rewrite Hf.
    replace (accessCount f =? 0) with true by lia. rewrite Hs. simpl negb. cbv iota.
    destruct (write_victim w name p f) as [w1 p1] eqn:Ew.
    destruct (write_victim_frames _ _ _ _ _ _ Ew) as (Hfr & _).
    exists w1. eexists. exists (Z.to_nat (clockPointer p)), (replace_CLOCK f page).
    split; [reflexivity|]. cbn [frames set_frames set_clockPointer]. split; [|done].
    rewrite Hfr. apply list_lookup_insert_eq. lia.
  - destruct (frame_after_is_Some (frames p) (clockPointer p) 0 ltac:(lia)) as [g Hg].
    rewrite frame_after_0 in Hg by done. rewrite Hg.
    destruct (accessCount g =? 0) eqn:Eg.
    + destruct (secondChance g) eqn:Esg; simpl negb; cbv iota.
      * edestruct (IH a w name
          (set_clockPointer
             (set_frames p (<[Z.to_nat (clockPointer p) := set_secondChance g false]> (frames p)))
             (next_index
                (set_frames p (<[Z.to_nat (clockPointer p) := set_secondChance g false]> (frames p)))
                (clockPointer p))) page f)
          as (w' & p' & v & h & E & Hv & Hh).
        -- lia.
        -- cbn [frames clockPointer set_clockPointer set_frames]. rewrite next_index_rem.
           cbn [frames set_frames]. rewrite length_insert.
           rewrite Z.rem_mod_nonneg by lia. apply Z.mod_pos_bound. lia.
        -- cbn [frames clockPointer set_clockPointer set_frames]. rewrite next_index_rem.
           cbn [frames set_frames].
           unfold frame_after in *. rewrite length_insert.
           rewrite Z.rem_mod_nonneg by lia. rewrite Zplus_mod_idemp_l.
           replace (clockPointer p + 1 + Z.of_nat d) with (clockPointer p + Z.of_nat (S d)) by lia.
           destruct (decide (Z.to_nat (clockPointer p)
                     = Z.to_nat ((clockPointer p + Z.of_nat (S d)) mod Z.of_nat (length (frames p)))))
             as [Heq|Hne].
           ++ unfold frame_at in Hg. replace (clockPointer p <? 0) with false in Hg by lia.
              rewrite <- Heq in Hf. congruence.
           ++ by rewrite list_lookup_insert_ne.
        -- done.
        -- done.
        -- exists w', p', v, h. done.
      * destruct (write_victim w name p g) as [w1 p1] eqn:Ew.
        destruct (write_victim_frames _ _ _ _ _ _ Ew) as (Hfr & _).
        exists w1. eexists. exists (Z.to_nat (clockPointer p)), (replace_CLOCK g page).
        split; [reflexivity|]. cbn [frames set_frames set_clockPointer]. split; [|done].
        rewrite Hfr. apply list_lookup_insert_eq. lia.
    + edestruct (IH a w name
          (set_clockPointer p (next_index p (clockPointer p))) page f)
          as (w' & p' & v & h & E & Hv & Hh).
      * lia.
      * cbn [frames clockPointer set_clockPointer]. rewrite next_index_rem.
        rewrite Z.rem_mod_nonneg by lia. apply Z.mod_pos_bound. lia.
      * cbn [frames clockPointer set_clockPointer]. rewrite next_index_rem.
        by rewrite frame_after_next.
      * done.
      * done.
      * exists w', p', v, h. done.
Qed.

Lemma frame_after_full fs c :
  0 ≤ c < Z.of_nat (length fs) → frame_after fs c (length fs) = frame_at fs c.
Proof.
  intros Hc. unfold frame_after, frame_at.
  rewrite <- (Z.mul_1_l (Z.of_nat (length fs))) at 1.
  rewrite Z.mod_add by lia. rewrite Z.mod_small by lia.
  by replace (c <? 0) with false by lia.
Qed.

Lemma frame_at_lookup fs c f :
  0 ≤ c → frame_at fs c = Some f ↔ fs !! Z.to_nat c = Some f.
Proof. intros Hc. unfold frame_at. by replace (c <? 0) with false by lia. Qed.

(** Two sweeps are enough for CLOCK to take a frame when one is not
    pinned. *)
Lemma CLOCK_loop_finds d : ∀ rounds w name p page f,
  (d + length (frames p) < rounds)%nat →
  0 ≤ clockPointer p < bufferSize p →
  frame_after (frames p) (clockPointer p) d = Some f →
  accessCount f = 0 →
  ∃ w' p' v g, CLOCK_loop rounds w name p page = (w', p') ∧
               frames p' !! v = Some g ∧ holds page g.
Proof.
  unfold bufferSize.
  induction d as [|d IH]; intros rounds w name p page f Hd Hc Hf Ha;
    (destruct rounds as [|a]; [lia|]).
  - destruct (secondChance f) eqn:Hs.
    2:{ eapply (CLOCK_loop_finds_clear 0); eauto. lia. }
    simpl CLOCK_loop.
    rewrite frame_after_0 in Hf by done. rewrite Hf.
    replace (accessCount f =? 0) with true by lia. rewrite Hs. simpl negb. cbv iota.
    apply frame_at_lookup in Hf; [|lia].
    eapply (CLOCK_loop_finds_clear (length (frames p) - 1)
              a w name _ page (set_secondChance f false)).
    + lia.
    + unfold bufferSize.
      cbn [frames clockPointer set_clockPointer set_frames]. rewrite next_index_rem.
      cbn [frames set_frames]. rewrite !length_insert.
      rewrite Z.rem_mod_nonneg by lia. apply Z.mod_pos_bound. lia.
    + cbn [frames clockPointer set_clockPointer set_frames]. rewrite next_index_rem.
      cbn [frames set_frames]. 
      set (fs1 := <[Z.to_nat (clockPointer p) := set_secondChance f false]> (frames p)).
      assert (Hl : length fs1 = length (frames p)) by apply length_insert.
      rewrite <- Hl. rewrite frame_after_next by lia.
      replace (S (length fs1 - 1)) with (length fs1) by lia.
      rewrite frame_after_full by lia. apply frame_at_lookup; [lia|].
      apply list_lookup_insert_eq. lia.
    + by destruct f.
    + by destruct f.
  - simpl CLOCK_loop.
    destruct (frame_after_is_Some (frames p) (clockPointer p) 0 ltac:(lia)) as [g Hg].
    rewrite frame_after_0 in Hg by done. rewrite Hg.
    destruct (accessCount g =? 0) eqn:Eg.
    + destruct (secondChance g) eqn:Esg; simpl negb; cbv iota.
      * set (fs1 := <[Z.to_nat (clockPointer p) := set_secondChance g false]> (frames p)).
        assert (Hl : length fs1 = length (frames p)) by apply length_insert.
        assert (Hnext : ∃ f1, frame_after fs1 (clockPointer p) (S d) = Some f1 ∧
                              accessCount f1 = 0).
        { unfold frame_after in *. rewrite Hl. unfold fs1.
          destruct (decide (Z.to_nat (clockPointer p)
                     = Z.to_nat ((clockPointer p + Z.of_nat (S d)) mod Z.of_nat (length (frames p)))))
            as [Heq|Hne].
          - exists (set_secondChance g false). rewrite <- Heq.
            split; [apply list_lookup_insert_eq; lia|].
            apply Z.eqb_eq in Eg. by destruct g.
          - exists f. by rewrite list_lookup_insert_ne. }
        destruct Hnext as (f1 & Hf1 & Ha1).
        eapply (IH a w name _ page f1).
        -- cbn [frames set_clockPointer set_frames]. fold fs1. lia.
        -- unfold bufferSize.
           cbn [frames clockPointer set_clockPointer set_frames]. rewrite next_index_rem.
           cbn [frames set_frames]. fold fs1. rewrite Hl.
           rewrite Z.rem_mod_nonneg by lia. apply Z.mod_pos_bound. lia.
        -- cbn [frames clockPointer set_clockPointer set_frames]. rewrite next_index_rem.
           cbn [frames set_frames]. fold fs1.
           rewrite frame_after_next by lia. exact Hf1.
        -- done.
      * destruct (write_victim w name p g) as [w1 p1] eqn:Ew.
        destruct (write_victim_frames _ _ _ _ _ _ Ew) as (Hfr & _).
        exists w1. eexists. exists (Z.to_nat (clockPointer p)), (replace_CLOCK g page).
        split; [reflexivity|]. cbn [frames set_frames set_clockPointer]. split; [|done].
        rewrite Hfr. apply list_lookup_insert_eq. lia.
    + eapply (IH a w name _ page f).
      * cbn [frames set_clockPointer]. lia.
      * unfold bufferSize.
        cbn [frames clockPointer set_clockPointer]. rewrite next_index_rem.
        rewrite Z.rem_mod_nonneg by lia. apply Z.mod_pos_bound. lia.
      * cbn [frames clockPointer set_clockPointer]. rewrite next_index_rem.
        by rewrite frame_after_next.
      * done.
Qed.

(** Every frame is some places after the cursor. *)
Lemma frame_after_reaches fs c u f :
  0 ≤ c < Z.of_nat (length fs) → fs !! u = Some f →
  ∃ d, (d < length fs)%nat ∧ frame_after fs c d = Some f.
Proof.
  intros Hc Hu. pose proof (lookup_lt_Some _ _ _ Hu) as Hlt.
  exists (Z.to_nat ((Z.of_nat u - c) mod Z.of_nat (length fs))).
  pose proof (Z.mod_pos_bound (Z.of_nat u - c) (Z.of_nat (length fs)) ltac:(lia)).
  split; [lia|]. unfold frame_after. rewrite Z2Nat.id by lia.
  rewrite Zplus_mod_idemp_r.
  replace (c + (Z.of_nat u - c)) with (Z.of_nat u) by lia.
  rewrite Z.mod_small by lia. by rewrite Nat2Z.id.
Qed.

Lemma least_nat (P : nat → Prop) (Hdec : ∀ n, Decision (P n)) d :
  P d → ∃ d0, (d0 ≤ d)%nat ∧ P d0 ∧ ∀ k, (k < d0)%nat → ¬ P k.
Proof.
  assert (Hcases : ∀ n, (∀ k, (k < n)%nat → ¬ P k) ∨
                        ∃ d0, (d0 < n)%nat ∧ P d0 ∧ ∀ k, (k < d0)%nat → ¬ P k).
  { induction n as [|n [Hnone|(d0 & H0 & HP0 & Hmin)]].
    - left. intros k Hk. lia.
    - destruct (decide (P n)) as [Hn|Hn].
      + right. exists n. split_and!; [lia|done|done].
      + left. intros k Hk. destruct (decide (k = n)) as [->|Hne]; [done|].
        apply Hnone. lia.
    - right. exists d0. split_and!; [lia|done|done]. }
  intros Hd. destruct (Hcases d) as [Hnone|(d0 & H0 & HP0 & Hmin)].
  - exists d. split_and!; [lia|done|done].
  - exists d0. split_and!; [lia|done|done].
Qed.

(** ** A miss reads the page *)

Lemma page_of_app_old bytes more pn :
  0 ≤ pn → (pn + 1) * PAGE_SIZE ≤ Z.of_nat (length bytes) →
  page_of (bytes ++ more) pn = page_of bytes pn.
Proof.
  intros Hpn Hlen. unfold page_of, pread. pose proof page_len_Z. pose proof PAGE_SIZE_pos.
  rewrite drop_app_le by nia. rewrite take_app_le; [done|].
  rewrite length_drop. nia.
Qed.

Lemma page_of_app_new bytes T pn :
  Z.of_nat (length bytes) = T * PAGE_SIZE → 0 ≤ T ≤ pn →
  page_of (bytes ++ replicate (Z.to_nat (pn + 1 - T) * page_len) x00) pn
    = replicate page_len x00.
Proof.
  intros Hlen HT. unfold page_of, pread. pose proof page_len_Z. pose proof PAGE_SIZE_pos.
  rewrite drop_app_ge by nia. rewrite drop_replicate, take_replicate. f_equal. nia.
Qed.

(** What [pinPage] reads on a miss: the file is grown to hold the page, if
    it can be written, then the page is read. *)
Lemma load_page w fh file T pn mem :
  files w (fileName fh) = Some file → writable file = true ∨ pn < T →
  file_size file = T * PAGE_SIZE → totalNumPages fh = T →
  allocs w = [] → 0 ≤ pn → pn * PAGE_SIZE ≤ INT_MAX →
  ∃ rc w2 fh2 fh3,
    ensureCapacity w (int_wrap (pn + 1)) (Some fh) = (rc, w2, fh2) ∧
    readBlock w2 pn fh2 (Some mem)
      = (RC_OK, fh3, Some (page_or_zeros (contents file) T pn)) ∧
    allocs w2 = [].
Proof.
  intros Hf Hw Hsz Ht Ha Hpn Hmax. rewrite int_wrap_succ by done.
  pose proof page_len_Z. pose proof PAGE_SIZE_pos.
  assert (HT : 0 ≤ T) by (unfold file_size in Hsz; nia).
  destruct (decide (pn < T)) as [Hin|Hout].
  { exists RC_OK, w, (Some fh). eexists. split_and!; [| |done].
    - unfold ensureCapacity, fopen_r. rewrite Hf.
      by replace (totalNumPages fh >=? pn + 1) with true by lia.
    - rewrite (readBlock_reads w fh file pn mem Hf); [|lia|nia|done].
      unfold page_or_zeros. by replace (pn <? T) with true by lia. }
  destruct Hw as [Hw|?]; [|lia].
  destruct (ensureCapacity_grows w fh file (pn + 1) Hf Hw Ha)
    as (w2 & fh2 & E & Hn2 & _ & Ht2 & Ha2 & _ & Hf2).
  exists RC_OK, w2, (Some fh2). eexists. split; [exact E|]. split; [|exact Ha2].
  rewrite <- Hn2 in Hf2.
  rewrite (readBlock_reads w2 fh2 _ pn mem Hf2).
  - do 2 f_equal. cbn [contents]. unfold page_or_zeros.
    replace (pn <? T) with false by lia.
    rewrite Ht. apply page_of_app_new; [done|lia].
  - lia.
  - unfold file_size in *. cbn [contents]. rewrite length_app, length_replicate. nia.
  - done.
Qed.

Lemma holds_lookup_insert fs v g page :
  (v < length fs)%nat → holds page g →
  ∃ v' g', <[v := g]> fs !! v' = Some g' ∧ holds page g'.
Proof. intros Hv Hg. exists v, g. split; [by apply list_lookup_insert_eq|done]. Qed.

Lemma FIFO_places w b p page u fu :
  0 ≤ frameIndex p < bufferSize p →
  frames p !! u = Some fu → accessCount fu = 0 →
  ∃ w' p' v g, FIFO w b p page = (w', p') ∧ frames p' !! v = Some g ∧ holds page g.
Proof.
  intros Hc Hu Ha. unfold bufferSize in Hc.
  destruct (frame_after_reaches (frames p) (frameIndex p) u fu Hc Hu) as (d & Hd & Hfd).
  destruct (least_nat
              (λ d, match frame_after (frames p) (frameIndex p) d with
                    | Some f => accessCount f =? 0 | None => false end = true)
              _ d) as (d0 & Hd0 & HP0 & Hmin).
  { rewrite Hfd. lia. }
  destruct (frame_after (frames p) (frameIndex p) d0) as [f|] eqn:Ef; [|done].
  apply Z.eqb_eq in HP0.
  destruct (FIFO_loop_victim d0 (Z.to_nat (bufferSize p)) w (pageFile b) p page f)
    as (w' & p' & E & Hfr & _).
  - unfold bufferSize. lia.
  - done.
  - done.
  - done.
  - intros k g Hk Hg Hzero. apply (Hmin k Hk). rewrite Hg. lia.
  - exists w', p'. unfold FIFO. rewrite E, Hfr.
    edestruct (holds_lookup_insert (frames p)) as (v' & g' & ? & ?); [|done|eauto].
    unfold bufferSize.
    pose proof (Z.mod_pos_bound (frameIndex p + Z.of_nat d0)
                  (Z.of_nat (length (frames p))) ltac:(lia)). lia.
Qed.

Lemma LRU_places w b p page u fu :
  Forall (λ f, recentHit f ≤ recentHitCount p) (frames p) →
  frames p !! u = Some fu → accessCount fu = 0 →
  ∃ w' p' v g, LRU w b p page = (w', p') ∧ frames p' !! v = Some g ∧ holds page g.
Proof.
  intros Hr Hu Ha.
  destruct (LRU_victim w b p page u fu Hu Ha Hr) as (v & f & w' & p0 & Hv & _ & _ & _ & E).
  exists w'. eexists. rewrite E. cbn [frames set_frames].
  edestruct (holds_lookup_insert (frames p) v (replace_LRU f page) page)
    as (v' & g' & ? & ?); [by eapply lookup_lt_Some|done|eauto].
Qed.

Lemma CLOCK_places w b p page u fu :
  0 ≤ clockPointer p < bufferSize p →
  frames p !! u = Some fu → accessCount fu = 0 →
  ∃ w' p' v g, CLOCK w b p page = (w', p') ∧ frames p' !! v = Some g ∧ holds page g.
Proof.
  intros Hc Hu Ha. pose proof Hc as Hc'. unfold bufferSize in Hc'.
  destruct (frame_after_reaches (frames p) (clockPointer p) u fu Hc' Hu) as (d & Hd & Hfd).
  unfold CLOCK. eapply (CLOCK_loop_finds d); [|done|exact Hfd|done].
  unfold bufferSize. lia.
Qed.

Lemma openPageFile_whole w name file T fh0 :
  files w name = Some file → file_size file = T * PAGE_SIZE →
  openPageFile w name fh0 = (RC_OK, mkHandle name T 0).
Proof.
  intros Hf Hsz.
  destruct (openPageFile_cases w name fh0) as [(f & Hf' & E)|[Hf' _]]; [|congruence].
  rewrite Hf in Hf'. injection Hf' as <-. rewrite E, Hsz.
  rewrite pages_of_size_mul; [done|].
  pose proof PAGE_SIZE_pos. unfold file_size in Hsz. nia.
Qed.

(** A miss that finds an empty frame, under any strategy. *)
Lemma pinPage_into_empty_frame w b p pg pn file T i f :
  mgmtData b = Some p →
  files w (pageFile b) = Some file → writable file = true ∨ pn < T →
  file_size file = T * PAGE_SIZE → allocs w = [] →
  0 ≤ pn → pn * PAGE_SIZE ≤ INT_MAX → not_resident (frames p) pn →
  resident_at (frames p) NO_PAGE i f →
  ∃ w' g,
    pinPage w (Some b) (Some pg) pn
      = (RC_OK, w',
         Some (set_mgmtData b
                 (Some (counted_read (set_frames p (<[i := g]> (frames p)))))),
         Some (mkPage pn (Some (page_or_zeros (contents file) T pn)))) ∧
    pageNumber g = pn ∧ accessCount g = 1 ∧ dirtybit g = false ∧
    data g = Some (page_or_zeros (contents file) T pn).
Proof.
  intros Hp Hf Hw Hsz Ha Hpn Hmax Hnr He.
  unfold pinPage. rewrite Hp.
  rewrite (openPageFile_whole _ _ _ _ _ Hf Hsz).
  rewrite (proj1 (not_resident_find _ _) Hnr).
  rewrite (proj1 (resident_at_find _ _ _ _) He).
  unfold pinPage_empty. rewrite (malloc_ok _ Ha). simpl negb. cbv iota.
  destruct (load_page w (mkHandle (pageFile b) T 0) file T pn (replicate page_len x00))
    as (rc & w2 & fh2 & fh3 & Ec & Er & Ha2); [done..|].
  rewrite Ec, Er.
  destruct (strategy b) eqn:Es; (exists w2; eexists; split; [reflexivity|done]).
Qed.

(** A miss that finds no empty frame: the page is read and handed to the
    strategy. *)
Lemma pinPage_with_full_frames w b p pg pn file T :
  mgmtData b = Some p →
  files w (pageFile b) = Some file → writable file = true ∨ pn < T →
  file_size file = T * PAGE_SIZE → allocs w = [] →
  0 ≤ pn → pn * PAGE_SIZE ≤ INT_MAX →
  not_resident (frames p) pn → not_resident (frames p) NO_PAGE →
  ∃ w2,
    pinPage w (Some b) (Some pg) pn
      = (let buf := page_or_zeros (contents file) T pn in
         let p1 := counted_read p in
         let n0 := mkFrame pn false 1 false 0 0 (Some buf) in
         let page' := Some (mkPage pn (Some buf)) in
         match strategy b with
         | RS_FIFO =>
             let '(w4, p2) := FIFO w2 b p1 n0 in
             (RC_OK, w4, Some (set_mgmtData b (Some p2)), page')
         | RS_LRU =>
             let '(w4, p2) :=
               LRU w2 b p1 (set_recentHit n0 (recentHitCount p + 1)) in
             (RC_OK, w4, Some (set_mgmtData b (Some p2)), page')
         | RS_CLOCK =>
             let '(w4, p2) := CLOCK w2 b p1 (set_secondChance n0 false) in
             (RC_OK, w4, Some (set_mgmtData b (Some p2)), page')
         | RS_OTHER =>
             (RC_ERROR, w2, Some (set_mgmtData b (Some p1)), Some (mkPage pn None))
         end).
Proof.
  intros Hp Hf Hw Hsz Ha Hpn Hmax Hnr Hne.
  unfold pinPage. rewrite Hp.
  rewrite (openPageFile_whole _ _ _ _ _ Hf Hsz).
  rewrite (proj1 (not_resident_find _ _) Hnr).
  rewrite (proj1 (not_resident_find _ _) Hne).
  unfold pinPage_replace. rewrite (malloc_ok _ Ha). simpl negb. cbv iota.
  rewrite (malloc_ok _ Ha). simpl negb. cbv iota.
  destruct (load_page w (mkHandle (pageFile b) T 0) file T pn (replicate page_len x00))
    as (rc & w2 & fh2 & fh3 & Ec & Er & Ha2); [done..|].
  rewrite Ec, Er. exists w2. cbv zeta.
  destruct (strategy b); [| | |done].
  - unfold counted_read. by destruct (FIFO _ _ _ _).
  - unfold counted_read. by destruct (LRU _ _ _ _).
  - unfold counted_read. by destruct (CLOCK _ _ _ _).
Qed.

(** X18: a miss with a frame to spare, on a page file of whole pages that can
    be written or already holds the page, and with memory to allocate: when
    some frame is empty or not pinned, [pinPage] for a page that is in no
    frame and whose byte offset fits an [int] (a page below 524288) succeeds
    under FIFO, LRU and CLOCK; the page handle and a frame then hold the page
    as it is in the file, or zero bytes when the file had to be grown to hold
    it; the frame is pinned once and clean, and one read is counted. *)
Theorem pinPage_miss_loads_page w b p pg pn file T :
  reachable b → mgmtData b = Some p → strategy b ≠ RS_OTHER →
  files w (pageFile b) = Some file → writable file = true ∨ pn < T →
  file_size file = T * PAGE_SIZE → allocs w = [] →
  0 ≤ pn → pn * PAGE_SIZE ≤ INT_MAX → not_resident (frames p) pn →
  Exists (λ f, pageNumber f = NO_PAGE ∨ accessCount f = 0) (frames p) →
  ∃ w' p' v g,
    pinPage w (Some b) (Some pg) pn
      = (RC_OK, w', Some (set_mgmtData b (Some p')),
         Some (mkPage pn (Some (page_or_zeros (contents file) T pn)))) ∧
    frames p' !! v = Some g ∧
    pageNumber g = pn ∧ accessCount g = 1 ∧ dirtybit g = false ∧
    data g = Some (page_or_zeros (contents file) T pn) ∧
    readCount p' = readCount p + 1.
Proof.
  intros Hreach Hp Hs Hf Hw Hsz Ha Hpn Hmax Hnr Hfree.
  destruct (find_cases (frames p) NO_PAGE) as [Hne|(i & f & He)].
  2:{ destruct (pinPage_into_empty_frame w b p pg pn file T i f)
        as (w' & g & E & Hg1 & Hg2 & Hg3 & Hg4); [done..|].
      exists w'. eexists. exists i, g. split; [exact E|].
      cbn [frames set_frames counted_read set_recentHitCount set_readCount readCount].
      split_and!; try done.
      apply list_lookup_insert_eq. destruct He as (Hi & _). by eapply lookup_lt_Some. }
  assert (Hun : ∃ u fu, frames p !! u = Some fu ∧ accessCount fu = 0).
  { apply Exists_exists in Hfree as (fu & Hin & [Hno|Hz]).
    - apply list_elem_of_lookup in Hin as (u & Hu).
      by destruct (not_resident_lookup _ _ _ _ Hne Hu).
    - apply list_elem_of_lookup in Hin as (u & Hu). eauto. }
  destruct Hun as (u & fu & Hu & Hau).
  pose proof (reachable_cursors_in_range b Hreach p Hp) as [Hfi Hcp].
  destruct (reachable_pool_good b Hreach) as [_ Hinv].
  destruct (Hinv p Hp) as (_ & _ & (_ & _ & Hrh) & _).
  destruct (pinPage_with_full_frames w b p pg pn file T) as (w2 & E); [done..|].
  rewrite E. cbv zeta.
  set (buf := page_or_zeros (contents file) T pn).
  destruct (strategy b) eqn:Es; [| | |done].
  + destruct (FIFO_places w2 b (counted_read p) (mkFrame pn false 1 false 0 0 (Some buf)) u fu)
      as (w' & p' & v & g & E' & Hv & Hg1 & Hg2 & Hg3 & Hg4); [done..|].
    destruct (FIFO_loop_result _ _ _ _ _ _ _ E') as (_ & Hrd & _).
    rewrite E'. exists w', p', v, g. split_and!; done.
  + destruct (LRU_places w2 b (counted_read p)
                (set_recentHit (mkFrame pn false 1 false 0 0 (Some buf))
                               (recentHitCount p + 1)) u fu)
      as (w' & p' & v & g & E' & Hv & Hg1 & Hg2 & Hg3 & Hg4); [|done..|].
    { eapply Forall_impl; [exact Hrh|]. simpl. intros; lia. }
    destruct (LRU_result _ _ _ _ _ _ E') as (_ & Hrd & _).
    rewrite E'. exists w', p', v, g. split_and!; done.
  + destruct (CLOCK_places w2 b (counted_read p)
                (set_secondChance (mkFrame pn false 1 false 0 0 (Some buf)) false) u fu)
      as (w' & p' & v & g & E' & Hv & Hg1 & Hg2 & Hg3 & Hg4); [done..|].
    destruct (CLOCK_loop_result _ _ _ _ _ _ _ E') as (_ & Hrd & _).
    rewrite E'. exists w', p', v, g. split_and!; done.
Qed.

Lemma pinPage_miss_loads_page_witness :
  ∃ w' p' v g,
    pinPage full_one_unpinned.1.1 (Some (pool_of full_one_unpinned))
            (Some blank_page) 0
      = (RC_OK, w', Some (set_mgmtData (pool_of full_one_unpinned) (Some p')),
         Some (mkPage 0 (Some (page_or_zeros (contents (zero_file 3 true)) 3 0)))) ∧
    frames p' !! v = Some g ∧ pageNumber g = 0 ∧ accessCount g = 1.
Proof.
  destruct (pinPage_miss_loads_page full_one_unpinned.1.1
              (pool_of full_one_unpinned) (info_of full_one_unpinned)
              blank_page 0 (zero_file 3 true) 3)
    as (w' & p' & v & g & E & Hv & Hpn & Ha & _).
  - apply session_ok_full_one_unpinned. vm_compute. reflexivity.
  - vm_compute. reflexivity.
  - vm_compute. discriminate.
  - vm_compute. reflexivity.
  - left. reflexivity.
  - vm_compute. reflexivity.
  - vm_compute. reflexivity.
  - lia.
  - vm_compute. discriminate.
  - vm_compute. repeat constructor; discriminate.
  - vm_compute. constructor. right. reflexivity.
  - exists w', p', v, g. split_and!; [exact E|exact Hv|exact Hpn|exact Ha].
Defined.

Lemma frame_ok_empty_data f :
  frame_ok f → pageNumber f = NO_PAGE → set_data f None = f.
Proof. intros (_ & Hd & _) Hno. specialize (Hd Hno). destruct f; simpl in *. by subst. Qed.

Lemma pool_frames_ok b p i f :
  reachable b → mgmtData b = Some p → frames p !! i = Some f → frame_ok f.
Proof.
  intros Hr Hp Hi. destruct (reachable_pool_good b Hr) as [_ Hinv].
  destruct (Hinv p Hp) as (_ & _ & (Hok & _) & _).
  exact (proj1 (Forall_lookup _ _) Hok i f Hi).
Qed.

(** The page handle a failed [pinPage] hands back is the one it was given,
    unless the strategy is unknown. *)
Lemma pinPage_failure_handle w b pg pn rc w' bm' pg' :
  strategy b ≠ RS_OTHER →
  pinPage w (Some b) pg pn = (rc, w', bm', pg') → rc ≠ RC_OK → pg' = pg.
Proof.
  intros Hs H Hrc. unfold pinPage in H.
  destruct pg as [pg|]; [|by injection H as <- <- <- <-].
  destruct (mgmtData b) as [p|]; [|by injection H as <- <- <- <-].
  destruct (openPageFile w (pageFile b) blank_handle) as [rco fh].
  destruct rco; try (by injection H as <- <- <- <-).
  destruct (list_find (λ f, pageNumber f = pn) (frames p)) as [[i f]|].
  { destruct (pinPage_hit b p i f pn). by injection H as <- <- <- <-. }
  destruct (list_find (λ f, pageNumber f = NO_PAGE) (frames p)) as [[i f]|].
  { unfold pinPage_empty in H.
    destruct (malloc w) as [got1 w2]. destruct got1; simpl in H;
      [|by injection H as <- <- <- <-].
    destruct (ensureCapacity w2 (int_wrap (pn + 1)) (Some fh)) as [[rc3 w3] fh3].
    destruct (readBlock w3 pn fh3 _) as [[rcr fhr] buf].
    destruct rcr; by injection H as <- <- <- <-. }
  unfold pinPage_replace in H.
  destruct (malloc w) as [got1 w2]. destruct got1; simpl in H;
    [|by injection H as <- <- <- <-].
  destruct (malloc w2) as [got2 w3]. destruct got2; simpl in H;
    [|by injection H as <- <- <- <-].
  destruct (ensureCapacity w3 (int_wrap (pn + 1)) (Some fh)) as [[rc3 w4] fh3].
  destruct (readBlock w4 pn fh3 _) as [[rcr fhr] buf].
  destruct rcr; try (by injection H as <- <- <- <-).
  destruct (strategy b); [| | |done].
  - destruct (FIFO _ _ _ _). by injection H as <- <- <- <-.
  - destruct (LRU _ _ _ _). by injection H as <- <- <- <-.
  - destruct (CLOCK _ _ _ _). by injection H as <- <- <- <-.
Qed.

(** X19: in a pool a client can get to, with one of the three strategies, a
    [pinPage] that returns anything but [RC_OK] leaves the pool and the page
    handle exactly as they were. *)
Theorem pinPage_failure_keeps_pool w b pg pn rc w' bm' pg' :
  reachable b → strategy b ≠ RS_OTHER →
  pinPage w (Some b) pg pn = (rc, w', bm', pg') → rc ≠ RC_OK →
  bm' = Some b ∧ pg' = pg.
Proof.
  intros Hr Hs H Hrc. split; [|by eapply pinPage_failure_handle].
  destruct pg as [pg|]; [|unfold pinPage in H; by injection H as <- <- <- <-].
  destruct (mgmtData b) as [p|] eqn:Hp.
  2:{ unfold pinPage in H. rewrite Hp in H. by injection H as <- <- <- <-. }
  destruct (pinPage_outcome _ _ _ _ _ _ _ _ _ Hp H) as (p' & -> & Hout).
  f_equal.
  destruct Hout as [ |i f f' ? ? ? ? ? ?
                     |i f rc0 Hnr (Hi & Hpf & _) Hrc0
                     |i f g ? ? ? ?
                     |rc0 ? ? ?
                     |page p' ? ? ? ? ? ?
                     |? ? Hs'].
  - by apply set_mgmtData_same.
  - done.
  - rewrite (frame_ok_empty_data f); [|by eapply pool_frames_ok|done].
    rewrite list_insert_id by done.
    rewrite set_frames_same. by apply set_mgmtData_same.
  - done.
  - by apply set_mgmtData_same.
  - done.
  - done.
Qed.

Lemma pinPage_failure_keeps_pool_witness :
  (pinPage one_pinned.1.1 (Some (pool_of one_pinned)) (Some blank_page) (-5)).1.2
    = Some (pool_of one_pinned) ∧
  (pinPage one_pinned.1.1 (Some (pool_of one_pinned)) (Some blank_page) (-5)).2
    = Some blank_page.
Proof.
  apply (pinPage_failure_keeps_pool one_pinned.1.1 (pool_of one_pinned)
           (Some blank_page) (-5) RC_READ_NON_EXISTING_PAGE
           (pinPage one_pinned.1.1 (Some (pool_of one_pinned))
                    (Some blank_page) (-5)).1.1.2).
  - apply session_ok_one_pinned. vm_compute. reflexivity.
  - vm_compute. discriminate.
  - vm_compute. reflexivity.
  - discriminate.
Defined.

(** X16: in every pool a client can get to through the interface, whatever the
    calls returned: the frame array has the length the pool was set up with,
    which is positive; no fix count is negative, so that [getFixCounts]
    reports the counts as they are; a frame with a page has a page number that
    is not negative and a buffer of [PAGE_SIZE] bytes, an empty frame has no
    buffer; and the I/O counters are not negative. *)
Theorem reachable_frames_well_formed b p :
  reachable b → mgmtData b = Some p →
  Z.of_nat (length (frames p)) = numPages b ∧ 0 < numPages b ∧
  Forall frame_ok (frames p) ∧
  getFixCounts (Some b) = Some (accessCount <$> frames p) ∧
  0 ≤ getNumReadIO (Some b) ∧ 0 ≤ getNumWriteIO (Some b).
Proof.
  intros Hr Hp. destruct (reachable_pool_good b Hr) as [Hn Hinv].
  destruct (Hinv p Hp) as (Hsz & _ & (Hok & _) & _ & Hrd & Hwr).
  split_and!; try done.
  - unfold getFixCounts. simpl. rewrite Hp. simpl. f_equal.
    apply list_eq. intros i. rewrite !list_lookup_fmap.
    destruct (frames p !! i) as [f|] eqn:Hi; [|done]. simpl. f_equal.
    destruct (proj1 (Forall_lookup _ _) Hok i f Hi) as (Ha & _).
    destruct (accessCount f >? 0) eqn:E; [done|]. lia.
  - unfold getNumReadIO. by rewrite Hp.
  - unfold getNumWriteIO. by rewrite Hp.
Qed.

Lemma reachable_frames_well_formed_witness :
  getFixCounts (Some (pool_of two_dirty_one_pinned))
    = Some (accessCount <$> frames (info_of two_dirty_one_pinned)).
Proof.
  destruct (reachable_frames_well_formed (pool_of two_dirty_one_pinned)
              (info_of two_dirty_one_pinned)) as (_ & _ & _ & Hfix & _).
  - apply session_ok_two_dirty_one_pinned. vm_compute. reflexivity.
  - vm_compute. reflexivity.
  - exact Hfix.
Defined.

(** X17: in every pool a client can get to, a page is in one frame at most: the
    frame that the search by page number finds is the only frame with the
    page. *)
Theorem reachable_pages_unique b p i f :
  reachable b → mgmtData b = Some p →
  frames p !! i = Some f → pageNumber f ≠ NO_PAGE →
  resident_at (frames p) (pageNumber f) i f ∧
  ∀ j g, frames p !! j = Some g → pageNumber g = pageNumber f → j = i.
Proof.
  intros Hr Hp Hi Hne. destruct (reachable_pool_good b Hr) as [_ Hinv].
  destruct (Hinv p Hp) as (_ & _ & (_ & Hu & _) & _).
  assert (Hone : ∀ j g, frames p !! j = Some g → pageNumber g = pageNumber f → j = i).
  { intros j g Hj Hg. eapply (Hu j i g f); eauto. congruence. }
  split; [|exact Hone].
  split_and!; [done|done|]. intros j g Hj Hlt Hg.
  specialize (Hone j g Hj Hg). lia.
Qed.

Lemma reachable_pages_unique_witness :
  resident_at (frames (info_of two_dirty_one_pinned))
              (pageNumber (frame_of two_dirty_one_pinned 1)) 1
              (frame_of two_dirty_one_pinned 1).
Proof.
  destruct (reachable_pages_unique (pool_of two_dirty_one_pinned)
              (info_of two_dirty_one_pinned) 1 (frame_of two_dirty_one_pinned 1))
    as [Hres _].
  - apply session_ok_two_dirty_one_pinned. vm_compute. reflexivity.
  - vm_compute. reflexivity.
  - vm_compute. reflexivity.
  - vm_compute. discriminate.
  - exact Hres.
Defined.

(** X20: the I/O counters under [pinPage]: the frame array keeps its length
    and each counter goes up by one at most; a call that succeeds counts a
    read exactly when the page was in no frame; a call that fails counts none,
    unless the strategy is unknown; a write is counted only by a successful
    miss that found no empty frame. *)
Theorem pinPage_io_accounting w b p pg pn rc w' bm' pg' :
  mgmtData b = Some p →
  pinPage w (Some b) (Some pg) pn = (rc, w', bm', pg') →
  ∃ p', bm' = Some (set_mgmtData b (Some p')) ∧
    length (frames p') = length (frames p) ∧
    readCount p ≤ readCount p' ≤ readCount p + 1 ∧
    writeCount p ≤ writeCount p' ≤ writeCount p + 1 ∧
    (rc = RC_OK →
       (readCount p' = readCount p + 1 ↔ not_resident (frames p) pn)) ∧
    (rc ≠ RC_OK → readCount p' = readCount p + 1 → strategy b = RS_OTHER) ∧
    (writeCount p' = writeCount p + 1 →
       rc = RC_OK ∧ not_resident (frames p) pn ∧ not_resident (frames p) NO_PAGE).
Proof.
  intros Hp H.
  destruct (pinPage_outcome _ _ _ _ _ _ _ _ _ Hp H) as (p' & -> & Hout).
  exists p'. split; [done|].
  assert (Hexcl : ∀ i f, resident_at (frames p) pn i f → ¬ not_resident (frames p) pn).
  { intros i f (Hi & Hpn & _) Hnr. by destruct (not_resident_lookup _ _ _ _ Hnr Hi). }
  destruct Hout as [ |i f f' Hres ? ? ? ? ?
                     |i f rc0 Hnr (Hi & Hpf & _) Hrc0
                     |i f g Hnr ? ? ?
                     |rc0 Hnr Hne Hrc0
                     |page p' Hnr Hne Hs ? ? (Hev & Hrd & Hhit & Hwr)
                     |Hnr Hne Hs]; simpl.
  - split_and!; try lia; done.
  - rewrite length_insert. split_and!; try lia; try done.
    all: try (intros _; split; [lia|]; intros Hnr; by destruct (Hexcl i f Hres)).
  - rewrite length_insert. split_and!; try lia.
    all: try (intros ->; destruct Hrc0; congruence).
  - rewrite length_insert. split_and!; try lia; try done.
  - split_and!; try lia. all: try (intros ->; destruct Hrc0; congruence).
  - simpl in *. rewrite (evicts_length _ _ _ Hev). split_and!; try lia; try done.
    all: try (intros _; split; [done|lia]).
  - split_and!; try lia; done.
Qed.

Lemma pinPage_io_accounting_witness :
  ∃ p',
    (pinPage one_pinned.1.1 (Some (pool_of one_pinned)) (Some blank_page) 0).1.2
      = Some (set_mgmtData (pool_of one_pinned) (Some p')) ∧
    readCount (info_of one_pinned) ≤ readCount p'
      ≤ readCount (info_of one_pinned) + 1.
Proof.
  destruct (pinPage_io_accounting one_pinned.1.1 (pool_of one_pinned)
              (info_of one_pinned) blank_page 0 RC_OK
              (pinPage one_pinned.1.1 (Some (pool_of one_pinned))
                       (Some blank_page) 0).1.1.2
              (pinPage one_pinned.1.1 (Some (pool_of one_pinned))
                       (Some blank_page) 0).1.2
              (pinPage one_pinned.1.1 (Some (pool_of one_pinned))
                       (Some blank_page) 0).2)
    as (p' & E & _ & Hr & _).
  - vm_compute. reflexivity.
  - vm_compute. reflexivity.
  - exists p'. split; [exact E|exact Hr].
Defined.



(** X22: FIFO replaces the first frame from its cursor on, going round the
    array, that is not pinned; the other frames stay as they are and the cursor
    comes to stand behind the replaced frame. *)
Theorem FIFO_takes_first_unpinned w b p page d f :
  0 ≤ frameIndex p < bufferSize p →
  (d < length (frames p))%nat →
  frame_after (frames p) (frameIndex p) d = Some f →
  accessCount f = 0 →
  (∀ k g, (k < d)%nat → frame_after (frames p) (frameIndex p) k = Some g →
          accessCount g ≠ 0) →
  ∃ w' p',
    FIFO w b p page = (w', p') ∧
    frames p' = <[Z.to_nat ((frameIndex p + Z.of_nat d) mod bufferSize p)
                  := replace_FIFO f page]> (frames p) ∧
    frameIndex p' = (frameIndex p + Z.of_nat d + 1) mod bufferSize p.
Proof.
  intros Hc Hd Hf Ha Hbefore. unfold FIFO.
  apply FIFO_loop_victim; try done. unfold bufferSize. lia.
Qed.

Lemma FIFO_takes_first_unpinned_witness :
  ∃ w' p',
    FIFO full_second_unpinned.1.1 (pool_of full_second_unpinned)
         (info_of full_second_unpinned) page7 = (w', p') ∧
    frameIndex p'
      = (frameIndex (info_of full_second_unpinned) + Z.of_nat 1 + 1)
          mod bufferSize (info_of full_second_unpinned).
Proof.
  destruct (FIFO_takes_first_unpinned full_second_unpinned.1.1
              (pool_of full_second_unpinned) (info_of full_second_unpinned)
              page7 1 (frame_of full_second_unpinned 1))
    as (w' & p' & E & _ & Hi).
  - vm_compute. split; [discriminate|reflexivity].
  - vm_compute. lia.
  - vm_compute. reflexivity.
  - vm_compute. reflexivity.
  - intros k g Hk Hg. assert (k = 0%nat) as -> by lia.
    vm_compute in Hg. injection Hg as <-. vm_compute. discriminate.
  - exists w', p'. split; [exact E|exact Hi].
Defined.

(** X23: when some frame is not pinned and no frame carries a tick above the
    tick counter, LRU replaces the unpinned frame with the smallest tick, the
    first such in frame order, and no other frame changes. *)
Theorem LRU_takes_least_recently_used w b p page u fu :
  frames p !! u = Some fu → accessCount fu = 0 →
  Forall (λ f, recentHit f ≤ recentHitCount p) (frames p) →
  ∃ v f w' p',
    LRU w b p page = (w', p') ∧
    frames p !! v = Some f ∧ accessCount f = 0 ∧
    (∀ j g, frames p !! j = Some g → accessCount g = 0 →
            recentHit f ≤ recentHit g ∧ ((j < v)%nat → recentHit f < recentHit g)) ∧
    frames p' = <[v := replace_LRU f page]> (frames p).
Proof.
  intros Hu Ha Hr.
  destruct (LRU_victim w b p page u fu Hu Ha Hr) as (v & f & w' & p0 & Hv & Hfa & Hmin & _ & E).
  exists v, f, w'. eexists. split; [exact E|]. done.
Qed.

Lemma LRU_takes_least_recently_used_witness :
  ∃ v f w' p',
    LRU two_dirty_one_pinned.1.1 (pool_of two_dirty_one_pinned)
        (info_of two_dirty_one_pinned) page7 = (w', p') ∧
    frames (info_of two_dirty_one_pinned) !! v = Some f ∧ accessCount f = 0.
Proof.
  destruct (LRU_takes_least_recently_used two_dirty_one_pinned.1.1
              (pool_of two_dirty_one_pinned) (info_of two_dirty_one_pinned)
              page7 0 (frame_of two_dirty_one_pinned 0))
    as (v & f & w' & p' & E & Hv & Ha & _).
  - vm_compute. reflexivity.
  - vm_compute. reflexivity.
  - vm_compute. repeat constructor; discriminate.
  - exists v, f, w', p'. split_and!; [exact E|exact Hv|exact Ha].
Defined.

(** X24: with the hand inside the frame array and some frame not pinned, the
    two sweeps of CLOCK are enough: the page is in a frame afterwards, and
    every pinned frame is as it was. *)
Theorem CLOCK_finds_a_frame w b p page u fu :
  0 ≤ clockPointer p < bufferSize p →
  frames p !! u = Some fu → accessCount fu = 0 →
  ∃ w' p' v g,
    CLOCK w b p page = (w', p') ∧
    frames p' !! v = Some g ∧ holds page g ∧
    pinned_kept (frames p) (frames p').
Proof.
  intros Hc Hu Ha.
  destruct (CLOCK_places w b p page u fu Hc Hu Ha) as (w' & p' & v & g & E & Hv & Hg).
  exists w', p', v, g. split_and!; try done.
  unfold CLOCK in E. by eapply CLOCK_loop_pinned_kept.
Qed.

Lemma CLOCK_finds_a_frame_witness :
  ∃ w' p' v g,
    CLOCK full_one_unpinned.1.1 (pool_of full_one_unpinned)
          (info_of full_one_unpinned) page7 = (w', p') ∧
    frames p' !! v = Some g ∧ holds page7 g.
Proof.
  destruct (CLOCK_finds_a_frame full_one_unpinned.1.1
              (pool_of full_one_unpinned) (info_of full_one_unpinned)
              page7 0 (frame_of full_one_unpinned 0))
    as (w' & p' & v & g & E & Hv & Hg & _).
  - vm_compute. split; [discriminate|reflexivity].
  - vm_compute. reflexivity.
  - vm_compute. reflexivity.
  - exists w', p', v, g. split_and!; [exact E|exact Hv|exact Hg].
Defined.

Lemma resident_at_insert fs pn i f f' :
  resident_at fs pn i f → pageNumber f' = pn →
  resident_at (<[i := f']> fs) pn i f'.
Proof.
  intros (Hi & Hpn & Hfirst) Hpn'. split_and!; [|done|].
  - apply list_lookup_insert_eq. by eapply lookup_lt_Some.
  - intros j g Hj Hlt. rewrite list_lookup_insert_ne in Hj by lia. by eapply Hfirst.
Qed.

Lemma getFixCounts_Some b p :
  mgmtData b = Some p →
  getFixCounts (Some b)
    = Some ((λ f, if accessCount f >? 0 then accessCount f else 0) <$> frames p).
Proof. intros Hp. unfold getFixCounts. simpl. by rewrite Hp. Qed.

Lemma getDirtyFlags_Some b p :
  mgmtData b = Some p → getDirtyFlags (Some b) = Some (dirtybit <$> frames p).
Proof. intros Hp. unfold getDirtyFlags. simpl. by rewrite Hp. Qed.

Lemma getFrameContents_Some b p :
  mgmtData b = Some p →
  getFrameContents (Some b)
    = Some ((λ f, if pageNumber f =? NO_PAGE then NO_PAGE else pageNumber f)
              <$> frames p).
Proof. intros Hp. unfold getFrameContents. simpl. by rewrite Hp. Qed.

(** X21: pinning a page that is in a frame and unpinning it again through the
    handle that [pinPage] filled in: both calls succeed without touching a
    file, and fix counts, dirty flags, frame contents and I/O counters are
    afterwards as they were before; the frame keeps page and buffer. *)
Theorem pinPage_then_unpinPage w b p pg pn i f file :
  reachable b → mgmtData b = Some p →
  files w (pageFile b) = Some file →
  resident_at (frames p) pn i f →
  ∃ b1 pg1 b2 p2 f2,
    pinPage w (Some b) (Some pg) pn = (RC_OK, w, Some b1, Some pg1) ∧
    pageNum pg1 = pn ∧ pageData pg1 = data f ∧
    unpinPage w (Some b1) (Some pg1) = (RC_OK, w, Some b2) ∧
    mgmtData b2 = Some p2 ∧
    frames p2 = <[i := f2]> (frames p) ∧
    pageNumber f2 = pn ∧ accessCount f2 = accessCount f ∧
    dirtybit f2 = dirtybit f ∧ data f2 = data f ∧
    getFixCounts (Some b2) = getFixCounts (Some b) ∧
    getDirtyFlags (Some b2) = getDirtyFlags (Some b) ∧
    getFrameContents (Some b2) = getFrameContents (Some b) ∧
    getNumReadIO (Some b2) = getNumReadIO (Some b) ∧
    getNumWriteIO (Some b2) = getNumWriteIO (Some b).
Proof.
  intros Hreach Hp Hf Hr.
  pose proof Hr as (Hi & Hpn & _).
  pose proof (pool_frames_ok b p i f Hreach Hp Hi) as (Hge & _).
  set (f1 := match strategy b with
             | RS_CLOCK => set_secondChance (set_accessCount f (accessCount f + 1)) true
             | RS_LRU => set_recentHit (set_accessCount f (accessCount f + 1))
                           (recentHitCount p + 1)
             | _ => set_accessCount f (accessCount f + 1)
             end).
  assert (Hf1 : pageNumber f1 = pn ∧ accessCount f1 = accessCount f + 1 ∧
                dirtybit f1 = dirtybit f ∧ data f1 = data f).
  { unfold f1. by destruct (strategy b). }
  destruct Hf1 as (Hf1p & Hf1a & Hf1d & Hf1b).
  set (p1 := set_recentHitCount (set_frames p (<[i := f1]> (frames p)))
                                (recentHitCount p + 1)).
  assert (E1 : pinPage w (Some b) (Some pg) pn
               = (RC_OK, w, Some (set_mgmtData b (Some p1)), Some (mkPage pn (data f1)))).
  { unfold pinPage, openPageFile, fopen_r.
    rewrite Hp, Hf, (proj1 (resident_at_find _ _ _ _) Hr). done. }
  pose proof (resident_at_insert _ _ _ _ f1 Hr Hf1p) as Hr1.
  set (f2 := set_accessCount f1 (accessCount f1 - 1)).
  set (p2 := set_frames p1 (<[i := f2]> (frames p1))).
  assert (E2 : unpinPage w (Some (set_mgmtData b (Some p1))) (Some (mkPage pn (data f1)))
               = (RC_OK, w, Some (set_mgmtData (set_mgmtData b (Some p1)) (Some p2)))).
  { unfold unpinPage. cbn [mgmtData set_mgmtData pageNum].
    cbn [frames p1 set_recentHitCount set_frames].
    rewrite (proj1 (resident_at_find _ _ _ _) Hr1).
    replace (accessCount f1 >? 0) with true by lia. done. }
  assert (Hfr : frames p2 = <[i := f2]> (frames p)).
  { unfold p2, p1. cbn [frames set_frames set_recentHitCount].
    by rewrite list_insert_insert_eq. }
  assert (Hf2 : pageNumber f2 = pn ∧ accessCount f2 = accessCount f ∧
                dirtybit f2 = dirtybit f ∧ data f2 = data f).
  { unfold f2. destruct f1; simpl in *. split_and!; try done. lia. }
  destruct Hf2 as (Hf2p & Hf2a & Hf2d & Hf2b).
  assert (Hmap : ∀ {A} (h : FrameInfo → A), h f2 = h f →
            h <$> <[i := f2]> (frames p) = h <$> frames p).
  { intros A h Hh. rewrite list_fmap_insert, Hh.
    apply list_insert_id. by rewrite list_lookup_fmap, Hi. }
  exists (set_mgmtData b (Some p1)), (mkPage pn (data f1)),
         (set_mgmtData (set_mgmtData b (Some p1)) (Some p2)), p2, f2.
  set (b2 := set_mgmtData (set_mgmtData b (Some p1)) (Some p2)).
  assert (Hp2 : mgmtData b2 = Some p2) by done.
  split_and!; try done.
  - rewrite (getFixCounts_Some b2 p2 Hp2), (getFixCounts_Some _ p Hp), Hfr.
    f_equal. apply Hmap. by rewrite Hf2a.
  - rewrite (getDirtyFlags_Some b2 p2 Hp2), (getDirtyFlags_Some _ p Hp), Hfr.
    f_equal. by apply Hmap.
  - rewrite (getFrameContents_Some b2 p2 Hp2), (getFrameContents_Some _ p Hp), Hfr.
    f_equal. apply Hmap. by rewrite Hf2p, Hpn.
  - unfold getNumReadIO. simpl. by rewrite Hp.
  - unfold getNumWriteIO. simpl. by rewrite Hp.
Qed.

Lemma pinPage_then_unpinPage_witness :
  ∃ b1 pg1 b2,
    pinPage one_pinned.1.1 (Some (pool_of one_pinned)) (Some blank_page) 0
      = (RC_OK, one_pinned.1.1, Some b1, Some pg1) ∧
    unpinPage one_pinned.1.1 (Some b1) (Some pg1)
      = (RC_OK, one_pinned.1.1, Some b2) ∧
    getFixCounts (Some b2) = getFixCounts (Some (pool_of one_pinned)).
Proof.
  destruct (pinPage_then_unpinPage one_pinned.1.1 (pool_of one_pinned)
              (info_of one_pinned) blank_page 0 0 (frame_of one_pinned 0)
              (zero_file 1 true))
    as (b1 & pg1 & b2 & p2 & f2 & E1 & _ & _ & E2 & _ & _ & _ & _ & _ & _ & Hfix & _).
  - apply session_ok_one_pinned. vm_compute. reflexivity.
  - vm_compute. reflexivity.
  - vm_compute. reflexivity.
  - split_and!; [vm_compute; reflexivity|vm_compute; reflexivity|].
    intros j g _ Hj. lia.
  - exists b1, pg1, b2. split_and!; [exact E1|exact E2|exact Hfix].
Defined.

(** ** A flush writes through *)

Lemma written_out_cons bytes f fs :
  written_out bytes (f :: fs)
    = written_out (if flushable f
                   then pwrite bytes (Z.to_nat (pageNumber f * PAGE_SIZE))
                               (page_bytes (default [] (data f)))
                   else bytes) fs.
Proof. reflexivity. Qed.

Lemma page_bytes_id buf : length buf = page_len → page_bytes buf = buf.
Proof.
  intros Hl. unfold page_bytes. rewrite take_app_le by lia. apply take_ge. lia.
Qed.

Lemma pwrite_page_length bytes T pn src :
  Z.of_nat (length bytes) = T * PAGE_SIZE → 0 ≤ pn < T → length src = page_len →
  length (pwrite bytes (Z.to_nat (pn * PAGE_SIZE)) src) = length bytes.
Proof.
  intros Hlen Hpn Hsrc. rewrite pwrite_length, Hsrc.
  pose proof page_len_Z. pose proof PAGE_SIZE_pos. nia.
Qed.

Lemma page_of_pwrite_same bytes pn src :
  length src = page_len →
  page_of (pwrite bytes (Z.to_nat (pn * PAGE_SIZE)) src) pn = src.
Proof.
  intros Hsrc. unfold page_of. rewrite <- Hsrc. apply pread_pwrite.
Qed.

Lemma page_of_pwrite_other bytes T pn pn' src :
  Z.of_nat (length bytes) = T * PAGE_SIZE → 0 ≤ pn → 0 ≤ pn' < T → pn' ≠ pn →
  length src = page_len →
  page_of (pwrite bytes (Z.to_nat (pn * PAGE_SIZE)) src) pn' = page_of bytes pn'.
Proof.
  intros Hlen Hpn Hpn' Hne Hsrc. unfold page_of.
  pose proof page_len_Z. pose proof PAGE_SIZE_pos.
  apply pread_pwrite_other; [rewrite Hsrc|]; nia.
Qed.

Lemma written_out_spec fs : ∀ bytes T,
  Z.of_nat (length bytes) = T * PAGE_SIZE →
  Forall (λ f, flushable f = true → 0 ≤ pageNumber f < T) fs →
  length (written_out bytes fs) = length bytes ∧
  (∀ pn, 0 ≤ pn < T →
     (∀ j g, fs !! j = Some g → flushable g = true → pageNumber g ≠ pn) →
     page_of (written_out bytes fs) pn = page_of bytes pn) ∧
  (∀ i f, fs !! i = Some f → flushable f = true →
     (∀ j g, fs !! j = Some g → flushable g = true →
             pageNumber g = pageNumber f → j = i) →
     page_of (written_out bytes fs) (pageNumber f)
       = page_bytes (default [] (data f))).
Proof.
  induction fs as [|f rest IH]; intros bytes T Hlen Hall.
  - split_and!; [done|done|]. intros i f Hi. done.
  - rewrite written_out_cons. apply Forall_cons in Hall as [Hf Hrest].
    set (bytes1 := if flushable f
                   then pwrite bytes (Z.to_nat (pageNumber f * PAGE_SIZE))
                               (page_bytes (default [] (data f)))
                   else bytes).
    assert (Hlen1 : length bytes1 = length bytes).
    { unfold bytes1. destruct (flushable f) eqn:E; [|done].
      eapply pwrite_page_length; [done|by apply Hf|apply page_bytes_length]. }
    assert (Hother : ∀ pn, 0 ≤ pn < T → (flushable f = true → pageNumber f ≠ pn) →
              page_of bytes1 pn = page_of bytes pn).
    { intros pn Hpn Hne. unfold bytes1. destruct (flushable f) eqn:E; [|done].
      eapply page_of_pwrite_other; [done|by apply Hf|done| |apply page_bytes_length].
      intros ->. by apply Hne. }
    destruct (IH bytes1 T) as (IHl & IHo & IHs); [by rewrite Hlen1|done|].
    split_and!.
    + by rewrite IHl.
    + intros pn Hpn Hno. rewrite IHo; [|done|].
      * apply Hother; [done|]. intros E. by apply (Hno 0%nat f).
      * intros j g Hj. by apply (Hno (S j) g).
    + intros [|i] h Hi Hh Huniq; simpl in Hi.
      * injection Hi as <-. rewrite IHo.
        -- unfold bytes1. rewrite Hh. apply page_of_pwrite_same, page_bytes_length.
        -- by apply Hf.
        -- intros j g Hj Hg Heq. by specialize (Huniq (S j) g Hj Hg Heq).
      * apply (IHs i); [done|done|].
        intros j g Hj Hg Heq. by specialize (Huniq (S j) g Hj Hg Heq) as [= ->].
Qed.

Lemma flush_frames_contents fs : ∀ w fh n bytes,
  files w (fileName fh) = Some (mkFile bytes true) →
  Z.of_nat (length bytes) = totalNumPages fh * PAGE_SIZE →
  Z.of_nat (length bytes) ≤ INT_MAX →
  Forall (λ f, flushable f = true →
            0 ≤ pageNumber f < totalNumPages fh ∧ is_Some (data f)) fs →
  ∃ w' n',
    flush_frames w (Some fh) fs n = (RC_OK, w', flushed <$> fs, n') ∧
    files w' (fileName fh) = Some (mkFile (written_out bytes fs) true) ∧
    (∀ other, other ≠ fileName fh → files w' other = files w other).
Proof.
  induction fs as [|f rest IH]; intros w fh n bytes Hf Hlen Hmax Hall.
  - exists w, n. done.
  - rewrite flush_frames_cons, written_out_cons.
    apply Forall_cons in Hall as [Hfl Hrest].
    destruct (flushable f) eqn:E.
    + destruct (Hfl eq_refl) as [Hpn [buf Hbuf]].
      pose proof PAGE_SIZE_pos as HP.
      assert (Hoff : page_offset (pageNumber f) = pageNumber f * PAGE_SIZE)
        by (apply page_offset_id; [lia|nia]).
      destruct (writeBlock_cases w (pageNumber f) fh (data f))
        as [(buf' & file' & Hb & _ & Hf' & Hw' & Ew) | (rc & Hrc & Ew & Hwhy)].
      2:{ exfalso. unfold fopen_rw in Hwhy. rewrite Hf, Hbuf, Hoff in Hwhy. simpl in Hwhy.
          destruct Hwhy as [?|[?|[?|[?|?]]]]; try done; nia. }
      rewrite Hoff in Ew.
      rewrite Ew. rewrite Hf in Hf'. injection Hf' as <-.
      rewrite Hbuf in Hb. injection Hb as <-. cbn [contents].
      set (bytes1 := pwrite bytes (Z.to_nat (pageNumber f * PAGE_SIZE)) (page_bytes buf)).
      assert (Hlen1 : length bytes1 = length bytes).
      { eapply pwrite_page_length; [done|done|apply page_bytes_length]. }
      rewrite Hlen1, Hlen.
      rewrite pages_of_size_mul by lia.
      set (w1 := fwrite w (fileName fh) (mkFile bytes true) _ _).
      destruct (IH w1 (mkHandle (fileName fh) (totalNumPages fh) (pageNumber f))
                   (n + 1) bytes1) as (w' & n' & E' & Hf1 & Ho1).
      * unfold w1. cbn [fileName]. rewrite files_fwrite_same. done.
      * cbn [totalNumPages]. by rewrite Hlen1.
      * by rewrite Hlen1.
      * done.
      * exists w', n'. rewrite E'. cbn [fileName] in *.
        rewrite fmap_cons, (flushed_true _ E), Hbuf. cbn [default].
        split_and!; [done|done|].
        intros other Ho. rewrite Ho1 by done. unfold w1. by apply files_fwrite_other.
    + destruct (IH w fh n bytes) as (w' & n' & E' & Hf1 & Ho1); [done..|].
      exists w', n'. rewrite E'. by rewrite fmap_cons, (flushed_false _ E).
Qed.

(** X25: a flush writes through: in a pool a client can get to, over a
    writable page file of whole pages and of at most [INT_MAX] bytes (every
    byte offset fits an [int]) that holds the pages of all frames that
    are dirty and not pinned, [forceFlushPool] succeeds, the file keeps its
    size, every such frame's buffer is afterwards the content of the page of
    its number, every other page of the file is as before, and no other file is
    touched. *)
Theorem forceFlushPool_writes_through w b p file T :
  reachable b → mgmtData b = Some p →
  files w (pageFile b) = Some file → writable file = true →
  file_size file = T * PAGE_SIZE → file_size file ≤ INT_MAX →
  Forall (λ f, flushable f = true → pageNumber f ≠ NO_PAGE ∧ pageNumber f < T)
         (frames p) →
  ∃ w' b' file',
    forceFlushPool w (Some b) = (RC_OK, w', Some b') ∧
    files w' (pageFile b) = Some file' ∧
    file_size file' = file_size file ∧ writable file' = true ∧
    (∀ i f buf, frames p !! i = Some f → flushable f = true →
       data f = Some buf → page_of (contents file') (pageNumber f) = buf) ∧
    (∀ pn, 0 ≤ pn < T →
       (∀ i f, frames p !! i = Some f → flushable f = true → pageNumber f ≠ pn) →
       page_of (contents file') pn = page_of (contents file) pn) ∧
    (∀ other, other ≠ pageFile b → files w' other = files w other).
Proof.
  intros Hreach Hp Hf Hw Hsz Hmax Hall.
  destruct (reachable_pool_good b Hreach) as [_ Hinv].
  destruct (Hinv p Hp) as (_ & _ & (Hok & Huniq & _) & _).
  assert (Hin : Forall (λ f, flushable f = true → 0 ≤ pageNumber f < T) (frames p)).
  { apply Forall_lookup. intros i f Hi Hfl.
    destruct (proj1 (Forall_lookup _ _) Hall i f Hi Hfl) as [Hne Hlt].
    destruct (proj1 (Forall_lookup _ _) Hok i f Hi) as (_ & _ & H3).
    destruct (H3 Hne) as [Hge _]. lia. }
  unfold forceFlushPool. rewrite Hp.
  rewrite (openPageFile_whole _ _ _ _ _ Hf Hsz).
  destruct file as [bytes wr]. simpl in Hw. subst wr.
  destruct (flush_frames_contents (frames p) w (mkHandle (pageFile b) T 0)
              (writeCount p) bytes) as (w' & n' & E & Hf' & Ho'); [done|done|done| |].
  { apply Forall_lookup. intros i f Hi Hfl. cbn [totalNumPages].
    split; [exact (proj1 (Forall_lookup _ _) Hin i f Hi Hfl)|].
    destruct (proj1 (Forall_lookup _ _) Hall i f Hi Hfl) as [Hne _].
    destruct (proj1 (Forall_lookup _ _) Hok i f Hi) as (_ & _ & H3).
    destruct (H3 Hne) as (_ & buf & -> & _). done. }
  rewrite E. cbn [fileName] in *.
  destruct (written_out_spec (frames p) bytes T Hsz Hin) as (Hl & Hother & Hsame).
  eexists w', _, _. split; [reflexivity|]. split; [exact Hf'|].
  unfold file_size. cbn [contents writable]. split_and!; [by rewrite Hl|done| |done|done].
  intros i f buf Hi Hfl Hbuf.
  destruct (proj1 (Forall_lookup _ _) Hall i f Hi Hfl) as [Hne _].
  rewrite (Hsame i f Hi Hfl).
  - rewrite Hbuf. cbn [default]. apply page_bytes_id.
    destruct (proj1 (Forall_lookup _ _) Hok i f Hi) as (_ & _ & H3).
    destruct (H3 Hne) as (_ & buf' & Hb' & Hlen). congruence.
  - intros j g Hj _ Heq. eapply Huniq; eauto. congruence.
Qed.

Lemma forceFlushPool_writes_through_witness :
  ∃ w' b' file',
    forceFlushPool two_dirty_one_pinned.1.1 (Some (pool_of two_dirty_one_pinned))
      = (RC_OK, w', Some b') ∧
    files w' (pageFile (pool_of two_dirty_one_pinned)) = Some file' ∧
    file_size file' = file_size (zero_file 2 true).
Proof.
  destruct (forceFlushPool_writes_through two_dirty_one_pinned.1.1
              (pool_of two_dirty_one_pinned) (info_of two_dirty_one_pinned)
              (zero_file 2 true) 2)
    as (w' & b' & file' & E & Hf & Hsz & _).
  - apply session_ok_two_dirty_one_pinned. vm_compute. reflexivity.
  - vm_compute. reflexivity.
  - vm_compute. reflexivity.
  - reflexivity.
  - vm_compute. reflexivity.
  - vm_compute. discriminate.
  - vm_compute. repeat constructor; try discriminate; reflexivity.
  - exists w', b', file'. split_and!; [exact E|exact Hf|exact Hsz].
Defined.

(** ** pinPage: a read-only file, an unknown strategy, a new pool *)

Lemma ensureCapacity_read_only w fh file k :
  files w (fileName fh) = Some file → writable file = false →
  totalNumPages fh < k →
  ensureCapacity w k (Some fh) = (RC_FILE_NOT_FOUND, w, Some fh).
Proof.
  intros Hf Hw Hk. unfold ensureCapacity, fopen_r. rewrite Hf.
  replace (totalNumPages fh >=? k) with false by lia.
  destruct (Z.to_nat (k - totalNumPages fh)) as [|n] eqn:En; [lia|].
  simpl ensureCapacity_loop. replace (totalNumPages fh <? k) with true by lia.
  unfold appendEmptyBlock, fopen_a. by rewrite Hf, Hw.
Qed.

Lemma ensureCapacity_read_only_any w fh file k :
  files w (fileName fh) = Some file → writable file = false →
  ∃ rc, ensureCapacity w k (Some fh) = (rc, w, Some fh).
Proof.
  intros Hf Hw. destruct (decide (totalNumPages fh < k)) as [Hk|Hk].
  - eexists. by apply (ensureCapacity_read_only _ _ file).
  - exists RC_OK. unfold ensureCapacity, fopen_r. rewrite Hf.
    by replace (totalNumPages fh >=? k) with true by lia.
Qed.

Lemma readBlock_beyond w fh pn mem :
  totalNumPages fh ≤ pn →
  readBlock w pn (Some fh) (Some mem)
    = (RC_READ_NON_EXISTING_PAGE, Some fh, Some mem).
Proof.
  intros Hpn. unfold readBlock.
  replace ((pn <? 0) || (pn >=? totalNumPages fh)) with true; [done|].
  symmetry. apply orb_true_iff. right. lia.
Qed.

(** X26: on a page file of whole pages that cannot be written, [pinPage] for a
    page beyond the end of the file, which is in no frame, cannot grow the
    file: it fails with [RC_READ_NON_EXISTING_PAGE] and leaves files, pool and
    page handle exactly as they are. *)
Theorem pinPage_beyond_read_only_file w b p pg pn file T :
  reachable b → mgmtData b = Some p →
  files w (pageFile b) = Some file → writable file = false →
  file_size file = T * PAGE_SIZE → allocs w = [] →
  T ≤ pn → not_resident (frames p) pn →
  pinPage w (Some b) (Some pg) pn
    = (RC_READ_NON_EXISTING_PAGE, w, Some b, Some pg).
Proof.
  intros Hreach Hp Hf Hw Hsz Ha Hpn Hnr.
  unfold pinPage. rewrite Hp.
  rewrite (openPageFile_whole _ _ _ _ _ Hf Hsz).
  rewrite (proj1 (not_resident_find _ _) Hnr).
  destruct (ensureCapacity_read_only_any w (mkHandle (pageFile b) T 0) file
              (int_wrap (pn + 1)) Hf Hw) as (rcc & Ec).
  assert (Er : readBlock w pn (Some (mkHandle (pageFile b) T 0))
                         (Some (replicate page_len x00))
               = (RC_READ_NON_EXISTING_PAGE, Some (mkHandle (pageFile b) T 0),
                  Some (replicate page_len x00))).
  { apply readBlock_beyond. simpl. lia. }
  destruct (list_find (λ f, pageNumber f = NO_PAGE) (frames p)) as [[i f]|] eqn:Ee.
  - apply resident_at_find in Ee as (Hi & Hno & _).
    unfold pinPage_empty. rewrite (malloc_ok _ Ha). simpl negb. cbv iota.
    rewrite Ec, Er.
    rewrite (frame_ok_empty_data f); [|by eapply pool_frames_ok|done].
    rewrite list_insert_id by done.
    by rewrite set_frames_same, (set_mgmtData_same _ _ Hp).
  - unfold pinPage_replace. rewrite (malloc_ok _ Ha). simpl negb. cbv iota.
    rewrite (malloc_ok _ Ha). simpl negb. cbv iota.
    rewrite Ec, Er. by rewrite (set_mgmtData_same _ _ Hp).
Qed.

Lemma pinPage_beyond_read_only_file_witness :
  pinPage dirty_unpinned_readonly.1.1 (Some (pool_of dirty_unpinned_readonly))
          (Some blank_page) 5
    = (RC_READ_NON_EXISTING_PAGE, dirty_unpinned_readonly.1.1,
       Some (pool_of dirty_unpinned_readonly), Some blank_page).
Proof.
  apply (pinPage_beyond_read_only_file dirty_unpinned_readonly.1.1
           (pool_of dirty_unpinned_readonly) (info_of dirty_unpinned_readonly)
           blank_page 5 (zero_file 2 false) 2).
  - apply session_ok_dirty_unpinned_readonly. vm_compute. reflexivity.
  - vm_compute. reflexivity.
  - vm_compute. reflexivity.
  - reflexivity.
  - vm_compute. reflexivity.
  - vm_compute. reflexivity.
  - lia.
  - vm_compute. repeat constructor; discriminate.
Defined.

(** X27: a pool whose strategy is none of FIFO, LRU and CLOCK, and a page whose
    byte offset fits an [int] (a page below 524288).  The pool works as long
    as it has an empty frame: a miss fills the first empty frame.  Once no
    frame is empty, a miss fails with [RC_ERROR], but only after the page has
    been read: the frames stay as they are, yet one read and one tick are
    counted, and the page handle is overwritten: it carries the page number,
    and its pointer is left referring to the buffer of the read, which has
    been freed, so that no buffer can be reached through it. *)
Theorem pinPage_unknown_strategy w b p pg pn file T :
  strategy b = RS_OTHER → mgmtData b = Some p →
  files w (pageFile b) = Some file → writable file = true ∨ pn < T →
  file_size file = T * PAGE_SIZE → allocs w = [] →
  0 ≤ pn → pn * PAGE_SIZE ≤ INT_MAX → not_resident (frames p) pn →
  (∀ i f, resident_at (frames p) NO_PAGE i f →
     ∃ w' g,
       pinPage w (Some b) (Some pg) pn
         = (RC_OK, w',
            Some (set_mgmtData b
                    (Some (counted_read (set_frames p (<[i := g]> (frames p)))))),
            Some (mkPage pn (Some (page_or_zeros (contents file) T pn)))) ∧
       pageNumber g = pn ∧ accessCount g = 1 ∧ dirtybit g = false ∧
       data g = Some (page_or_zeros (contents file) T pn)) ∧
  (not_resident (frames p) NO_PAGE →
     ∃ w',
       pinPage w (Some b) (Some pg) pn
         = (RC_ERROR, w', Some (set_mgmtData b (Some (counted_read p))),
            Some (mkPage pn None))).
Proof.
  intros Hs Hp Hf Hw Hsz Ha Hpn Hmax Hnr. split.
  - intros i f He. by eapply pinPage_into_empty_frame.
  - intros Hne.
    destruct (pinPage_with_full_frames w b p pg pn file T) as (w2 & E); [done..|].
    exists w2. rewrite E, Hs. done.
Qed.

Lemma pinPage_unknown_strategy_witness :
  ∃ w',
    pinPage other_full.1.1 (Some (pool_of other_full)) (Some blank_page) 1
      = (RC_ERROR, w',
         Some (set_mgmtData (pool_of other_full)
                 (Some (counted_read (info_of other_full)))),
         Some (mkPage 1 None)).
Proof.
  destruct (pinPage_unknown_strategy other_full.1.1 (pool_of other_full)
              (info_of other_full) blank_page 1 (zero_file 2 true) 2)
    as [_ Hfull].
  - vm_compute. reflexivity.
  - vm_compute. reflexivity.
  - vm_compute. reflexivity.
  - left. reflexivity.
  - vm_compute. reflexivity.
  - vm_compute. reflexivity.
  - lia.
  - vm_compute. discriminate.
  - vm_compute. repeat constructor; discriminate.
  - apply Hfull. vm_compute. repeat constructor; discriminate.
Defined.

Lemma list_find_replicate (P : FrameInfo → Prop) `{!∀ x, Decision (P x)} n x :
  (0 < n)%nat → P x → list_find P (replicate n x) = Some (0%nat, x).
Proof.
  intros Hn Hx. destruct n as [|n]; [lia|]. simpl.
  by rewrite decide_True.
Qed.

(** X28: a new pool and its first page: [initBufferPool] with a positive
    number of frames and memory to allocate succeeds without touching any
    file; every frame is empty, clean and unpinned and both I/O counters are 0.
    The first [pinPage], on a page file of whole pages that can be written or
    holds the page, for a page whose byte offset fits an [int] (a page below
    524288), then succeeds under any strategy: the page is in frame 0,
    pinned once and clean, the other frames are still empty, one read and no
    write are counted. *)
Theorem initBufferPool_then_pinPage w bm0 name n s pg pn file T :
  0 < n → allocs w = [] →
  files w name = Some file → writable file = true ∨ pn < T →
  file_size file = T * PAGE_SIZE → 0 ≤ pn → pn * PAGE_SIZE ≤ INT_MAX →
  ∃ b w' b',
    initBufferPool w (Some bm0) (Some name) n s = (RC_OK, w, Some b) ∧
    getFrameContents (Some b) = Some (replicate (Z.to_nat n) NO_PAGE) ∧
    getDirtyFlags (Some b) = Some (replicate (Z.to_nat n) false) ∧
    getFixCounts (Some b) = Some (replicate (Z.to_nat n) 0) ∧
    getNumReadIO (Some b) = 0 ∧ getNumWriteIO (Some b) = 0 ∧
    pinPage w (Some b) (Some pg) pn
      = (RC_OK, w', Some b',
         Some (mkPage pn (Some (page_or_zeros (contents file) T pn)))) ∧
    getFrameContents (Some b')
      = Some (pn :: replicate (Z.to_nat n - 1) NO_PAGE) ∧
    getDirtyFlags (Some b') = Some (replicate (Z.to_nat n) false) ∧
    getFixCounts (Some b') = Some (1 :: replicate (Z.to_nat n - 1) 0) ∧
    getNumReadIO (Some b') = 1 ∧ getNumWriteIO (Some b') = 0.
Proof.
  intros Hn Ha Hf Hw Hsz Hpn Hmax.
  set (p0 := mkPool (replicate (Z.to_nat n) empty_frame) 0 0 0 0 0).
  set (b := mkBM name n s (Some p0)).
  assert (Ei : initBufferPool w (Some bm0) (Some name) n s = (RC_OK, w, Some b)).
  { unfold initBufferPool. replace (n <=? 0) with false by lia.
    rewrite (malloc_ok _ Ha). simpl negb. cbv iota.
    rewrite (malloc_ok _ Ha). simpl negb. cbv iota.
    rewrite (malloc_ok _ Ha). simpl negb. cbv iota. done. }
  assert (Hp : mgmtData b = Some p0) by done.
  destruct (Z.to_nat n) as [|m] eqn:En; [lia|].
  destruct (pinPage_into_empty_frame w b p0 pg pn file T 0 empty_frame)
    as (w' & g & E & Hg1 & Hg2 & Hg3 & Hg4); [done..| | |].
  { apply Forall_replicate. unfold empty_frame, NO_PAGE. simpl. lia. }
  { apply resident_at_find. cbn [frames p0]. by apply list_find_replicate; [lia|]. }
  assert (Hins : <[0%nat := g]> (replicate (S m) empty_frame)
                 = g :: replicate m empty_frame) by done.
  set (p1 := counted_read (set_frames p0 (<[0%nat := g]> (frames p0)))) in E.
  assert (Hfr : frames p1 = g :: replicate m empty_frame) by exact Hins.
  assert (Hp1 : mgmtData (set_mgmtData b (Some p1)) = Some p1) by done.
  exists b, w', (set_mgmtData b (Some p1)). split; [exact Ei|].
  rewrite (getFrameContents_Some b p0 Hp), (getDirtyFlags_Some b p0 Hp),
    (getFixCounts_Some b p0 Hp).
  rewrite (getFrameContents_Some _ p1 Hp1), (getDirtyFlags_Some _ p1 Hp1),
    (getFixCounts_Some _ p1 Hp1), Hfr.
  change (frames p0) with (replicate (S m) empty_frame).
  rewrite !fmap_cons, !fmap_replicate, Hg1, Hg2, Hg3.
  replace (pn =? NO_PAGE) with false
    by (symmetry; apply Z.eqb_neq; unfold NO_PAGE; lia).
  replace (S m - 1)%nat with m by lia.
  split_and!; try done.
Qed.

Lemma initBufferPool_then_pinPage_witness :
  ∃ b w' b',
    initBufferPool (world_with "pages.bin" 1 true) (Some blank_pool)
                   (Some "pages.bin") 3 RS_LRU
      = (RC_OK, world_with "pages.bin" 1 true, Some b) ∧
    pinPage (world_with "pages.bin" 1 true) (Some b) (Some blank_page) 0
      = (RC_OK, w', Some b',
         Some (mkPage 0 (Some (page_or_zeros (contents (zero_file 1 true)) 1 0)))) ∧
    getFrameContents (Some b') = Some (0 :: replicate (Z.to_nat 3 - 1) NO_PAGE).
Proof.
  destruct (initBufferPool_then_pinPage (world_with "pages.bin" 1 true)
              blank_pool "pages.bin" 3 RS_LRU blank_page 0 (zero_file 1 true) 1)
    as (b & w' & b' & Ei & _ & _ & _ & _ & _ & Ep & Hc & _).
  - lia.
  - reflexivity.
  - vm_compute. reflexivity.
  - left. reflexivity.
  - vm_compute. reflexivity.
  - lia.
  - vm_compute. discriminate.
  - exists b, w', b'. split_and!; [exact Ei|exact Ep|exact Hc].
Defined.
